(** * The trie storage manager (package trie, [trieStorageManager])

    A shallow embedding of the storage manager of the trie: the layered
    read path ([Get], [getFromOtherStorers]), the write path ([Put],
    [Remove]), the pruning-block counter, the admission part of
    [TakeSnapshot] / [SetCheckpoint], the activity check of the snapshot
    worker ([isActiveDb]), the epoch-triggered migration
    ([EpochConfirmed], [closeOldTrieStorage]) and [Close].

    The storers and the checkpoint hashes holder are Go interfaces; they are
    type classes here.  Every operation of the manager is a computation in a
    small state-and-trace monad: the state is the manager struct, the trace
    is the ordered list of calls made to the collaborators (storers, hashes
    holder, leaves channel, statistics handler, logger).  One call of a
    method is one atomic step: the struct-wide mutex is not modelled. *)

From Stdlib Require Import ZArith List Bool String Lia Sorted.
From Stdlib Require Import Strings.Byte.
From Stdlib Require Import Permutation.
Import ListNotations.
Local Open Scope string_scope.
Local Open Scope list_scope.
Local Open Scope Z_scope.

Set Implicit Arguments.

(** ** Byte slices and errors *)

(** A Go [[]byte]; the nil slice and the empty slice are both [[]]: the code
    only ever looks at [len] and [bytes.Equal], which do not tell them
    apart. *)
Definition bytes := list byte.

Definition toBytes (s : string) : bytes := list_byte_of_string s.

(** [bytes.Equal] *)
Fixpoint bytesEqual (a b : bytes) : bool :=
  match a, b with
  | [], [] => true
  | x :: a', y :: b' => Byte.eqb x y && bytesEqual a' b'
  | _, _ => false
  end.

(** [len(val) != 0] *)
Definition nonEmpty (val : bytes) : bool := negb (Nat.eqb (List.length val) 0).

(** The values of Go's [error] the manager names, and the ones a storer may
    come back with.  A nil error is [None]. *)
Inductive error :=
| ErrKeyNotFound
| ErrContextClosing
| ErrTimeIsOut
| ErrStorage (code : nat)
| ErrWrapped (context : string) (cause : error).

Definition activeDBKey : string := "activeDB".
Definition activeDBVal : string := "yes".

(** ** The collaborators *)

(** [common.DBWriteCacher]: the state of a storer is of type [DB]; a call
    gives the values the Go method returns and the storer afterwards. *)
Class DBWriteCacher (DB : Type) := {
  dbPut : DB -> bytes -> bytes -> DB * option error;
  dbGet : DB -> bytes -> bytes * option error;
  dbRemove : DB -> bytes -> DB * option error;
  dbClose : DB -> DB * option error
}.

(** [CheckpointHashesHolder], the methods the manager calls. *)
Class CheckpointHashesHolder (Holder : Type) := {
  hhPut : Holder -> bytes -> list bytes -> Holder * bool;
  hhRemoveCommitted : Holder -> bytes -> Holder;
  hhRemove : Holder -> bytes -> Holder
}.

(** The storers of the manager, as the trace names them. *)
Inductive layer :=
| MainStorer
| CheckpointsStorer
| OldDb
| OldSnapshot (i : nat).

Inductive logLevel := LvlTrace | LvlDebug | LvlError.

(** A leaves channel and a statistics handler belong to the caller; the
    manager only closes the one and notifies the other. *)
Definition leavesChanId := nat.
Definition statsId := nat.

(** One call to a collaborator. *)
Inductive event :=
| EvGet (l : layer) (key : bytes)
| EvPut (l : layer) (key val : bytes)
| EvRemove (l : layer) (key : bytes)
| EvClose (l : layer)
| EvHolderPut (rootHash : bytes)
| EvHolderRemove (hash : bytes)
| EvHolderRemoveCommitted (rootHash : bytes)
| EvCloseChan (ch : leavesChanId)
| EvSnapshotFinished (stats : statsId)
| EvCancel
| EvCloserClose
| EvStartProcessing
| EvEndProcessing
| EvLog (lvl : logLevel) (msg : string).

Definition isStorerEvent (e : event) : bool :=
  match e with
  | EvGet _ _ | EvPut _ _ _ | EvRemove _ _ | EvClose _ => true
  | _ => false
  end.

Definition isLogEvent (e : event) : bool :=
  match e with
  | EvLog _ _ => true
  | _ => false
  end.

Definition layer_eqb (a b : layer) : bool :=
  match a, b with
  | MainStorer, MainStorer => true
  | CheckpointsStorer, CheckpointsStorer => true
  | OldDb, OldDb => true
  | OldSnapshot i, OldSnapshot j => Nat.eqb i j
  | _, _ => false
  end.

Definition isCloseOf (l : layer) (e : event) : bool :=
  match e with
  | EvClose l' => layer_eqb l l'
  | _ => false
  end.

(** How many times the trace closes storer [l]. *)
Definition closeCount (l : layer) (tr : list event) : nat :=
  List.length (filter (isCloseOf l) tr).

(** ** The monad: state, trace, and the ways a Go call can fail to return *)

Inductive status (A : Type) :=
| Returned (a : A)
| Blocked
| Panicked (reason : string).

Arguments Blocked {A}.
Arguments Panicked {A} reason.

Definition M (St A : Type) := St -> status A * St * list event.

Definition ret {St A} (a : A) : M St A := fun s => (Returned a, s, []).

Definition bind {St A B} (m : M St A) (k : A -> M St B) : M St B :=
  fun s =>
    match m s with
    | (Returned a, s1, tr1) =>
        match k a s1 with
        | (r, s2, tr2) => (r, s2, tr1 ++ tr2)
        end
    | (Blocked, s1, tr1) => (Blocked, s1, tr1)
    | (Panicked why, s1, tr1) => (Panicked why, s1, tr1)
    end.

Notation "x <- m ;; k" := (bind m (fun x => k))
  (at level 61, m at next level, right associativity).
Notation "m ;; k" := (bind m (fun _ => k))
  (at level 61, right associativity).

(** A Go [defer]: [deferred] runs when [body] returns and also when it
    panics, and a panic of [body] goes on after it. *)
Definition defer {St} (deferred body : M St unit) : M St unit :=
  fun s =>
    match body s with
    | (Returned _, s1, tr1) =>
        match deferred s1 with
        | (r, s2, tr2) => (r, s2, tr1 ++ tr2)
        end
    | (Panicked why, s1, tr1) =>
        match deferred s1 with
        | (Returned _, s2, tr2) => (Panicked why, s2, tr1 ++ tr2)
        | (r, s2, tr2) => (r, s2, tr1 ++ tr2)
        end
    | (Blocked, s1, tr1) => (Blocked, s1, tr1)
    end.

Definition getState {St} : M St St := fun s => (Returned s, s, []).
Definition modify {St} (f : St -> St) : M St unit := fun s => (Returned tt, f s, []).
Definition emit {St} (e : event) : M St unit := fun s => (Returned tt, s, [e]).
Definition panic {St A} (why : string) : M St A := fun s => (Panicked why, s, []).
Definition block {St A} : M St A := fun s => (Blocked, s, []).

(** [log.Trace], [log.Debug], [log.Error]: the message only. *)
Definition logMsg {St} (lvl : logLevel) (msg : string) : M St unit := emit (EvLog lvl msg).

(** The state, the trace and the returned value of a run. *)
Definition stateOf {St A} (r : status A * St * list event) : St := snd (fst r).
Definition traceOf {St A} (r : status A * St * list event) : list event := snd r.
Definition statusOf {St A} (r : status A * St * list event) : status A := fst (fst r).

(** ** The manager *)

Record snapshotsQueueEntry := {
  rootHash : bytes;
  leavesChan : option leavesChanId;
  stats : statsId
}.

(** A buffered Go channel of queue entries. *)
Record reqChan := {
  chanBuf : list snapshotsQueueEntry;
  chanCap : nat
}.

Record DBConfig := {
  FilePath : string;
  BatchDelaySeconds : Z
}.

(** Which case of a two-way [select] the Go runtime takes when both are
    ready. *)
Inductive selectCase := CaseSend | CaseClosing.

Definition uint32Mod : Z := 2 ^ 32.

Section Manager.

Context {DB Holder : Type}.
Context {storerOps : DBWriteCacher DB}.
Context {holderOps : CheckpointHashesHolder Holder}.

(** [EmptyTrieHash] is a package variable declared outside the sources at
    hand. *)
Variable EmptyTrieHash : bytes.

(** The struct.  [ctxDone] stands for [cancelFunc] (true once it was called),
    [closerClosed] for [closer]; the mutex is left out.  [pruningBlockingOps]
    and the epochs are uint32. *)
Record trieStorageManager := {
  mainStorer : DB;
  pruningBlockingOps : Z;
  snapshotReq : reqChan;
  checkpointReq : reqChan;
  checkpointsStorer : DB;
  checkpointHashesHolder : Holder;
  ctxDone : bool;
  closerClosed : bool;
  closed : bool;
  db : DB;
  snapshots : list DB;
  snapshotId : Z;
  snapshotDbCfg : DBConfig;
  maxSnapshots : Z;
  keepSnapshots : bool;
  flagDisableOldStorage : bool;
  disableOldStorageEpoch : Z;
  oldStorageClosed : bool
}.

Definition set_mainStorer (v : DB) (t : trieStorageManager) :=
  Build_trieStorageManager v (pruningBlockingOps t) (snapshotReq t) (checkpointReq t)
    (checkpointsStorer t) (checkpointHashesHolder t) (ctxDone t) (closerClosed t)
    (closed t) (db t) (snapshots t) (snapshotId t) (snapshotDbCfg t) (maxSnapshots t)
    (keepSnapshots t) (flagDisableOldStorage t) (disableOldStorageEpoch t)
    (oldStorageClosed t).

Definition set_pruningBlockingOps (v : Z) (t : trieStorageManager) :=
  Build_trieStorageManager (mainStorer t) v (snapshotReq t) (checkpointReq t)
    (checkpointsStorer t) (checkpointHashesHolder t) (ctxDone t) (closerClosed t)
    (closed t) (db t) (snapshots t) (snapshotId t) (snapshotDbCfg t) (maxSnapshots t)
    (keepSnapshots t) (flagDisableOldStorage t) (disableOldStorageEpoch t)
    (oldStorageClosed t).

Definition set_snapshotReq (v : reqChan) (t : trieStorageManager) :=
  Build_trieStorageManager (mainStorer t) (pruningBlockingOps t) v (checkpointReq t)
    (checkpointsStorer t) (checkpointHashesHolder t) (ctxDone t) (closerClosed t)
    (closed t) (db t) (snapshots t) (snapshotId t) (snapshotDbCfg t) (maxSnapshots t)
    (keepSnapshots t) (flagDisableOldStorage t) (disableOldStorageEpoch t)
    (oldStorageClosed t).

Definition set_checkpointReq (v : reqChan) (t : trieStorageManager) :=
  Build_trieStorageManager (mainStorer t) (pruningBlockingOps t) (snapshotReq t) v
    (checkpointsStorer t) (checkpointHashesHolder t) (ctxDone t) (closerClosed t)
    (closed t) (db t) (snapshots t) (snapshotId t) (snapshotDbCfg t) (maxSnapshots t)
    (keepSnapshots t) (flagDisableOldStorage t) (disableOldStorageEpoch t)
    (oldStorageClosed t).

Definition set_checkpointsStorer (v : DB) (t : trieStorageManager) :=
  Build_trieStorageManager (mainStorer t) (pruningBlockingOps t) (snapshotReq t)
    (checkpointReq t) v (checkpointHashesHolder t) (ctxDone t) (closerClosed t)
    (closed t) (db t) (snapshots t) (snapshotId t) (snapshotDbCfg t) (maxSnapshots t)
    (keepSnapshots t) (flagDisableOldStorage t) (disableOldStorageEpoch t)
    (oldStorageClosed t).

Definition set_checkpointHashesHolder (v : Holder) (t : trieStorageManager) :=
  Build_trieStorageManager (mainStorer t) (pruningBlockingOps t) (snapshotReq t)
    (checkpointReq t) (checkpointsStorer t) v (ctxDone t) (closerClosed t)
    (closed t) (db t) (snapshots t) (snapshotId t) (snapshotDbCfg t) (maxSnapshots t)
    (keepSnapshots t) (flagDisableOldStorage t) (disableOldStorageEpoch t)
    (oldStorageClosed t).

Definition set_ctxDone (v : bool) (t : trieStorageManager) :=
  Build_trieStorageManager (mainStorer t) (pruningBlockingOps t) (snapshotReq t)
    (checkpointReq t) (checkpointsStorer t) (checkpointHashesHolder t) v (closerClosed t)
    (closed t) (db t) (snapshots t) (snapshotId t) (snapshotDbCfg t) (maxSnapshots t)
    (keepSnapshots t) (flagDisableOldStorage t) (disableOldStorageEpoch t)
    (oldStorageClosed t).

Definition set_closerClosed (v : bool) (t : trieStorageManager) :=
  Build_trieStorageManager (mainStorer t) (pruningBlockingOps t) (snapshotReq t)
    (checkpointReq t) (checkpointsStorer t) (checkpointHashesHolder t) (ctxDone t) v
    (closed t) (db t) (snapshots t) (snapshotId t) (snapshotDbCfg t) (maxSnapshots t)
    (keepSnapshots t) (flagDisableOldStorage t) (disableOldStorageEpoch t)
    (oldStorageClosed t).

Definition set_closed (v : bool) (t : trieStorageManager) :=
  Build_trieStorageManager (mainStorer t) (pruningBlockingOps t) (snapshotReq t)
    (checkpointReq t) (checkpointsStorer t) (checkpointHashesHolder t) (ctxDone t)
    (closerClosed t) v (db t) (snapshots t) (snapshotId t) (snapshotDbCfg t)
    (maxSnapshots t) (keepSnapshots t) (flagDisableOldStorage t)
    (disableOldStorageEpoch t) (oldStorageClosed t).

Definition set_db (v : DB) (t : trieStorageManager) :=
  Build_trieStorageManager (mainStorer t) (pruningBlockingOps t) (snapshotReq t)
    (checkpointReq t) (checkpointsStorer t) (checkpointHashesHolder t) (ctxDone t)
    (closerClosed t) (closed t) v (snapshots t) (snapshotId t) (snapshotDbCfg t)
    (maxSnapshots t) (keepSnapshots t) (flagDisableOldStorage t)
    (disableOldStorageEpoch t) (oldStorageClosed t).

Definition set_snapshots (v : list DB) (t : trieStorageManager) :=
  Build_trieStorageManager (mainStorer t) (pruningBlockingOps t) (snapshotReq t)
    (checkpointReq t) (checkpointsStorer t) (checkpointHashesHolder t) (ctxDone t)
    (closerClosed t) (closed t) (db t) v (snapshotId t) (snapshotDbCfg t)
    (maxSnapshots t) (keepSnapshots t) (flagDisableOldStorage t)
    (disableOldStorageEpoch t) (oldStorageClosed t).

Definition set_flagDisableOldStorage (v : bool) (t : trieStorageManager) :=
  Build_trieStorageManager (mainStorer t) (pruningBlockingOps t) (snapshotReq t)
    (checkpointReq t) (checkpointsStorer t) (checkpointHashesHolder t) (ctxDone t)
    (closerClosed t) (closed t) (db t) (snapshots t) (snapshotId t) (snapshotDbCfg t)
    (maxSnapshots t) (keepSnapshots t) v (disableOldStorageEpoch t)
    (oldStorageClosed t).

Definition set_oldStorageClosed (v : bool) (t : trieStorageManager) :=
  Build_trieStorageManager (mainStorer t) (pruningBlockingOps t) (snapshotReq t)
    (checkpointReq t) (checkpointsStorer t) (checkpointHashesHolder t) (ctxDone t)
    (closerClosed t) (closed t) (db t) (snapshots t) (snapshotId t) (snapshotDbCfg t)
    (maxSnapshots t) (keepSnapshots t) (flagDisableOldStorage t)
    (disableOldStorageEpoch t) v.

Definition TSM := M trieStorageManager.

(** *** Calls to the collaborators *)

Definition storerGet (l : layer) (s : DB) (key : bytes) : TSM (bytes * option error) :=
  emit (EvGet l key) ;; ret (dbGet s key).

(** Modelled from the spec: [atomic.Flag], the flag type of the atomic
    package, is not among the sources; [Toggle b] stores [b] ("sets
    legacyDisabled = (epoch >= configuredThreshold)", recomputed every call)
    and [IsSet] reads it. *)
Definition flagToggle (b : bool) : TSM unit := modify (set_flagDisableOldStorage b).

Definition flagIsSet : TSM bool :=
  t <- getState ;; ret (flagDisableOldStorage t).

(** *** The read path *)

(** The loop of [getFromOtherStorers]:
    [for i := len(tsm.snapshots) - 1; i >= 0; i--], entered with
    [n = len(tsm.snapshots)]. *)
Fixpoint getFromSnapshots (snaps : list DB) (n : nat) (key : bytes)
  : TSM (bytes * option error) :=
  match n with
  | O => ret ([], Some ErrKeyNotFound)
  | S i =>
      match nth_error snaps i with
      | Some sdb =>
          r <- storerGet (OldSnapshot i) sdb key ;;
          if nonEmpty (fst r) then ret (fst r, None)
          else getFromSnapshots snaps i key
      | None => panic "index out of range"
      end
  end.

Definition getFromOtherStorers (key : bytes) : TSM (bytes * option error) :=
  t <- getState ;;
  r <- storerGet CheckpointsStorer (checkpointsStorer t) key ;;
  if nonEmpty (fst r) then ret (fst r, None)
  else
    disabled <- flagIsSet ;;
    if disabled then ret ([], Some ErrKeyNotFound)
    else
      r <- storerGet OldDb (db t) key ;;
      if nonEmpty (fst r) then ret (fst r, None)
      else getFromSnapshots (snapshots t) (List.length (snapshots t)) key.

Definition Get (key : bytes) : TSM (bytes * option error) :=
  t <- getState ;;
  r <- storerGet MainStorer (mainStorer t) key ;;
  if nonEmpty (fst r) then ret (fst r, None)
  else getFromOtherStorers key.

(** *** The write path *)

(** [tsm.mainStorer.Put(key, val)] *)
Definition mainStorerPut (key val : bytes) : TSM (option error) :=
  t <- getState ;;
  emit (EvPut MainStorer key val) ;;
  modify (set_mainStorer (fst (dbPut (mainStorer t) key val))) ;;
  ret (snd (dbPut (mainStorer t) key val)).

Definition Put (key val : bytes) : TSM (option error) :=
  logMsg LvlTrace "put hash in tsm" ;;
  mainStorerPut key val.

Definition Remove (hash : bytes) : TSM (option error) :=
  t <- getState ;;
  emit (EvHolderRemove hash) ;;
  modify (set_checkpointHashesHolder (hhRemove (checkpointHashesHolder t) hash)) ;;
  emit (EvRemove MainStorer hash) ;;
  modify (set_mainStorer (fst (dbRemove (mainStorer t) hash))) ;;
  ret (snd (dbRemove (mainStorer t) hash)).


(** *** The pruning-block counter *)

Definition EnterPruningBufferingMode : TSM unit :=
  t <- getState ;;
  modify (set_pruningBlockingOps ((pruningBlockingOps t + 1) mod uint32Mod)) ;;
  logMsg LvlTrace "enter pruning buffering state".

Definition ExitPruningBufferingMode : TSM unit :=
  t <- getState ;;
  if pruningBlockingOps t <? 1 then
    logMsg LvlError "ExitPruningBufferingMode called too many times"
  else
    modify (set_pruningBlockingOps ((pruningBlockingOps t - 1) mod uint32Mod)) ;;
    logMsg LvlTrace "exit pruning buffering state".

Definition IsPruningBlocked : TSM bool :=
  t <- getState ;; ret (negb (pruningBlockingOps t =? 0)).

Definition IsPruningEnabled : TSM bool := ret true.

Definition isClosed : TSM bool :=
  t <- getState ;; ret (closed t).

(** *** Admission of snapshot and checkpoint requests *)

Definition safelyCloseChan (ch : option leavesChanId) : TSM unit :=
  match ch with
  | Some c => emit (EvCloseChan c)
  | None => ret tt
  end.

Definition SnapshotFinished (st : statsId) : TSM unit := emit (EvSnapshotFinished st).

Definition finishOperation (snapshotEntry : snapshotsQueueEntry) (message : string)
  : TSM unit :=
  ExitPruningBufferingMode ;;
  logMsg LvlTrace message ;;
  safelyCloseChan (leavesChan snapshotEntry) ;;
  SnapshotFinished (stats snapshotEntry).

(** The two-way [select] of [TakeSnapshot] and [SetCheckpoint]: the send is
    ready when the buffer of the request channel has room, the other case
    when the closer is closed; [pick] is the runtime's choice when both are,
    and with neither the caller waits. *)
Definition selectReady (q : reqChan) (closing : bool) (pick : selectCase)
  : option selectCase :=
  match Nat.ltb (List.length (chanBuf q)) (chanCap q), closing with
  | true, true => Some pick
  | true, false => Some CaseSend
  | false, true => Some CaseClosing
  | false, false => None
  end.

Definition chanSend (q : reqChan) (e : snapshotsQueueEntry) : reqChan :=
  {| chanBuf := chanBuf q ++ [e]; chanCap := chanCap q |}.

Definition TakeSnapshot (pick : selectCase) (root : bytes)
    (ch : option leavesChanId) (st : statsId) : TSM unit :=
  c <- isClosed ;;
  if c then
    safelyCloseChan ch ;;
    SnapshotFinished st
  else if bytesEqual root EmptyTrieHash then
    logMsg LvlTrace "should not snapshot an empty trie" ;;
    safelyCloseChan ch ;;
    SnapshotFinished st
  else
    EnterPruningBufferingMode ;;
    t <- getState ;;
    emit (EvHolderRemoveCommitted root) ;;
    modify (set_checkpointHashesHolder
              (hhRemoveCommitted (checkpointHashesHolder t) root)) ;;
    let snapshotEntry := {| rootHash := root; leavesChan := ch; stats := st |} in
    match selectReady (snapshotReq t) (closerClosed t) pick with
    | Some CaseSend =>
        modify (set_snapshotReq (chanSend (snapshotReq t) snapshotEntry))
    | Some CaseClosing =>
        ExitPruningBufferingMode ;;
        safelyCloseChan ch ;;
        SnapshotFinished st
    | None => block
    end.

Definition SetCheckpoint (pick : selectCase) (root : bytes)
    (ch : option leavesChanId) (st : statsId) : TSM unit :=
  c <- isClosed ;;
  if c then
    safelyCloseChan ch ;;
    SnapshotFinished st
  else if bytesEqual root EmptyTrieHash then
    logMsg LvlTrace "should not set checkpoint for empty trie" ;;
    safelyCloseChan ch ;;
    SnapshotFinished st
  else
    EnterPruningBufferingMode ;;
    t <- getState ;;
    let checkpointEntry := {| rootHash := root; leavesChan := ch; stats := st |} in
    match selectReady (checkpointReq t) (closerClosed t) pick with
    | Some CaseSend =>
        modify (set_checkpointReq (chanSend (checkpointReq t) checkpointEntry))
    | Some CaseClosing =>
        ExitPruningBufferingMode ;;
        safelyCloseChan ch ;;
        SnapshotFinished st
    | None => block
    end.

(** *** Closing and the epoch-triggered migration *)

(** The loop of [closeOldTrieStorage] over [tsm.snapshots], from index [i]
    on; [err] is the error seen so far. *)
Fixpoint closeSnapshots (i : nat) (snaps : list DB) (err : option error)
  : TSM (list DB * option error) :=
  match snaps with
  | [] => ret ([], err)
  | sdb :: rest =>
      emit (EvClose (OldSnapshot i)) ;;
      err' <- match snd (dbClose sdb) with
              | Some e =>
                  logMsg LvlError "trieStorageManager.Close snapshotClose" ;;
                  ret (Some e)
              | None => ret err
              end ;;
      r <- closeSnapshots (S i) rest err' ;;
      ret (fst (dbClose sdb) :: fst r, snd r)
  end.

Definition closeOldTrieStorage : TSM (option error) :=
  t <- getState ;;
  emit (EvClose OldDb) ;;
  modify (set_db (fst (dbClose (db t)))) ;;
  r <- closeSnapshots 0 (snapshots t) (snd (dbClose (db t))) ;;
  modify (set_snapshots (fst r)) ;;
  modify (set_oldStorageClosed true) ;;
  ret (snd r).

(** [closer.Close()] is deferred in the source: it runs last. *)
Definition Close : TSM (option error) :=
  emit EvCancel ;;
  modify (set_ctxDone true) ;;
  modify (set_closed true) ;;
  disabled <- flagIsSet ;;
  err <- (if negb disabled then closeOldTrieStorage else ret None) ;;
  t <- getState ;;
  emit (EvClose MainStorer) ;;
  modify (set_mainStorer (fst (dbClose (mainStorer t)))) ;;
  err <- match snd (dbClose (mainStorer t)) with
         | Some e =>
             logMsg LvlError "trieStorageManager.Close mainStorerClose" ;;
             ret (Some e)
         | None => ret err
         end ;;
  emit (EvClose CheckpointsStorer) ;;
  modify (set_checkpointsStorer (fst (dbClose (checkpointsStorer t)))) ;;
  err <- match snd (dbClose (checkpointsStorer t)) with
         | Some e =>
             logMsg LvlError "trieStorageManager.Close checkpointsStorerClose" ;;
             ret (Some e)
         | None => ret err
         end ;;
  emit EvCloserClose ;;
  modify (set_closerClosed true) ;;
  match err with
  | Some e => ret (Some (ErrWrapped "trieStorageManager close failed" e))
  | None => ret None
  end.

Definition EpochConfirmed (epoch : Z) : TSM unit :=
  t <- getState ;;
  flagToggle (epoch >=? disableOldStorageEpoch t) ;;
  logMsg LvlDebug "old trie storage" ;;
  err <- mainStorerPut (toBytes activeDBKey) (toBytes activeDBVal) ;;
  match err with
  | Some _ => logMsg LvlError "set db as activeDB error"
  | None => ret tt
  end ;;
  disabled <- flagIsSet ;;
  t' <- getState ;;
  if disabled && negb (oldStorageClosed t') then
    err <- closeOldTrieStorage ;;
    match err with
    | Some _ => logMsg LvlError "could not close old trie storage"
    | None => ret tt
    end
  else ret tt.

(** A run of [EpochConfirmed] calls, one per epoch of the list, in order. *)
Fixpoint epochsConfirmed (epochs : list Z) : TSM unit :=
  match epochs with
  | [] => ret tt
  | e :: rest => EpochConfirmed e ;; epochsConfirmed rest
  end.

End Manager.

Arguments trieStorageManager : clear implicits.

(** ** The activity check of the snapshot worker *)

(** The storage manager a snapshot worker reads from
    ([snapshotTrieStorageManager]); only its [Get] is used here, and its
    declaration is not among the sources. *)
Class SnapshotStorageManager (STSM : Type) := {
  stsmGet : STSM -> bytes -> bytes * option error
}.

(** [err.Error()] is evaluated as an argument of [log.Debug], whatever the
    log level: on a nil [err] the call panics. *)
Definition isActiveDb {St STSM} `{SnapshotStorageManager STSM} (stsm : STSM)
  : M St bool :=
  let val := fst (stsmGet stsm (toBytes activeDBKey)) in
  let err := snd (stsmGet stsm (toBytes activeDBKey)) in
  if bytesEqual val (toBytes activeDBVal) then ret true
  else
    match err with
    | None => panic "invalid memory address or nil pointer dereference"
    | Some _ =>
        logMsg LvlDebug "snapshotTrieStorageManager get" ;;
        ret false
    end.

(** ** The workers *)

Section Worker.

Context {DB Holder STSM : Type}.
Context {storerOps : DBWriteCacher DB}.
Context {holderOps : CheckpointHashesHolder Holder}.
Context {stsmOps : SnapshotStorageManager STSM}.

(** The trie side of a worker is declared outside the sources at hand: the
    decoding of the root node, the making of the snapshot storage manager
    and the two tree walks are taken as they come. *)
Variable snapshotNode : Type.
Variable newSnapshotNode : bytes -> M (trieStorageManager DB Holder) (snapshotNode + error).
Variable newSnapshotTrieStorageManager : M (trieStorageManager DB Holder) (STSM + error).
Variable commitSnapshot :
  snapshotNode -> STSM -> option leavesChanId -> statsId ->
  M (trieStorageManager DB Holder) (option error).
Variable commitCheckpoint :
  snapshotNode -> option leavesChanId -> statsId ->
  M (trieStorageManager DB Holder) (option error).

Definition takeSnapshot (snapshotEntry : snapshotsQueueEntry)
  : M (trieStorageManager DB Holder) unit :=
  defer
    (finishOperation snapshotEntry "trie snapshot finished" ;;
     emit EvEndProcessing)
    (logMsg LvlTrace "trie snapshot started" ;;
     r <- newSnapshotNode (rootHash snapshotEntry) ;;
     match r with
     | inr _ => logMsg LvlError "takeSnapshot: trie storage manager: newSnapshotTrie"
     | inl newRoot =>
         r <- newSnapshotTrieStorageManager ;;
         match r with
         | inr _ =>
             logMsg LvlError
               "takeSnapshot: trie storage manager: newSnapshotTrieStorageManager"
         | inl stsm =>
             active <- isActiveDb stsm ;;
             if negb active then ret tt
             else
               err <- commitSnapshot newRoot stsm
                        (leavesChan snapshotEntry) (stats snapshotEntry) ;;
               match err with
               | Some ErrContextClosing =>
                   logMsg LvlDebug "context closing while in commitSnapshot operation"
               | Some _ => logMsg LvlError "trie storage manager: takeSnapshot commit"
               | None => ret tt
               end
         end
     end).


End Worker.

(** ** In-memory collaborators

    A storer kept in memory, to run the manager on: an association list, a
    count of the calls to [Close], and an optional fault that every call
    then reports. *)

Record memDB := {
  items : list (bytes * bytes);
  fault : option error;
  closeCalls : nat
}.

Fixpoint memLookup (key : bytes) (l : list (bytes * bytes)) : option bytes :=
  match l with
  | [] => None
  | (k, v) :: rest => if bytesEqual k key then Some v else memLookup key rest
  end.

Fixpoint memDelete (key : bytes) (l : list (bytes * bytes)) : list (bytes * bytes) :=
  match l with
  | [] => []
  | (k, v) :: rest =>
      if bytesEqual k key then memDelete key rest else (k, v) :: memDelete key rest
  end.

Definition memGet (s : memDB) (key : bytes) : bytes * option error :=
  match fault s with
  | Some e => ([], Some e)
  | None =>
      match memLookup key (items s) with
      | Some v => (v, None)
      | None => ([], Some ErrKeyNotFound)
      end
  end.

Definition memPut (s : memDB) (key val : bytes) : memDB * option error :=
  match fault s with
  | Some e => (s, Some e)
  | None =>
      ({| items := (key, val) :: memDelete key (items s);
          fault := None;
          closeCalls := closeCalls s |}, None)
  end.

Definition memRemove (s : memDB) (key : bytes) : memDB * option error :=
  match fault s with
  | Some e => (s, Some e)
  | None =>
      ({| items := memDelete key (items s);
          fault := None;
          closeCalls := closeCalls s |}, None)
  end.

Definition memClose (s : memDB) : memDB * option error :=
  ({| items := items s; fault := fault s; closeCalls := S (closeCalls s) |}, fault s).

#[export] Instance memDB_storer : DBWriteCacher memDB := {
  dbPut := memPut;
  dbGet := memGet;
  dbRemove := memRemove;
  dbClose := memClose
}.

(** A hashes holder kept in memory: the pending hashes per root hash, oldest
    first. *)
Definition memHolder := list (bytes * list bytes).

Fixpoint dropThrough (root : bytes) (h : memHolder) : option memHolder :=
  match h with
  | [] => None
  | (r, hs) :: rest => if bytesEqual r root then Some rest else dropThrough root rest
  end.

Definition memHolderRemoveCommitted (h : memHolder) (root : bytes) : memHolder :=
  match dropThrough root h with
  | Some rest => rest
  | None => h
  end.

Definition memHolderRemove (h : memHolder) (hash : bytes) : memHolder :=
  map (fun e => (fst e, filter (fun x => negb (bytesEqual x hash)) (snd e))) h.

#[export] Instance memHolder_ops : CheckpointHashesHolder memHolder := {
  hhPut := fun h root hashes => (h ++ [(root, hashes)], false);
  hhRemoveCommitted := memHolderRemoveCommitted;
  hhRemove := memHolderRemove
}.

(** A snapshot storage manager that reads from one in-memory storer. *)
#[export] Instance memDB_stsm : SnapshotStorageManager memDB := {
  stsmGet := memGet
}.

Definition emptyDB : memDB := {| items := []; fault := None; closeCalls := 0 |}.

Definition dbOf (l : list (string * string)) : memDB :=
  {| items := map (fun e => (toBytes (fst e), toBytes (snd e))) l;
     fault := None;
     closeCalls := 0 |}.

Definition brokenDB (code : nat) : memDB :=
  {| items := []; fault := Some (ErrStorage code); closeCalls := 0 |}.

(** A manager as the constructor leaves it (counter at zero, flag unset,
    nothing closed), on the given storers, with [threshold] the epoch that
    disables the old storage. *)
Definition newManager (main chk old : memDB) (snaps : list memDB) (threshold : Z)
  : trieStorageManager memDB memHolder :=
  {| mainStorer := main;
     pruningBlockingOps := 0;
     snapshotReq := {| chanBuf := []; chanCap := 2 |};
     checkpointReq := {| chanBuf := []; chanCap := 2 |};
     checkpointsStorer := chk;
     checkpointHashesHolder := [];
     ctxDone := false;
     closerClosed := false;
     closed := false;
     db := old;
     snapshots := snaps;
     snapshotId := 0;
     snapshotDbCfg := {| FilePath := "snapshots"; BatchDelaySeconds := 1 |};
     maxSnapshots := 2;
     keepSnapshots := false;
     flagDisableOldStorage := false;
     disableOldStorageEpoch := threshold;
     oldStorageClosed := false |}.

(** A value for the hash of the empty trie: 32 zero bytes. *)
Definition emptyTrieHash32 : bytes := repeat x00 32.

(** A manager on empty storers, with threshold 5. *)
Definition freshManager : trieStorageManager memDB memHolder :=
  newManager emptyDB emptyDB emptyDB [] 5.

(** A manager with two old snapshot generations and threshold 5. *)
Definition legacyManager : trieStorageManager memDB memHolder :=
  newManager emptyDB emptyDB (dbOf [("a", "1")])
    [dbOf [("b", "2")]; dbOf [("c", "3")]] 5.


(** A sequence of calls to the pruning-block counter. *)
Inductive pruningCall := CallEnter | CallExit.

Definition pruningCallRun {DB Holder} (c : pruningCall)
  : M (trieStorageManager DB Holder) unit :=
  match c with
  | CallEnter => EnterPruningBufferingMode
  | CallExit => ExitPruningBufferingMode
  end.

Fixpoint pruningCallsRun {DB Holder} (cs : list pruningCall)
  : M (trieStorageManager DB Holder) unit :=
  match cs with
  | [] => ret tt
  | c :: rest => pruningCallRun c ;; pruningCallsRun rest
  end.

(** The counter is a uint32. *)
Definition validCounter {DB Holder} (t : trieStorageManager DB Holder) : Prop :=
  0 <= pruningBlockingOps t < uint32Mod.

(** ** The words of the specification *)

(** What finishing a request at once shows to the caller: the leaves channel
    closed, if there is one, then the statistics handler told. *)
Definition finishEvents (ch : option leavesChanId) (st : statsId) : list event :=
  match ch with
  | Some c => [EvCloseChan c; EvSnapshotFinished st]
  | None => [EvSnapshotFinished st]
  end.

Section Layers.

Context {DB Holder : Type}.
Context {storerOps : DBWriteCacher DB}.

(** The old snapshot generations with their places in [tsm.snapshots], the
    first of them at place [i]. *)
Fixpoint indexedFrom (i : nat) (snaps : list DB) : list (layer * DB) :=
  match snaps with
  | [] => []
  | sdb :: rest => (OldSnapshot i, sdb) :: indexedFrom (S i) rest
  end.

Definition indexedSnapshots (snaps : list DB) : list (layer * DB) :=
  indexedFrom 0 snaps.

(** The generations, the most recent first. *)
Definition snapshotLayers (snaps : list DB) : list (layer * DB) :=
  rev (indexedSnapshots snaps).

(** The layers behind the main storer: the checkpoints storer, then, while
    the old storage is not disabled, the old db and the old generations. *)
Definition fallbackLayers (t : trieStorageManager DB Holder) : list (layer * DB) :=
  (CheckpointsStorer, checkpointsStorer t) ::
  (if flagDisableOldStorage t then []
   else (OldDb, db t) :: snapshotLayers (snapshots t)).

(** Every layer a read may consult, in the order of the specification. *)
Definition activeLayers (t : trieStorageManager DB Holder) : list (layer * DB) :=
  (MainStorer, mainStorer t) :: fallbackLayers t.

(** The value a layer holds for a key, whatever error comes with it. *)
Definition layerValue (key : bytes) (ls : layer * DB) : bytes :=
  fst (dbGet (snd ls) key).

Definition hits (key : bytes) (ls : layer * DB) : Prop :=
  nonEmpty (layerValue key ls) = true.

Definition misses (key : bytes) (ls : layer * DB) : Prop :=
  nonEmpty (layerValue key ls) = false.

Definition consulted (key : bytes) (ls : layer * DB) : event := EvGet (fst ls) key.

(** The layered lookup of the specification: the layers are read one after
    the other, the first value that is not empty is the answer, and with no
    layer left the key is not found.  The result comes with the reads made. *)
Fixpoint firstHit (key : bytes) (layers : list (layer * DB))
  : (bytes * option error) * list event :=
  match layers with
  | [] => (([], Some ErrKeyNotFound), [])
  | ls :: rest =>
      if nonEmpty (layerValue key ls) then ((layerValue key ls, None), [consulted key ls])
      else (fst (firstHit key rest), consulted key ls :: snd (firstHit key rest))
  end.

(** Two managers whose layers hold the same values for a key, whatever the
    errors their storers report. *)
Definition sameValues (key : bytes) (t1 t2 : trieStorageManager DB Holder) : Prop :=
  flagDisableOldStorage t1 = flagDisableOldStorage t2 /\
  fst (dbGet (mainStorer t1) key) = fst (dbGet (mainStorer t2) key) /\
  fst (dbGet (checkpointsStorer t1) key) = fst (dbGet (checkpointsStorer t2) key) /\
  fst (dbGet (db t1) key) = fst (dbGet (db t2) key) /\
  Forall2 (fun a b => fst (dbGet a key) = fst (dbGet b key)) (snapshots t1) (snapshots t2).

End Layers.

(** ** Closed forms of the closing loop *)

Section ClosedForms.

Context {DB Holder : Type}.
Context {storerOps : DBWriteCacher DB}.

(** The storer after its [Close]. *)
Definition closedStorer (s : DB) : DB := fst (dbClose s).

(** The error [closeOldTrieStorage] is left with after the loop: the one of
    the last generation whose [Close] failed, else [err]. *)
Fixpoint lastCloseError (snaps : list DB) (err : option error) : option error :=
  match snaps with
  | [] => err
  | sdb :: rest =>
      lastCloseError rest
        (match snd (dbClose sdb) with
         | Some e => Some e
         | None => err
         end)
  end.

(** The calls the loop makes, the first generation being at place [i]. *)
Fixpoint closeSnapshotsTrace (i : nat) (snaps : list DB) : list event :=
  match snaps with
  | [] => []
  | sdb :: rest =>
      EvClose (OldSnapshot i) ::
      (match snd (dbClose sdb) with
       | Some _ => [EvLog LvlError "trieStorageManager.Close snapshotClose"]
       | None => []
       end) ++ closeSnapshotsTrace (S i) rest
  end.

(** The manager once its old storage is closed. *)
Definition oldStorageClosedState (t : trieStorageManager DB Holder)
  : trieStorageManager DB Holder :=
  set_oldStorageClosed true
    (set_snapshots (map closedStorer (snapshots t))
       (set_db (closedStorer (db t)) t)).

Definition closeOldTrieStorageTrace (t : trieStorageManager DB Holder) : list event :=
  EvClose OldDb :: closeSnapshotsTrace 0 (snapshots t).

(** How often one call of [closeOldTrieStorage] closes a storer, over [n]
    generations. *)
Definition closesOnce (n : nat) (l : layer) : nat :=
  match l with
  | OldDb => 1
  | OldSnapshot j => if Nat.ltb j n then 1 else 0
  | MainStorer | CheckpointsStorer => 0
  end.

(** The manager after the first half of [EpochConfirmed]: the flag
    recomputed, the marker of the active db written to the main storer. *)
Definition epochMarked (epoch : Z) (t : trieStorageManager DB Holder)
  : trieStorageManager DB Holder :=
  set_mainStorer
    (fst (dbPut (mainStorer t) (toBytes activeDBKey) (toBytes activeDBVal)))
    (set_flagDisableOldStorage (epoch >=? disableOldStorageEpoch t) t).

(** The guard of the second half. *)
Definition triggersMigration (epoch : Z) (t : trieStorageManager DB Holder) : bool :=
  (epoch >=? disableOldStorageEpoch t) && negb (oldStorageClosed t).

End ClosedForms.

(** ** The dispatcher's side of the queues *)

(** [core.Throttler], as far as the dispatcher asks it. *)
Class Throttler (T : Type) := {
  CanProcess : T -> bool
}.

(** Which queue a [select] over both receives from when both hold a
    request. *)
Inductive recvCase := RecvSnapshotReq | RecvCheckpointReq.

(** A receive from a buffered channel: the oldest entry, if there is one. *)
Definition chanRecv (q : reqChan) : option (snapshotsQueueEntry * reqChan) :=
  match chanBuf q with
  | [] => None
  | e :: rest => Some (e, {| chanBuf := rest; chanCap := chanCap q |})
  end.

Section Dispatcher.

Context {DB Holder T : Type}.
Context {throttlerOps : Throttler T}.

(** The loop of [checkGoRoutinesThrottler], one call being one atomic step:
    with capacity it returns at once; without, a context that is done ends
    the wait (the timer of 100 ms is never ready before it), and otherwise
    the dispatcher waits for another goroutine. *)
Definition checkGoRoutinesThrottler (goRoutinesThrottler : T)
    (snapshotRequest : snapshotsQueueEntry)
  : M (trieStorageManager DB Holder) (option error) :=
  if CanProcess goRoutinesThrottler then ret None
  else
    t <- getState ;;
    if ctxDone t then
      finishOperation snapshotRequest "did not start snapshot, goroutione is closing" ;;
      ret (Some ErrTimeIsOut)
    else block.

(** The loop of [cleanupChans].  Each turn takes one request from a queue
    that holds one ([picks] says which when both do) and finishes it; with
    both queues empty the [default] case ends the loop.  [fuel] bounds the
    turns. *)
Fixpoint cleanupLoop (fuel : nat) (picks : list recvCase)
  : M (trieStorageManager DB Holder) unit :=
  match fuel with
  | O => block
  | S fuel' =>
      t <- getState ;;
      match chanRecv (snapshotReq t), chanRecv (checkpointReq t) with
      | None, None => logMsg LvlDebug "finished trieStorageManager.cleanupChans"
      | Some (entry, q), None =>
          modify (set_snapshotReq q) ;;
          finishOperation entry "trie snapshot finished on cleanup" ;;
          cleanupLoop fuel' (tl picks)
      | None, Some (entry, q) =>
          modify (set_checkpointReq q) ;;
          finishOperation entry "trie checkpoint finished on cleanup" ;;
          cleanupLoop fuel' (tl picks)
      | Some (entryS, qS), Some (entryC, qC) =>
          match hd RecvSnapshotReq picks with
          | RecvSnapshotReq =>
              modify (set_snapshotReq qS) ;;
              finishOperation entryS "trie snapshot finished on cleanup" ;;
              cleanupLoop fuel' (tl picks)
          | RecvCheckpointReq =>
              modify (set_checkpointReq qC) ;;
              finishOperation entryC "trie checkpoint finished on cleanup" ;;
              cleanupLoop fuel' (tl picks)
          end
      end
  end.

(** [<-tsm.closer.ChanClose()] lets the goroutine go on once the closer is
    closed; the loop then has one turn per queued request and one more. *)
Definition cleanupChans (picks : list recvCase)
  : M (trieStorageManager DB Holder) unit :=
  t <- getState ;;
  if closerClosed t then
    cleanupLoop
      (S (List.length (chanBuf (snapshotReq t)) +
          List.length (chanBuf (checkpointReq t))))
      picks
  else block.

End Dispatcher.

(** ** The snapshots found on disk *)

(** A Go [map[int]V]: the pairs in the order a [range] happens to visit
    them, the keys all different. *)
Definition goMap (V : Type) := list (Z * V).

Fixpoint mapLookup {V} (key : Z) (m : goMap V) : option V :=
  match m with
  | [] => None
  | (k, v) :: rest => if k =? key then Some v else mapLookup key rest
  end.

(** [m[key] = v] *)
Fixpoint mapInsert {V} (key : Z) (v : V) (m : goMap V) : goMap V :=
  match m with
  | [] => [(key, v)]
  | (k, v') :: rest =>
      if k =? key then (key, v) :: rest else (k, v') :: mapInsert key v rest
  end.

(** [sort.Ints] *)
Fixpoint insertSorted (x : Z) (l : list Z) : list Z :=
  match l with
  | [] => [x]
  | y :: rest => if x <=? y then x :: y :: rest else y :: insertSorted x rest
  end.

Fixpoint sortInts (l : list Z) : list Z :=
  match l with
  | [] => []
  | x :: rest => insertSorted x (sortInts rest)
  end.

(** The keys are the map's own, so the lookup of the second loop finds each
    of them. *)
Definition getOrderedSnapshots {V} (snapshotsMap : goMap V) : list V :=
  let keys := sortInts (map fst snapshotsMap) in
  flat_map
    (fun key =>
       match mapLookup key snapshotsMap with
       | Some sdb => [sdb]
       | None => []
       end)
    keys.

(** An entry of a directory, as [ioutil.ReadDir] gives it. *)
Record dirEntry := {
  Name : string;
  IsDir : bool
}.

(** What the file system shows at the configured path: whether it exists
    ([directoryExists]) and what reading it gives. *)
Record fsView := {
  pathExists : bool;
  readDir : list dirEntry + error
}.

(** Go's [int] is 64 bits wide. *)
Definition intWrap (z : Z) : Z := (z + 2 ^ 63) mod 2 ^ 64 - 2 ^ 63.

Section RestoreSnapshots.

Context {DB St : Type}.

(** [strconv.Atoi] and [storageUnit.NewDB] (on the directory of the given
    name under the configured path) are library calls. *)
Variable Atoi : string -> Z + error.
Variable NewDB : DBConfig -> string -> DB + error.

(** The loop of [getSnapshotsAndSnapshotId] over the entries, then its
    end. *)
Fixpoint restoreSnapshots (snapshotDbCfg : DBConfig) (files : list dirEntry)
    (snapshotsMap : goMap DB) (snapshotId : Z)
  : M St (list DB * Z * option error) :=
  match files with
  | [] =>
      ret (getOrderedSnapshots snapshotsMap,
           (if negb (Nat.eqb (List.length snapshotsMap) 0)
            then intWrap (snapshotId + 1) else snapshotId),
           None)
  | f :: rest =>
      if negb (IsDir f) then restoreSnapshots snapshotDbCfg rest snapshotsMap snapshotId
      else
        match Atoi (Name f) with
        | inr err => ret (getOrderedSnapshots snapshotsMap, snapshotId, Some err)
        | inl snapshotName =>
            match NewDB snapshotDbCfg (Name f) with
            | inr err => ret (getOrderedSnapshots snapshotsMap, snapshotId, Some err)
            | inl newSnapshot =>
                logMsg LvlDebug "restored snapshot" ;;
                restoreSnapshots snapshotDbCfg rest
                  (mapInsert snapshotName newSnapshot snapshotsMap)
                  (if snapshotName >? snapshotId then snapshotName else snapshotId)
            end
        end
  end.

Definition getSnapshotsAndSnapshotId (fs : fsView) (snapshotDbCfg : DBConfig)
  : M St (list DB * Z * option error) :=
  if negb (pathExists fs) then ret (getOrderedSnapshots (@nil (Z * DB)), 0, None)
  else
    match readDir fs with
    | inr err =>
        logMsg LvlDebug "there is no snapshot in path" ;;
        ret (getOrderedSnapshots (@nil (Z * DB)), 0, Some err)
    | inl files => restoreSnapshots snapshotDbCfg files [] 0
    end.

End RestoreSnapshots.

(** ** Calls from outside *)


Section Facade.

Context {DB Holder : Type}.
Context {storerOps : DBWriteCacher DB}.
Context {holderOps : CheckpointHashesHolder Holder}.
Variable EmptyTrieHash : bytes.



End Facade.


(** The two kinds of request, to speak of [TakeSnapshot] and
    [SetCheckpoint] at once. *)
Inductive requestKind := SnapshotRequest | CheckpointRequest.

Section Requests.

Context {DB Holder : Type}.
Context {holderOps : CheckpointHashesHolder Holder}.
Variable EmptyTrieHash : bytes.

Definition submitRequest (kind : requestKind) (pick : selectCase) (root : bytes)
    (ch : option leavesChanId) (st : statsId)
  : M (trieStorageManager DB Holder) unit :=
  match kind with
  | SnapshotRequest => TakeSnapshot EmptyTrieHash pick root ch st
  | CheckpointRequest => SetCheckpoint EmptyTrieHash pick root ch st
  end.

(** The queue a request of the kind goes to, and the other one. *)
Definition queueOf (kind : requestKind) (t : trieStorageManager DB Holder) : reqChan :=
  match kind with
  | SnapshotRequest => snapshotReq t
  | CheckpointRequest => checkpointReq t
  end.


(** The calls to the hashes holder a request makes once past the guards:
    only a snapshot drops the pending entry of its root. *)
Definition holderCalls (kind : requestKind) (root : bytes) : list event :=
  match kind with
  | SnapshotRequest => [EvHolderRemoveCommitted root]
  | CheckpointRequest => []
  end.

Definition holderAfter (kind : requestKind) (root : bytes)
    (t : trieStorageManager DB Holder) : Holder :=
  match kind with
  | SnapshotRequest => hhRemoveCommitted (checkpointHashesHolder t) root
  | CheckpointRequest => checkpointHashesHolder t
  end.

End Requests.

Definition notLog (e : event) : bool := negb (isLogEvent e).


(** ** What [Close] comes back with *)

Section CloseResult.

Context {DB Holder : Type}.
Context {storerOps : DBWriteCacher DB}.

(** The later error wins. *)
Definition laterError (earlier later : option error) : option error :=
  match later with
  | Some e => Some e
  | None => earlier
  end.

(** The error [Close] is left with: the one of the last [Close] that failed,
    in the order old db, old generations (unless the flag is set), main
    storer, checkpoints storer. *)
Definition closeErrorOf (t : trieStorageManager DB Holder) : option error :=
  laterError
    (laterError
       (if flagDisableOldStorage t then None
        else lastCloseError (snapshots t) (snd (dbClose (db t))))
       (snd (dbClose (mainStorer t))))
    (snd (dbClose (checkpointsStorer t))).

(** The calls to [Close] that [Close] makes on a storer. *)
Definition closesOnClose (t : trieStorageManager DB Holder) (l : layer) : nat :=
  match l with
  | MainStorer | CheckpointsStorer => 1
  | OldDb | OldSnapshot _ =>
      if flagDisableOldStorage t then 0
      else closesOnce (List.length (snapshots t)) l
  end.

(** Every [Close] that [Close] makes succeeds. *)
Definition allClosesSucceed (t : trieStorageManager DB Holder) : Prop :=
  snd (dbClose (mainStorer t)) = None /\
  snd (dbClose (checkpointsStorer t)) = None /\
  (flagDisableOldStorage t = false ->
   snd (dbClose (db t)) = None /\
   Forall (fun sdb => snd (dbClose sdb) = None) (snapshots t)).

End CloseResult.

(** ** Maps read in order *)

(** The pairs of a map by ascending key, as a sort of the pairs gives
    them. *)
Fixpoint insertByKey {V} (p : Z * V) (l : list (Z * V)) : list (Z * V) :=
  match l with
  | [] => [p]
  | q :: rest => if fst p <=? fst q then p :: q :: rest else q :: insertByKey p rest
  end.

Fixpoint sortByKey {V} (l : list (Z * V)) : list (Z * V) :=
  match l with
  | [] => []
  | p :: rest => insertByKey p (sortByKey rest)
  end.

Definition keyLe {V} (a b : Z * V) : Prop := fst a <= fst b.

(** ** The scan of the snapshot directories, entry by entry *)

Section ScanSpec.

Context {DB : Type}.
Variable Atoi : string -> Z + error.
Variable NewDB : DBConfig -> string -> DB + error.






End ScanSpec.

(** A reading of names made of decimal digits, for listings to run the scan
    on. *)
Fixpoint digitsValue (s : string) (acc : Z) : option Z :=
  match s with
  | EmptyString => Some acc
  | String c rest =>
      let d := Z.of_nat (Ascii.nat_of_ascii c) - 48 in
      if (0 <=? d) && (d <=? 9) then digitsValue rest (acc * 10 + d) else None
  end.

Definition decimalAtoi (s : string) : Z + error :=
  match s with
  | EmptyString => inr (ErrStorage 1)
  | _ =>
      match digitsValue s 0 with
      | Some n => if n <? 2 ^ 63 then inl n else inr (ErrStorage 2)
      | None => inr (ErrStorage 1)
      end
  end.

(** Every directory opens as an empty storer, but the one named "9". *)
Definition openInMemory (_ : DBConfig) (name : string) : memDB + error :=
  if String.eqb name "9" then inr (ErrStorage 3) else inl emptyDB.

(** ** Managers, workers and listings to run the properties on *)

(** Modelled from the spec: a throttler is a bound and a count of the
    workers that run ("{maxConcurrent, current}"), with capacity while the
    count is below the bound. *)
Record countingThrottler := {
  maxConcurrent : Z;
  current : Z
}.

#[export] Instance countingThrottler_ops : Throttler countingThrottler := {
  CanProcess := fun thr => current thr <? maxConcurrent thr
}.

Definition requestOf (root : string) (ch : option leavesChanId) (st : statsId)
  : snapshotsQueueEntry :=
  {| rootHash := toBytes root; leavesChan := ch; stats := st |}.

(** A manager whose closer is closed, with two snapshots and a checkpoint
    still queued and the counter at three. *)
Definition drainingManager : trieStorageManager memDB memHolder :=
  set_closerClosed true
    (set_ctxDone true
       (set_pruningBlockingOps 3
          (set_snapshotReq
             {| chanBuf := [requestOf "r1" (Some 1%nat) 1%nat; requestOf "r2" None 2%nat];
                chanCap := 2 |}
             (set_checkpointReq
                {| chanBuf := [requestOf "r3" (Some 3%nat) 3%nat]; chanCap := 2 |}
                freshManager)))).





Definition snapshotsDir : DBConfig :=
  {| FilePath := "snapshots"; BatchDelaySeconds := 1 |}.

(** A listing with three directories, two of them for the id 2, and a
    file. *)
Definition goodListing : list dirEntry :=
  [ {| Name := "2"; IsDir := true |};
    {| Name := "notes"; IsDir := false |};
    {| Name := "10"; IsDir := true |};
    {| Name := "02"; IsDir := true |} ].

(** A map of three snapshots, ranged over out of order. *)
Definition threeSnapshots : goMap string := [(3, "c"); (1, "a"); (2, "b")].

(** ** The constructor *)

Record TrieStorageManagerConfig := {
  SnapshotsBufferLen : Z;
  MaxSnapshots : Z;
  KeepSnapshots : bool;
  SnapshotsGoroutineNum : Z
}.

(** [NewTrieStorageManagerArgs]; a nil interface is [None]. *)
Module Args.

Record t (Storer Holder Notifier Msh Hsh : Type) := {
  EpochNotifier : option Notifier;
  DisableOldTrieStorageEpoch : Z;
  DB : option Storer;
  MainStorer : option Storer;
  CheckpointsStorer : option Storer;
  Marshalizer : option Msh;
  Hasher : option Hsh;
  SnapshotDbConfig : DBConfig;
  GeneralConfig : TrieStorageManagerConfig;
  CheckpointHashesHolder : option Holder
}.

End Args.

(** The conversion [int32(x)] of a uint32. *)
Definition int32Wrap (z : Z) : Z := (z + 2 ^ 31) mod 2 ^ 32 - 2 ^ 31.

Section Constructor.

Context {Storer Holder T Notifier Msh Hsh : Type}.
Context {storerOps : DBWriteCacher Storer}.

(** The errors of the package, the throttler of the core library, what the
    notifier does with a handler it is given, and the two library calls of
    the scan are declared outside the sources at hand. *)
Variable ErrNilDatabase ErrNilStorer ErrNilMarshalizer ErrNilHasher : error.
Variable ErrNilCheckpointHashesHolder ErrNilEpochNotifier : error.
Variable NewNumGoRoutinesThrottler : Z -> T + error.
Variable RegisterNotifyHandler :
  Notifier -> M (trieStorageManager Storer Holder) unit.
Variable Atoi : string -> Z + error.
Variable NewDB : DBConfig -> string -> Storer + error.

Definition set_snapshotId (v : Z) (t : trieStorageManager Storer Holder) :=
  Build_trieStorageManager (mainStorer t) (pruningBlockingOps t) (snapshotReq t)
    (checkpointReq t) (checkpointsStorer t) (checkpointHashesHolder t) (ctxDone t)
    (closerClosed t) (closed t) (db t) (snapshots t) v (snapshotDbCfg t)
    (maxSnapshots t) (keepSnapshots t) (flagDisableOldStorage t)
    (disableOldStorageEpoch t) (oldStorageClosed t).

(** What the constructor hands back: the manager, and the throttler it
    started the goroutine of the dispatcher with. *)
Record constructed := {
  manager : trieStorageManager Storer Holder;
  dispatcherThrottler : T
}.

(** The struct the constructor fills in, before anything is done with it. *)
Definition initialManager (args : Args.t Storer Holder Notifier Msh Hsh)
    (oldDb main checkpoints : Storer) (holder : Holder)
  : trieStorageManager Storer Holder :=
  {| mainStorer := main;
     pruningBlockingOps := 0;
     snapshotReq :=
       {| chanBuf := [];
          chanCap := Z.to_nat (SnapshotsBufferLen (Args.GeneralConfig args)) |};
     checkpointReq :=
       {| chanBuf := [];
          chanCap := Z.to_nat (SnapshotsBufferLen (Args.GeneralConfig args)) |};
     checkpointsStorer := checkpoints;
     checkpointHashesHolder := holder;
     ctxDone := false;
     closerClosed := false;
     closed := false;
     db := oldDb;
     snapshots := [];
     snapshotId := 0;
     snapshotDbCfg := Args.SnapshotDbConfig args;
     maxSnapshots := MaxSnapshots (Args.GeneralConfig args);
     keepSnapshots := KeepSnapshots (Args.GeneralConfig args);
     flagDisableOldStorage := false;
     disableOldStorageEpoch := Args.DisableOldTrieStorageEpoch args;
     oldStorageClosed := false |}.

(** The constructor from the registration on, on the struct filled in; the
    result is the error it returns. *)
Definition registerAndRestore (notifier : Notifier) (snapshotDbConfig : DBConfig)
    (fs : fsView) : M (trieStorageManager Storer Holder) (option error) :=
  logMsg LvlDebug "epoch for disabling old trie storage" ;;
  RegisterNotifyHandler notifier ;;
  disabled <- flagIsSet ;;
  if disabled then
    t <- getState ;;
    emit (EvClose OldDb) ;;
    modify (set_db (fst (dbClose (db t)))) ;;
    match snd (dbClose (db t)) with
    | Some err => ret (Some err)
    | None =>
        modify (set_oldStorageClosed true) ;;
        ret None
    end
  else
    r <- getSnapshotsAndSnapshotId Atoi NewDB fs snapshotDbConfig ;;
    match snd r with
    | Some _ => logMsg LvlDebug "get snapshot"
    | None => ret tt
    end ;;
    modify (set_snapshots (fst (fst r))) ;;
    modify (set_snapshotId (snd (fst r))) ;;
    ret None.

(** [NewTrieStorageManager]: the result, or the error, with the calls
    made. *)
Definition NewTrieStorageManager (args : Args.t Storer Holder Notifier Msh Hsh)
    (fs : fsView) : status (constructed + error) * list event :=
  match Args.DB args with
  | None => (Returned (inr ErrNilDatabase), [])
  | Some oldDb =>
  match Args.MainStorer args with
  | None => (Returned (inr (ErrWrapped "for main storer" ErrNilStorer)), [])
  | Some main =>
  match Args.CheckpointsStorer args with
  | None => (Returned (inr (ErrWrapped "for checkpoints storer" ErrNilStorer)), [])
  | Some checkpoints =>
  match Args.Marshalizer args with
  | None => (Returned (inr ErrNilMarshalizer), [])
  | Some _ =>
  match Args.Hasher args with
  | None => (Returned (inr ErrNilHasher), [])
  | Some _ =>
  match Args.CheckpointHashesHolder args with
  | None => (Returned (inr ErrNilCheckpointHashesHolder), [])
  | Some holder =>
  match Args.EpochNotifier args with
  | None => (Returned (inr ErrNilEpochNotifier), [])
  | Some notifier =>
      match NewNumGoRoutinesThrottler
              (int32Wrap (SnapshotsGoroutineNum (Args.GeneralConfig args))) with
      | inr err => (Returned (inr err), [])
      | inl goRoutinesThrottler =>
          match registerAndRestore notifier (Args.SnapshotDbConfig args) fs
                  (initialManager args oldDb main checkpoints holder) with
          | (Returned (Some err), _, tr) => (Returned (inr err), tr)
          | (Returned None, tsm, tr) =>
              (Returned (inl {| manager := tsm;
                                dispatcherThrottler := goRoutinesThrottler |}), tr)
          | (Blocked, _, tr) => (Blocked, tr)
          | (Panicked why, _, tr) => (Panicked why, tr)
          end
      end
  end end end end end end end.

(** Every collaborator the constructor asks for is there. *)
Definition allPresent (args : Args.t Storer Holder Notifier Msh Hsh) : bool :=
  match Args.DB args, Args.MainStorer args, Args.CheckpointsStorer args,
        Args.Marshalizer args, Args.Hasher args,
        Args.CheckpointHashesHolder args, Args.EpochNotifier args with
  | Some _, Some _, Some _, Some _, Some _, Some _, Some _ => true
  | _, _, _, _, _, _, _ => false
  end.

End Constructor.

(** A notifier that confirms its current epoch to a handler as it registers
    it, a throttler for a positive bound, and arguments on storers in
    memory with threshold 5. *)
Record epochNotifier := {
  currentEpoch : Z
}.

Definition registerAtCurrentEpoch (n : epochNotifier)
  : M (trieStorageManager memDB memHolder) unit :=
  EpochConfirmed (currentEpoch n).

Definition newCountingThrottler (bound : Z) : countingThrottler + error :=
  if bound <=? 0 then inr (ErrStorage 4)
  else inl {| maxConcurrent := bound; current := 0 |}.

Definition memArgs (oldDb : option memDB) (notifier : option epochNotifier)
  : Args.t memDB memHolder epochNotifier unit unit :=
  {| Args.EpochNotifier := notifier;
     Args.DisableOldTrieStorageEpoch := 5;
     Args.DB := oldDb;
     Args.MainStorer := Some emptyDB;
     Args.CheckpointsStorer := Some emptyDB;
     Args.Marshalizer := Some tt;
     Args.Hasher := Some tt;
     Args.SnapshotDbConfig := snapshotsDir;
     Args.GeneralConfig :=
       {| SnapshotsBufferLen := 2; MaxSnapshots := 2; KeepSnapshots := false;
          SnapshotsGoroutineNum := 1 |};
     Args.CheckpointHashesHolder := Some [] |}.

Definition newMemManager (args : Args.t memDB memHolder epochNotifier unit unit)
    (fs : fsView) : status (@constructed memDB memHolder countingThrottler + error)
                    * list event :=
  NewTrieStorageManager (ErrStorage 11) (ErrStorage 12) (ErrStorage 13)
    (ErrStorage 14) (ErrStorage 15) (ErrStorage 16)
    newCountingThrottler registerAtCurrentEpoch decimalAtoi openInMemory args fs.

(** A path under which the second directory does not open. *)
Definition brokenListing : fsView :=
  {| pathExists := true;
     readDir := inl [{| Name := "4"; IsDir := true |};
                     {| Name := "9"; IsDir := true |};
                     {| Name := "12"; IsDir := true |}] |}.

(** ** The genesis blocks of the staking tests *)

(** [block.Header], the fields [createGenesisBlock] fills in. *)
Record Header := {
  Nonce : Z;
  Round : Z;
  Signature : bytes;
  RandSeed : bytes;
  PrevRandSeed : bytes;
  ShardID : Z;
  PubKeysBitmap : bytes;
  RootHash : bytes;
  PrevHash : bytes;
  AccumulatedFees : Z;
  DeveloperFees : Z
}.

Definition createGenesisBlock (ShardID : Z) : Header :=
  let rootHash := toBytes "roothash" in
  {| Nonce := 0;
     Round := 0;
     Signature := rootHash;
     RandSeed := rootHash;
     PrevRandSeed := rootHash;
     ShardID := ShardID;
     PubKeysBitmap := rootHash;
     RootHash := rootHash;
     PrevHash := rootHash;
     AccumulatedFees := 0;
     DeveloperFees := 0 |}.

(** [sharding.Coordinator], as far as [createBlockTracker] asks it. *)
Class Coordinator (C : Type) := {
  NumberOfShards : C -> Z
}.

Section BlockTracker.

Context {HeaderHandler C Tracker : Type}.
Context {coordinatorOps : Coordinator C}.

(** A [*block.Header] as a [data.HeaderHandler], the id of the metachain
    and the mock of the tracker are declared outside the sources at hand. *)
Variable headerOf : Header -> HeaderHandler.
Variable MetachainShardId : Z.
Variable NewBlockTrackerMock : C -> goMap HeaderHandler -> Tracker.

(** The loop of [createBlockTracker], [ShardID] a uint32; [None] when the
    fuel runs out. *)
Fixpoint genesisBlocksLoop (fuel : nat) (shardCoordinator : C) (ShardID : Z)
    (genesisBlocks : goMap HeaderHandler) : option (goMap HeaderHandler) :=
  match fuel with
  | O => None
  | S fuel' =>
      if ShardID <? NumberOfShards shardCoordinator then
        genesisBlocksLoop fuel' shardCoordinator ((ShardID + 1) mod uint32Mod)
          (mapInsert ShardID (headerOf (createGenesisBlock ShardID)) genesisBlocks)
      else Some genesisBlocks
  end.

Definition createBlockTracker (genesisMetaHeader : HeaderHandler)
    (shardCoordinator : C) : option Tracker :=
  match genesisBlocksLoop (S (Z.to_nat (NumberOfShards shardCoordinator)))
          shardCoordinator 0 [] with
  | Some genesisBlocks =>
      Some (NewBlockTrackerMock shardCoordinator
              (mapInsert MetachainShardId genesisMetaHeader genesisBlocks))
  | None => None
  end.

End BlockTracker.

(** A coordinator that knows its number of shards, headers as themselves or
    a named meta block, and a tracker that is the map it is given. *)
Record fixedCoordinator := {
  shards : Z
}.

#[export] Instance fixedCoordinator_ops : Coordinator fixedCoordinator := {
  NumberOfShards := shards
}.

Inductive testHeader :=
| ShardHeader (h : Header)
| MetaHeader (name : string).

(** * Properties *)

(** ** The monad *)

Lemma bind_Returned {St A B} (m : M St A) (k : A -> M St B) s a s1 tr1 :
  m s = (Returned a, s1, tr1) ->
  bind m k s = (statusOf (k a s1), stateOf (k a s1), tr1 ++ traceOf (k a s1)).
Proof.
  intros E. unfold bind. rewrite E.
  destruct (k a s1) as [[r s2] tr2]. reflexivity.
Qed.

Arguments bind_Returned {St A B} [m] k [s a s1 tr1] _.

Lemma bind_Panicked {St A B} (m : M St A) (k : A -> M St B) s why s1 tr1 :
  m s = (Panicked why, s1, tr1) ->
  bind m k s = (Panicked why, s1, tr1).
Proof. intros E. unfold bind. rewrite E. reflexivity. Qed.

Arguments bind_Panicked {St A B} [m] k [s why s1 tr1] _.

Lemma run_eta {St A} (r : status A * St * list event) :
  r = (statusOf r, stateOf r, traceOf r).
Proof. destruct r as [[x y] z]. reflexivity. Qed.

Lemma bind_ret {St A B} (a : A) (k : A -> M St B) (s : St) :
  bind (ret a) k s = k a s.
Proof. unfold bind, ret. destruct (k a s) as [[r s2] tr2]. reflexivity. Qed.

Lemma bind_getState {St B} (k : St -> M St B) (s : St) :
  bind getState k s = k s s.
Proof. unfold bind, getState. destruct (k s s) as [[r s2] tr2]. reflexivity. Qed.

Lemma bind_modify {St B} (f : St -> St) (k : unit -> M St B) (s : St) :
  bind (modify f) k s = k tt (f s).
Proof. unfold bind, modify. destruct (k tt (f s)) as [[r s2] tr2]. reflexivity. Qed.

Lemma bind_emit {St B} (e : event) (k : unit -> M St B) (s : St) :
  bind (emit e) k s = (statusOf (k tt s), stateOf (k tt s), e :: traceOf (k tt s)).
Proof. unfold bind, emit. destruct (k tt s) as [[r s2] tr2]. reflexivity. Qed.

Lemma bind_assoc {St A B C} (m : M St A) (f : A -> M St B) (g : B -> M St C) (s : St) :
  bind (bind m f) g s = bind m (fun a => bind (f a) g) s.
Proof.
  unfold bind. destruct (m s) as [[[a | | why] s1] tr1]; try reflexivity.
  destruct (f a s1) as [[[b | | why] s2] tr2]; try reflexivity.
  destruct (g b s2) as [[r s3] tr3]. rewrite app_assoc. reflexivity.
Qed.

(** One step of a computation whose head is a primitive of the monad. *)
Ltac mstep :=
  first
    [ rewrite bind_assoc
    | rewrite bind_ret
    | rewrite bind_getState
    | rewrite bind_modify
    | rewrite bind_emit ];
  cbn beta.

Ltac msteps := repeat mstep; cbn [statusOf stateOf traceOf fst snd].

(** ** The pruning-block counter *)

Section PruningCounter.

Context {DB Holder : Type}.
Local Abbreviation tsm := (trieStorageManager DB Holder).

Lemma Enter_run (t : tsm) :
  EnterPruningBufferingMode t =
  (Returned tt,
   set_pruningBlockingOps ((pruningBlockingOps t + 1) mod uint32Mod) t,
   [EvLog LvlTrace "enter pruning buffering state"]).
Proof. reflexivity. Qed.

Lemma Exit_run_zero (t : tsm) :
  pruningBlockingOps t < 1 ->
  ExitPruningBufferingMode t =
  (Returned tt, t, [EvLog LvlError "ExitPruningBufferingMode called too many times"]).
Proof.
  intros Hz. unfold ExitPruningBufferingMode, bind, getState.
  apply Z.ltb_lt in Hz. rewrite Hz. reflexivity.
Qed.

Lemma Exit_run_pos (t : tsm) :
  1 <= pruningBlockingOps t ->
  ExitPruningBufferingMode t =
  (Returned tt,
   set_pruningBlockingOps ((pruningBlockingOps t - 1) mod uint32Mod) t,
   [EvLog LvlTrace "exit pruning buffering state"]).
Proof.
  intros Hp. unfold ExitPruningBufferingMode, bind, getState.
  assert (E : (pruningBlockingOps t <? 1) = false) by (apply Z.ltb_ge; lia).
  rewrite E. reflexivity.
Qed.

Lemma uint32Mod_pos : 0 < uint32Mod.
Proof. reflexivity. Qed.

Lemma pruningCall_valid (c : pruningCall) (t : tsm) :
  validCounter t ->
  statusOf (pruningCallRun c t) = Returned tt /\
  validCounter (stateOf (pruningCallRun c t)).
Proof.
  unfold validCounter. intros Hv. destruct c; cbn [pruningCallRun].
  - rewrite Enter_run. cbn. split; [reflexivity|].
    apply Z.mod_pos_bound, uint32Mod_pos.
  - destruct (Z_lt_ge_dec (pruningBlockingOps t) 1) as [Hz | Hp].
    + rewrite Exit_run_zero by assumption. cbn. split; [reflexivity | assumption].
    + rewrite Exit_run_pos by lia. cbn. split; [reflexivity|].
      apply Z.mod_pos_bound, uint32Mod_pos.
Qed.

Lemma pruningCalls_valid (cs : list pruningCall) :
  forall t : tsm,
    validCounter t ->
    statusOf (pruningCallsRun cs t) = Returned tt /\
    validCounter (stateOf (pruningCallsRun cs t)).
Proof.
  induction cs as [| c rest IH]; intros t Hv.
  - cbn. split; [reflexivity | assumption].
  - cbn [pruningCallsRun].
    destruct (pruningCall_valid c Hv) as [Hs Hv1].
    assert (E : pruningCallRun c t =
                (Returned tt, stateOf (pruningCallRun c t), traceOf (pruningCallRun c t))).
    { rewrite (run_eta (pruningCallRun c t)) at 1. rewrite Hs. reflexivity. }
    rewrite (bind_Returned _ E). cbn. apply IH, Hv1.
Qed.

Lemma pruningCalls_app (cs1 cs2 : list pruningCall) :
  forall t : tsm,
    validCounter t ->
    stateOf (pruningCallsRun (cs1 ++ cs2) t) =
    stateOf (pruningCallsRun cs2 (stateOf (pruningCallsRun cs1 t))).
Proof.
  induction cs1 as [| c rest IH]; intros t Hv.
  - reflexivity.
  - cbn [app pruningCallsRun].
    destruct (pruningCall_valid c Hv) as [Hs Hv1].
    assert (E : pruningCallRun c t =
                (Returned tt, stateOf (pruningCallRun c t), traceOf (pruningCallRun c t))).
    { rewrite (run_eta (pruningCallRun c t)) at 1. rewrite Hs. reflexivity. }
    rewrite !(bind_Returned _ E). cbn. apply IH, Hv1.
Qed.

(** [n] calls of Enter from a valid counter [c] leave [(c + n) mod 2^32]. *)
Lemma enters_counter (n : nat) :
  forall t : tsm,
    validCounter t ->
    pruningBlockingOps (stateOf (pruningCallsRun (repeat CallEnter n) t)) =
    (pruningBlockingOps t + Z.of_nat n) mod uint32Mod.
Proof.
  induction n as [| n IH]; intros t Hv.
  - cbn. rewrite Z.add_0_r. symmetry. apply Z.mod_small, Hv.
  - cbn [repeat pruningCallsRun pruningCallRun].
    rewrite (bind_Returned _ (Enter_run t)). cbn [stateOf fst snd].
    rewrite IH.
    + cbn [pruningBlockingOps set_pruningBlockingOps].
      rewrite Zplus_mod_idemp_l. f_equal. lia.
    + unfold validCounter. cbn. apply Z.mod_pos_bound, uint32Mod_pos.
Qed.

(** [n] calls of Exit from a valid counter [c] leave [max 0 (c - n)]. *)
Lemma exits_counter (n : nat) :
  forall t : tsm,
    validCounter t ->
    pruningBlockingOps (stateOf (pruningCallsRun (repeat CallExit n) t)) =
    Z.max 0 (pruningBlockingOps t - Z.of_nat n).
Proof.
  induction n as [| n IH]; intros t Hv.
  - cbn. unfold validCounter in Hv. lia.
  - cbn [repeat pruningCallsRun pruningCallRun].
    destruct (Z_lt_ge_dec (pruningBlockingOps t) 1) as [Hz | Hp].
    + rewrite (bind_Returned _ (Exit_run_zero t Hz)). cbn [stateOf fst snd].
      rewrite IH by assumption. unfold validCounter in Hv. lia.
    + assert (Hp' : 1 <= pruningBlockingOps t) by lia.
      rewrite (bind_Returned _ (Exit_run_pos t Hp')). cbn [stateOf fst snd].
      unfold validCounter in Hv.
      assert (Hm : (pruningBlockingOps t - 1) mod uint32Mod = pruningBlockingOps t - 1)
        by (apply Z.mod_small; lia).
      rewrite IH.
      * cbn [pruningBlockingOps set_pruningBlockingOps]. lia.
      * unfold validCounter. cbn [pruningBlockingOps set_pruningBlockingOps]. lia.
Qed.

(** C4.  Over every finite sequence of EnterPruningBufferingMode and
    ExitPruningBufferingMode calls, started with the counter a uint32, every
    call returns and the counter stays a uint32, hence never negative; from a
    counter at zero, N Enters followed by N Exits leave IsPruningBlocked
    false, for every N; and an Exit on a counter at zero returns normally
    with the whole manager unchanged, having logged one error. *)
Theorem pruning_counter_never_negative (t : tsm) (Hvalid : validCounter t) :
  (forall cs : list pruningCall,
      statusOf (pruningCallsRun cs t) = Returned tt /\
      0 <= pruningBlockingOps (stateOf (pruningCallsRun cs t)) < uint32Mod) /\
  (forall n : nat,
      pruningBlockingOps t = 0 ->
      statusOf (IsPruningBlocked
                  (stateOf (pruningCallsRun (repeat CallEnter n ++ repeat CallExit n) t)))
      = Returned false) /\
  (pruningBlockingOps t = 0 ->
   ExitPruningBufferingMode t =
   (Returned tt, t, [EvLog LvlError "ExitPruningBufferingMode called too many times"])).
Proof.
  split; [| split].
  - intros cs. apply pruningCalls_valid, Hvalid.
  - intros n H0.
    rewrite pruningCalls_app by assumption.
    assert (Hv1 : validCounter (stateOf (pruningCallsRun (repeat CallEnter n) t)))
      by (apply pruningCalls_valid, Hvalid).
    unfold IsPruningBlocked, bind, getState, ret, statusOf. cbn [fst].
    rewrite exits_counter by assumption.
    rewrite enters_counter by assumption. rewrite H0, Z.add_0_l.
    assert (Hle : Z.of_nat n mod uint32Mod <= Z.of_nat n).
    { apply Z.mod_le; [lia | apply uint32Mod_pos]. }
    replace (Z.max 0 (Z.of_nat n mod uint32Mod - Z.of_nat n)) with 0 by lia.
    reflexivity.
  - intros H0. apply Exit_run_zero. lia.
Qed.

End PruningCounter.

(** ** The read path *)

Section ReadPath.

Context {DB Holder : Type}.
Context {storerOps : DBWriteCacher DB}.
Local Abbreviation tsm := (trieStorageManager DB Holder).

Lemma storerGet_run (l : layer) (s : DB) (key : bytes) (t : tsm) :
  storerGet l s key t = (Returned (dbGet s key), t, [EvGet l key]).
Proof. reflexivity. Qed.

(** The loop reads only the first [n] generations. *)
Lemma getFromSnapshots_app (key : bytes) (snaps more : list DB) (t : tsm) :
  forall n : nat,
    (n <= List.length snaps)%nat ->
    getFromSnapshots (snaps ++ more) n key t = getFromSnapshots snaps n key t.
Proof.
  induction n as [| i IH]; intros Hn.
  - reflexivity.
  - cbn [getFromSnapshots].
    rewrite nth_error_app1 by lia.
    destruct (nth_error snaps i) as [sdb |] eqn:E.
    + unfold bind. rewrite !storerGet_run.
      destruct (nonEmpty (fst (dbGet sdb key))).
      * reflexivity.
      * rewrite IH by lia. reflexivity.
    + reflexivity.
Qed.

Lemma indexedFrom_app (snaps more : list DB) :
  forall i : nat,
    indexedFrom i (snaps ++ more) =
    indexedFrom i snaps ++ indexedFrom (i + List.length snaps) more.
Proof.
  induction snaps as [| sdb rest IH]; intros i.
  - cbn. rewrite Nat.add_0_r. reflexivity.
  - cbn [app indexedFrom List.length]. rewrite IH.
    rewrite Nat.add_succ_r. reflexivity.
Qed.

Lemma indexedSnapshots_snoc (snaps : list DB) (last : DB) :
  indexedSnapshots (snaps ++ [last]) =
  indexedSnapshots snaps ++ [(OldSnapshot (List.length snaps), last)].
Proof. unfold indexedSnapshots. rewrite indexedFrom_app. reflexivity. Qed.

Lemma snapshotLayers_snoc (snaps : list DB) (last : DB) :
  snapshotLayers (snaps ++ [last]) =
  (OldSnapshot (List.length snaps), last) :: snapshotLayers snaps.
Proof.
  unfold snapshotLayers. rewrite indexedSnapshots_snoc, rev_app_distr. reflexivity.
Qed.

(** The loop over the generations is the layered lookup over them, the most
    recent first. *)
Lemma getFromSnapshots_firstHit (key : bytes) (t : tsm) :
  forall snaps : list DB,
    getFromSnapshots snaps (List.length snaps) key t =
    (Returned (fst (firstHit key (snapshotLayers snaps))), t,
     snd (firstHit key (snapshotLayers snaps))).
Proof.
  induction snaps as [| last snaps IH] using rev_ind.
  - reflexivity.
  - rewrite snapshotLayers_snoc, length_app. cbn [List.length].
    rewrite Nat.add_1_r. cbn [getFromSnapshots firstHit].
    rewrite nth_error_app2 by lia. rewrite Nat.sub_diag. cbn [nth_error].
    unfold bind. rewrite storerGet_run.
    unfold layerValue, consulted. cbn [fst snd].
    destruct (nonEmpty (fst (dbGet last key))).
    + reflexivity.
    + rewrite getFromSnapshots_app by lia. rewrite IH. reflexivity.
Qed.

Lemma getFromOtherStorers_firstHit (key : bytes) (t : tsm) :
  getFromOtherStorers key t =
  (Returned (fst (firstHit key (fallbackLayers t))), t,
   snd (firstHit key (fallbackLayers t))).
Proof.
  unfold getFromOtherStorers, fallbackLayers, bind, getState, flagIsSet, ret.
  rewrite storerGet_run. cbn [firstHit].
  unfold layerValue, consulted. cbn [fst snd].
  destruct (nonEmpty (fst (dbGet (checkpointsStorer t) key))); [reflexivity|].
  unfold bind, getState.
  destruct (flagDisableOldStorage t); [reflexivity|].
  rewrite storerGet_run. cbn [firstHit].
  unfold layerValue, consulted. cbn [fst snd].
  destruct (nonEmpty (fst (dbGet (db t) key))); [reflexivity|].
  rewrite getFromSnapshots_firstHit. reflexivity.
Qed.

(** [Get] refines the layered lookup of the specification, and leaves the
    manager as it was. *)
Lemma Get_firstHit (key : bytes) (t : tsm) :
  Get key t =
  (Returned (fst (firstHit key (activeLayers t))), t,
   snd (firstHit key (activeLayers t))).
Proof.
  unfold Get, activeLayers, bind, getState.
  rewrite storerGet_run. cbn [firstHit].
  unfold layerValue, consulted. cbn [fst snd].
  destruct (nonEmpty (fst (dbGet (mainStorer t) key))); [reflexivity|].
  rewrite getFromOtherStorers_firstHit. reflexivity.
Qed.

(** The lookup either stops at the first layer that holds a value, having
    read the layers before it and found them empty, or reads every layer and
    finds nothing. *)
Lemma firstHit_cases (key : bytes) (layers : list (layer * DB)) :
  (exists before ls after,
      layers = before ++ ls :: after /\
      Forall (misses key) before /\
      hits key ls /\
      firstHit key layers =
      ((layerValue key ls, None), map (consulted key) (before ++ [ls]))) \/
  (Forall (misses key) layers /\
   firstHit key layers = (([], Some ErrKeyNotFound), map (consulted key) layers)).
Proof.
  induction layers as [| ls rest IH].
  - right. split; [constructor | reflexivity].
  - cbn [firstHit]. destruct (nonEmpty (layerValue key ls)) eqn:E.
    + left. exists [], ls, rest. repeat split; [constructor | exact E].
    + destruct IH as [(before & hit & after & Hl & Hm & Hh & Hf) | [Hm Hf]].
      * left. exists (ls :: before), hit, after. rewrite Hf, Hl.
        repeat split; [constructor; assumption | exact Hh].
      * right. rewrite Hf. split; [constructor; assumption | reflexivity].
Qed.

(** C5.  For every key, [Get] reads the layers in the fixed order main
    storer, checkpoints storer, then (only while the old storage is not
    disabled) the old db and the old snapshot generations from the most
    recent to the oldest.  Either it stops at the first layer that holds a
    value, having read exactly the layers before it and that one, and returns
    that value with a nil error; or it has read every active layer and
    returns not-found.  The trace holds reads only and the manager, with all
    its storers, is the same afterwards. *)
Theorem Get_consults_layers_in_order (key : bytes) (t : tsm) :
  (exists before ls after,
      activeLayers t = before ++ ls :: after /\
      Forall (misses key) before /\
      hits key ls /\
      Get key t =
      (Returned (layerValue key ls, None), t, map (consulted key) (before ++ [ls]))) \/
  (Forall (misses key) (activeLayers t) /\
   Get key t =
   (Returned ([], Some ErrKeyNotFound), t, map (consulted key) (activeLayers t))).
Proof.
  rewrite Get_firstHit.
  destruct (firstHit_cases key (activeLayers t))
    as [(before & ls & after & Hl & Hm & Hh & Hf) | [Hm Hf]].
  - left. exists before, ls, after. rewrite Hf. cbn [fst snd]. auto.
  - right. rewrite Hf. cbn [fst snd]. auto.
Qed.

Lemma firstHit_result (key : bytes) (layers : list (layer * DB)) :
  (exists v, nonEmpty v = true /\ fst (firstHit key layers) = (v, None)) \/
  fst (firstHit key layers) = ([], Some ErrKeyNotFound).
Proof.
  destruct (firstHit_cases key layers)
    as [(before & ls & after & Hl & Hm & Hh & Hf) | [Hm Hf]]; rewrite Hf.
  - left. exists (layerValue key ls). split; [exact Hh | reflexivity].
  - right. reflexivity.
Qed.

(** The lookup looks at the names of the layers and at the values they hold,
    never at the errors. *)
Lemma firstHit_values_only (key : bytes) (l1 l2 : list (layer * DB)) :
  Forall2 (fun a b => fst a = fst b /\ layerValue key a = layerValue key b) l1 l2 ->
  firstHit key l1 = firstHit key l2.
Proof.
  induction 1 as [| a b l1 l2 [Hn Hv] _ IH].
  - reflexivity.
  - cbn [firstHit]. unfold consulted. rewrite Hn, Hv, IH. reflexivity.
Qed.

Lemma indexedFrom_values (key : bytes) (s1 s2 : list DB) :
  Forall2 (fun a b => fst (dbGet a key) = fst (dbGet b key)) s1 s2 ->
  forall i : nat,
    Forall2 (fun a b => fst a = fst b /\ layerValue key a = layerValue key b)
      (indexedFrom i s1) (indexedFrom i s2).
Proof.
  induction 1 as [| a b s1 s2 Hab _ IH]; intros i; cbn [indexedFrom].
  - constructor.
  - constructor; [split; [reflexivity | exact Hab] | apply IH].
Qed.

Lemma Forall2_rev {A B} (R : A -> B -> Prop) (l1 : list A) (l2 : list B) :
  Forall2 R l1 l2 -> Forall2 R (rev l1) (rev l2).
Proof.
  induction 1 as [| a b l1 l2 Hab _ IH]; cbn [rev].
  - constructor.
  - apply Forall2_app; [exact IH | constructor; [exact Hab | constructor]].
Qed.

Lemma activeLayers_values (key : bytes) (t1 t2 : tsm) :
  sameValues key t1 t2 ->
  Forall2 (fun a b => fst a = fst b /\ layerValue key a = layerValue key b)
    (activeLayers t1) (activeLayers t2).
Proof.
  intros (Hf & Hm & Hc & Hd & Hs).
  unfold activeLayers, fallbackLayers. rewrite <- Hf.
  constructor; [split; [reflexivity | exact Hm] |].
  constructor; [split; [reflexivity | exact Hc] |].
  destruct (flagDisableOldStorage t1); [constructor |].
  constructor; [split; [reflexivity | exact Hd] |].
  apply Forall2_rev, indexedFrom_values, Hs.
Qed.

(** C10.  [Get] never hands on an error of a storer: for every key it
    returns either a value that is not empty with a nil error, or the
    not-found error; and what it returns, like the reads it makes, depends on
    the values the layers hold alone, so a layer that fails reads as a layer
    where the key is absent.  Here [t'] is any manager whose layers hold the
    same values for the key as those of [t], with any errors. *)
Theorem Get_never_propagates_storer_error (key : bytes) (t t' : tsm)
    (Hsame : sameValues key t t') :
  ((exists v, nonEmpty v = true /\ statusOf (Get key t) = Returned (v, None)) \/
   statusOf (Get key t) = Returned ([], Some ErrKeyNotFound)) /\
  statusOf (Get key t) = statusOf (Get key t') /\
  traceOf (Get key t) = traceOf (Get key t').
Proof.
  rewrite !Get_firstHit. unfold statusOf, traceOf. cbn [fst snd].
  assert (E := activeLayers_values Hsame).
  apply firstHit_values_only in E. rewrite <- E. clear E.
  split; [| split; reflexivity].
  destruct (firstHit_result key (activeLayers t)) as [(v & Hv & E) | E]; rewrite E.
  - left. exists v. split; [exact Hv | reflexivity].
  - right. reflexivity.
Qed.

End ReadPath.

(** The old generations are read from the last of [tsm.snapshots] down. *)
Example activeLayers_order :
  map fst (activeLayers
             (newManager emptyDB emptyDB emptyDB [emptyDB; emptyDB; emptyDB] 5)) =
  [MainStorer; CheckpointsStorer; OldDb; OldSnapshot 2; OldSnapshot 1; OldSnapshot 0].
Proof. reflexivity. Qed.

(** C10 on a main storer and an old db that fail on every call, against
    storers where the key is only absent: the same answer, found in the
    generation of the middle. *)
Lemma Get_never_propagates_storer_error_witness :
  let key := toBytes "k" in
  let t := newManager (brokenDB 7) emptyDB (brokenDB 9)
             [emptyDB; dbOf [("k", "v")]; brokenDB 3] 5 in
  let t' := newManager emptyDB emptyDB emptyDB
              [emptyDB; dbOf [("k", "v")]; emptyDB] 5 in
  sameValues key t t' /\
  (((exists v, nonEmpty v = true /\ statusOf (Get key t) = Returned (v, None)) \/
    statusOf (Get key t) = Returned ([], Some ErrKeyNotFound)) /\
   statusOf (Get key t) = statusOf (Get key t') /\
   traceOf (Get key t) = traceOf (Get key t')).
Proof.
  assert (Hsame : sameValues (toBytes "k")
            (newManager (brokenDB 7) emptyDB (brokenDB 9)
               [emptyDB; dbOf [("k", "v")]; brokenDB 3] 5)
            (newManager emptyDB emptyDB emptyDB
               [emptyDB; dbOf [("k", "v")]; emptyDB] 5)).
  { repeat split; repeat constructor. }
  split; [exact Hsame | exact (Get_never_propagates_storer_error Hsame)].
Defined.

(** ** The write path *)

Section WritePath.

Context {DB Holder : Type}.
Context {storerOps : DBWriteCacher DB}.
Context {holderOps : CheckpointHashesHolder Holder}.
Local Abbreviation tsm := (trieStorageManager DB Holder).

Lemma Put_run (key val : bytes) (t : tsm) :
  Put key val t =
  (Returned (snd (dbPut (mainStorer t) key val)),
   set_mainStorer (fst (dbPut (mainStorer t) key val)) t,
   [EvLog LvlTrace "put hash in tsm"; EvPut MainStorer key val]).
Proof. reflexivity. Qed.

Lemma Remove_run (hash : bytes) (t : tsm) :
  Remove hash t =
  (Returned (snd (dbRemove (mainStorer t) hash)),
   set_mainStorer (fst (dbRemove (mainStorer t) hash))
     (set_checkpointHashesHolder (hhRemove (checkpointHashesHolder t) hash) t),
   [EvHolderRemove hash; EvRemove MainStorer hash]).
Proof. reflexivity. Qed.

Lemma misses_not_hits (key : bytes) (ls : layer * DB) :
  misses key ls -> ~ hits key ls.
Proof. unfold misses, hits. intros Hm Hh. rewrite Hm in Hh. discriminate. Qed.

(** The lookup finds a value exactly when some layer holds one. *)
Lemma firstHit_found_iff (key : bytes) (layers : list (layer * DB)) :
  (exists v, nonEmpty v = true /\ fst (firstHit key layers) = (v, None)) <->
  Exists (hits key) layers.
Proof.
  destruct (firstHit_cases key layers)
    as [(before & ls & after & Hl & Hm & Hh & Hf) | [Hm Hf]]; rewrite Hf; cbn [fst].
  - split.
    + intros _. rewrite Hl. apply Exists_app. right. constructor. exact Hh.
    + intros _. exists (layerValue key ls). split; [exact Hh | reflexivity].
  - split.
    + intros (v & _ & E). discriminate E.
    + intros Hex. exfalso. apply Exists_exists in Hex. destruct Hex as (ls & Hin & Hh).
      rewrite Forall_forall in Hm. exact (misses_not_hits (Hm ls Hin) Hh).
Qed.

Lemma firstHit_not_found (key : bytes) (layers : list (layer * DB)) :
  Forall (misses key) layers ->
  firstHit key layers = (([], Some ErrKeyNotFound), map (consulted key) layers).
Proof.
  induction 1 as [| ls rest Hm _ IH].
  - reflexivity.
  - cbn [firstHit map]. unfold misses in Hm. rewrite Hm, IH. reflexivity.
Qed.

(** C6, as the code has it.  For every key and every value that is not
    empty, [Put] calls the main storer only, and the checkpoints storer, the
    old db and the old generations are the same afterwards; when the main
    storer then holds the value under the key, the next [Get] of the key
    returns it, from the main storer. *)
Theorem Put_then_Get_nonempty (key val : bytes) (t : tsm)
    (Hval : nonEmpty val = true)
    (Hstored : fst (dbGet (fst (dbPut (mainStorer t) key val)) key) = val) :
  filter isStorerEvent (traceOf (Put key val t)) = [EvPut MainStorer key val] /\
  mainStorer (stateOf (Put key val t)) = fst (dbPut (mainStorer t) key val) /\
  checkpointsStorer (stateOf (Put key val t)) = checkpointsStorer t /\
  db (stateOf (Put key val t)) = db t /\
  snapshots (stateOf (Put key val t)) = snapshots t /\
  Get key (stateOf (Put key val t)) =
  (Returned (val, None), stateOf (Put key val t), [EvGet MainStorer key]).
Proof.
  rewrite Put_run. cbn [stateOf traceOf fst snd].
  repeat (split; [reflexivity |]).
  unfold Get, bind, getState. rewrite storerGet_run.
  cbn [mainStorer set_mainStorer fst snd].
  rewrite Hstored, Hval. reflexivity.
Qed.

(** C8.  [Remove] calls [Remove] of the hashes holder and [Remove] of the
    main storer, in this order, and nothing else: the checkpoints storer, the
    old db, the old generations and the flag are the same afterwards.  With
    the hash gone from the main storer, the next [Get] of the hash finds a
    value exactly when the checkpoints storer or an active old layer holds
    one, and returns not-found when none does. *)
Theorem Remove_then_Get (hash : bytes) (t : tsm)
    (Hremoved : misses hash (MainStorer, fst (dbRemove (mainStorer t) hash))) :
  traceOf (Remove hash t) = [EvHolderRemove hash; EvRemove MainStorer hash] /\
  mainStorer (stateOf (Remove hash t)) = fst (dbRemove (mainStorer t) hash) /\
  checkpointHashesHolder (stateOf (Remove hash t)) =
    hhRemove (checkpointHashesHolder t) hash /\
  checkpointsStorer (stateOf (Remove hash t)) = checkpointsStorer t /\
  db (stateOf (Remove hash t)) = db t /\
  snapshots (stateOf (Remove hash t)) = snapshots t /\
  flagDisableOldStorage (stateOf (Remove hash t)) = flagDisableOldStorage t /\
  ((exists v, nonEmpty v = true /\
              statusOf (Get hash (stateOf (Remove hash t))) = Returned (v, None)) <->
   Exists (hits hash) (fallbackLayers t)) /\
  (Forall (misses hash) (fallbackLayers t) ->
   statusOf (Get hash (stateOf (Remove hash t))) = Returned ([], Some ErrKeyNotFound)).
Proof.
  rewrite Remove_run. cbn [stateOf traceOf fst snd].
  repeat (split; [reflexivity |]).
  rewrite Get_firstHit. unfold statusOf. cbn [fst].
  unfold activeLayers. cbn [firstHit mainStorer set_mainStorer].
  unfold misses in Hremoved. rewrite Hremoved. cbn [fst].
  change (fallbackLayers _) with (fallbackLayers t).
  split.
  - rewrite <- firstHit_found_iff. split.
    + intros (v & Hv & E). exists v. split; [exact Hv |]. congruence.
    + intros (v & Hv & E). exists v. split; [exact Hv |]. rewrite E. reflexivity.
  - intros Hm. rewrite (firstHit_not_found Hm). reflexivity.
Qed.

End WritePath.

(** ** Requests that are finished at once *)

Lemma bytesEqual_refl (a : bytes) : bytesEqual a a = true.
Proof.
  induction a as [| x a IH]; cbn [bytesEqual].
  - reflexivity.
  - rewrite IH, (Byte.byte_dec_lb (eq_refl x)). reflexivity.
Qed.


Section Admission.

Context {DB Holder : Type}.
Context {holderOps : CheckpointHashesHolder Holder}.
Variable EmptyTrieHash : bytes.
Local Abbreviation tsm := (trieStorageManager DB Holder).

Lemma finish_run (ch : option leavesChanId) (st : statsId) (t : tsm) :
  (safelyCloseChan ch ;; SnapshotFinished st) t = (Returned tt, t, finishEvents ch st).
Proof. destruct ch; reflexivity. Qed.

Lemma TakeSnapshot_closed (pick : selectCase) (root : bytes)
    (ch : option leavesChanId) (st : statsId) (t : tsm) :
  closed t = true ->
  TakeSnapshot EmptyTrieHash pick root ch st t = (Returned tt, t, finishEvents ch st).
Proof.
  intros Hc. unfold TakeSnapshot, isClosed.
  unfold bind at 1. unfold bind at 1. unfold getState at 1, ret at 1.
  rewrite Hc, finish_run. reflexivity.
Qed.

Lemma SetCheckpoint_closed (pick : selectCase) (root : bytes)
    (ch : option leavesChanId) (st : statsId) (t : tsm) :
  closed t = true ->
  SetCheckpoint EmptyTrieHash pick root ch st t = (Returned tt, t, finishEvents ch st).
Proof.
  intros Hc. unfold SetCheckpoint, isClosed.
  unfold bind at 1. unfold bind at 1. unfold getState at 1, ret at 1.
  rewrite Hc, finish_run. reflexivity.
Qed.

Lemma TakeSnapshot_empty_open (pick : selectCase)
    (ch : option leavesChanId) (st : statsId) (t : tsm) :
  closed t = false ->
  TakeSnapshot EmptyTrieHash pick EmptyTrieHash ch st t =
  (Returned tt, t,
   EvLog LvlTrace "should not snapshot an empty trie" :: finishEvents ch st).
Proof.
  intros Hc. unfold TakeSnapshot, isClosed.
  unfold bind at 1. unfold bind at 1. unfold getState at 1, ret at 1.
  rewrite Hc, bytesEqual_refl.
  unfold bind at 1. unfold logMsg, emit at 1. rewrite finish_run. reflexivity.
Qed.

Lemma SetCheckpoint_empty_open (pick : selectCase)
    (ch : option leavesChanId) (st : statsId) (t : tsm) :
  closed t = false ->
  SetCheckpoint EmptyTrieHash pick EmptyTrieHash ch st t =
  (Returned tt, t,
   EvLog LvlTrace "should not set checkpoint for empty trie" :: finishEvents ch st).
Proof.
  intros Hc. unfold SetCheckpoint, isClosed.
  unfold bind at 1. unfold bind at 1. unfold getState at 1, ret at 1.
  rewrite Hc, bytesEqual_refl.
  unfold bind at 1. unfold logMsg, emit at 1. rewrite finish_run. reflexivity.
Qed.

Lemma finishEvents_not_log (ch : option leavesChanId) (st : statsId) :
  filter (fun e => negb (isLogEvent e)) (finishEvents ch st) = finishEvents ch st.
Proof. destruct ch; reflexivity. Qed.

(** C2.  For the root hash of the empty trie, with any leaves channel and any
    statistics handler, [TakeSnapshot] and [SetCheckpoint] return having
    closed the channel, if there is one, and told the handler, and apart from
    one line of log nothing else: the manager is the same afterwards, so no
    request was put in a queue and the pruning-block counter did not move. *)
Theorem empty_root_finished_at_once (pick : selectCase)
    (ch : option leavesChanId) (st : statsId) (t : tsm) :
  (statusOf (TakeSnapshot EmptyTrieHash pick EmptyTrieHash ch st t) = Returned tt /\
   filter (fun e => negb (isLogEvent e))
     (traceOf (TakeSnapshot EmptyTrieHash pick EmptyTrieHash ch st t))
   = finishEvents ch st /\
   stateOf (TakeSnapshot EmptyTrieHash pick EmptyTrieHash ch st t) = t /\
   snapshotReq (stateOf (TakeSnapshot EmptyTrieHash pick EmptyTrieHash ch st t))
   = snapshotReq t /\
   pruningBlockingOps (stateOf (TakeSnapshot EmptyTrieHash pick EmptyTrieHash ch st t))
   = pruningBlockingOps t) /\
  (statusOf (SetCheckpoint EmptyTrieHash pick EmptyTrieHash ch st t) = Returned tt /\
   filter (fun e => negb (isLogEvent e))
     (traceOf (SetCheckpoint EmptyTrieHash pick EmptyTrieHash ch st t))
   = finishEvents ch st /\
   stateOf (SetCheckpoint EmptyTrieHash pick EmptyTrieHash ch st t) = t /\
   checkpointReq (stateOf (SetCheckpoint EmptyTrieHash pick EmptyTrieHash ch st t))
   = checkpointReq t /\
   pruningBlockingOps (stateOf (SetCheckpoint EmptyTrieHash pick EmptyTrieHash ch st t))
   = pruningBlockingOps t).
Proof.
  destruct (closed t) eqn:Hc.
  - rewrite TakeSnapshot_closed, SetCheckpoint_closed by exact Hc.
    cbn [statusOf stateOf traceOf fst snd]. rewrite finishEvents_not_log.
    repeat split.
  - rewrite TakeSnapshot_empty_open, SetCheckpoint_empty_open by exact Hc.
    cbn [statusOf stateOf traceOf fst snd filter isLogEvent negb].
    rewrite finishEvents_not_log. repeat split.
Qed.

(** C3.  On a closed manager, whatever the root hash, [TakeSnapshot] and
    [SetCheckpoint] return having closed the leaves channel, if there is one,
    and told the statistics handler, and nothing else: no storer is called,
    and the manager is the same afterwards, queues and pruning-block counter
    included. *)
Theorem closed_manager_finishes_at_once (pick : selectCase) (root : bytes)
    (ch : option leavesChanId) (st : statsId) (t : tsm)
    (Hclosed : closed t = true) :
  TakeSnapshot EmptyTrieHash pick root ch st t = (Returned tt, t, finishEvents ch st) /\
  SetCheckpoint EmptyTrieHash pick root ch st t = (Returned tt, t, finishEvents ch st) /\
  filter isStorerEvent (finishEvents ch st) = [].
Proof.
  split; [| split].
  - apply TakeSnapshot_closed, Hclosed.
  - apply SetCheckpoint_closed, Hclosed.
  - destruct ch; reflexivity.
Qed.

End Admission.

(** ** Closing the old storage *)

Section Migration.

Context {DB Holder : Type}.
Context {storerOps : DBWriteCacher DB}.
Local Abbreviation tsm := (trieStorageManager DB Holder).

Lemma closeSnapshots_run (snaps : list DB) :
  forall (i : nat) (err : option error) (t : tsm),
    closeSnapshots i snaps err t =
    (Returned (map closedStorer snaps, lastCloseError snaps err), t,
     closeSnapshotsTrace i snaps).
Proof.
  induction snaps as [| sdb rest IH]; intros i err t.
  - reflexivity.
  - cbn [closeSnapshots map lastCloseError closeSnapshotsTrace].
    unfold bind at 1. unfold emit at 1.
    destruct (snd (dbClose sdb)) as [e |].
    + unfold bind at 1. unfold bind at 1. unfold logMsg, emit at 1, ret at 1.
      unfold bind. rewrite IH. unfold ret, closedStorer. cbn [fst snd app].
      rewrite app_nil_r. reflexivity.
    + unfold bind at 1. unfold ret at 1.
      unfold bind. rewrite IH. unfold ret, closedStorer. cbn [fst snd app].
      rewrite app_nil_r. reflexivity.
Qed.

Lemma closeOldTrieStorage_run (t : tsm) :
  closeOldTrieStorage t =
  (Returned (lastCloseError (snapshots t) (snd (dbClose (db t)))),
   oldStorageClosedState t, closeOldTrieStorageTrace t).
Proof.
  unfold closeOldTrieStorage.
  unfold bind at 1. unfold getState at 1.
  unfold bind at 1. unfold emit at 1.
  unfold bind at 1. unfold modify at 1.
  unfold bind at 1. rewrite closeSnapshots_run.
  unfold bind, modify, ret. cbn [fst snd app].
  rewrite app_nil_r. reflexivity.
Qed.

Lemma closeCount_app (l : layer) (tr1 tr2 : list event) :
  closeCount l (tr1 ++ tr2) = (closeCount l tr1 + closeCount l tr2)%nat.
Proof. unfold closeCount. rewrite filter_app, length_app. reflexivity. Qed.

Lemma closeCount_cons (l : layer) (e : event) (tr : list event) :
  closeCount l (e :: tr) =
  ((if isCloseOf l e then 1 else 0) + closeCount l tr)%nat.
Proof. unfold closeCount. cbn [filter]. destruct (isCloseOf l e); reflexivity. Qed.

(** The loop closes each generation it walks over once, and no other
    storer. *)
Lemma closeCount_closeSnapshotsTrace (l : layer) (snaps : list DB) :
  forall i : nat,
    closeCount l (closeSnapshotsTrace i snaps) =
    match l with
    | OldSnapshot j =>
        if (Nat.leb i j && Nat.ltb j (i + List.length snaps))%bool then 1%nat else 0%nat
    | _ => 0%nat
    end.
Proof.
  induction snaps as [| sdb rest IH]; intros i.
  - destruct l as [| | | j]; try reflexivity.
    cbn [closeSnapshotsTrace List.length]. rewrite Nat.add_0_r.
    destruct (Nat.leb_spec i j) as [Hij | Hij], (Nat.ltb_spec j i) as [Hji | Hji];
      try reflexivity; exfalso; lia.
  - cbn [closeSnapshotsTrace List.length].
    rewrite closeCount_cons, closeCount_app, IH.
    assert (Hlog : closeCount l
              (match snd (dbClose sdb) with
               | Some _ => [EvLog LvlError "trieStorageManager.Close snapshotClose"]
               | None => []
               end) = 0%nat) by (destruct (snd (dbClose sdb)); reflexivity).
    rewrite Hlog. destruct l as [| | | j]; try reflexivity.
    cbn [isCloseOf layer_eqb].
    destruct (Nat.eqb_spec j i), (Nat.leb_spec i j), (Nat.leb_spec (S i) j),
      (Nat.ltb_spec j (i + S (List.length rest))),
      (Nat.ltb_spec j (S i + List.length rest));
      cbn [andb Nat.add]; try reflexivity; exfalso; lia.
Qed.

Lemma closeCount_closeOldTrieStorageTrace (l : layer) (t : tsm) :
  closeCount l (closeOldTrieStorageTrace t) = closesOnce (List.length (snapshots t)) l.
Proof.
  unfold closeOldTrieStorageTrace.
  rewrite closeCount_cons, closeCount_closeSnapshotsTrace.
  destruct l as [| | | j]; reflexivity.
Qed.

(** [Close] returns, with the manager closed. *)
Lemma Close_closed (t : tsm) :
  (exists err, statusOf (Close t) = Returned err) /\ closed (stateOf (Close t)) = true.
Proof.
  unfold Close, flagIsSet, logMsg. msteps.
  cbn [flagDisableOldStorage set_closed set_ctxDone].
  destruct (flagDisableOldStorage t) eqn:Hflag; cbn [negb].
  - msteps.
    destruct (snd (dbClose (mainStorer _))) as [e1 |]; msteps;
      destruct (snd (dbClose (checkpointsStorer _))) as [e2 |]; msteps;
      unfold ret; cbn; split; eauto.
  - rewrite (bind_Returned _ (closeOldTrieStorage_run _)).
    cbn [statusOf stateOf traceOf fst snd]. msteps.
    destruct (snd (dbClose (mainStorer _))) as [e1 |]; msteps;
      destruct (snd (dbClose (checkpointsStorer _))) as [e2 |]; msteps;
      try match goal with
          | |- context [lastCloseError ?a ?b] => destruct (lastCloseError a b) as [e3 |]
          end;
      unfold ret; cbn; split; eauto.
Qed.

Lemma EpochConfirmed_run (epoch : Z) (t : tsm) :
  statusOf (EpochConfirmed epoch t) = Returned tt /\
  stateOf (EpochConfirmed epoch t) =
    (if triggersMigration epoch t then oldStorageClosedState (epochMarked epoch t)
     else epochMarked epoch t) /\
  forall l : layer,
    closeCount l (traceOf (EpochConfirmed epoch t)) =
    if triggersMigration epoch t then closesOnce (List.length (snapshots t)) l
    else 0%nat.
Proof.
  unfold EpochConfirmed, flagToggle, flagIsSet, mainStorerPut, logMsg. msteps.
  change (set_mainStorer _ (set_flagDisableOldStorage _ t)) with (epochMarked epoch t).
  destruct (snd (dbPut (mainStorer _) _ _)) as [eput |]; msteps;
    change (flagDisableOldStorage (epochMarked epoch t)
            && negb (oldStorageClosed (epochMarked epoch t)))%bool
      with (triggersMigration epoch t);
    destruct (triggersMigration epoch t) eqn:Htrig; cbv iota.
  - rewrite (bind_Returned _ (closeOldTrieStorage_run _)).
    destruct (lastCloseError _ _) as [ec |]; unfold ret;
      cbn [statusOf stateOf traceOf fst snd]; repeat split; intros l;
      rewrite !closeCount_cons, closeCount_app, closeCount_closeOldTrieStorageTrace;
      change (snapshots (epochMarked epoch t)) with (snapshots t);
      generalize (closesOnce (List.length (snapshots t)) l); intros c;
      cbn; lia.
  - unfold ret. cbn [statusOf stateOf traceOf fst snd]. repeat split.
  - rewrite (bind_Returned _ (closeOldTrieStorage_run _)).
    destruct (lastCloseError _ _) as [ec |]; unfold ret;
      cbn [statusOf stateOf traceOf fst snd]; repeat split; intros l;
      rewrite !closeCount_cons, closeCount_app, closeCount_closeOldTrieStorageTrace;
      change (snapshots (epochMarked epoch t)) with (snapshots t);
      generalize (closesOnce (List.length (snapshots t)) l); intros c;
      cbn; lia.
  - unfold ret. cbn [statusOf stateOf traceOf fst snd]. repeat split.
Qed.

Lemma EpochConfirmed_status (epoch : Z) (t : tsm) :
  statusOf (EpochConfirmed epoch t) = Returned tt.
Proof. apply EpochConfirmed_run. Qed.

Lemma EpochConfirmed_state (epoch : Z) (t : tsm) :
  stateOf (EpochConfirmed epoch t) =
  if triggersMigration epoch t then oldStorageClosedState (epochMarked epoch t)
  else epochMarked epoch t.
Proof. apply EpochConfirmed_run. Qed.

(** The flag after a call is the comparison of that call, whatever it was
    before. *)
Lemma EpochConfirmed_flag (epoch : Z) (t : tsm) :
  flagDisableOldStorage (stateOf (EpochConfirmed epoch t)) =
  (epoch >=? disableOldStorageEpoch t).
Proof.
  rewrite EpochConfirmed_state. destruct (triggersMigration epoch t); reflexivity.
Qed.

Lemma EpochConfirmed_threshold (epoch : Z) (t : tsm) :
  disableOldStorageEpoch (stateOf (EpochConfirmed epoch t)) = disableOldStorageEpoch t.
Proof.
  rewrite EpochConfirmed_state. destruct (triggersMigration epoch t); reflexivity.
Qed.

Lemma epochsConfirmed_cons (epoch : Z) (rest : list Z) (t : tsm) :
  epochsConfirmed (epoch :: rest) t =
  (statusOf (epochsConfirmed rest (stateOf (EpochConfirmed epoch t))),
   stateOf (epochsConfirmed rest (stateOf (EpochConfirmed epoch t))),
   traceOf (EpochConfirmed epoch t) ++
   traceOf (epochsConfirmed rest (stateOf (EpochConfirmed epoch t)))).
Proof.
  assert (E : EpochConfirmed epoch t =
              (Returned tt, stateOf (EpochConfirmed epoch t),
               traceOf (EpochConfirmed epoch t))).
  { rewrite (run_eta (EpochConfirmed epoch t)) at 1.
    rewrite EpochConfirmed_status. reflexivity. }
  exact (bind_Returned (fun _ => epochsConfirmed rest) E).
Qed.

Lemma epochsConfirmed_status (epochs : list Z) :
  forall t : tsm, statusOf (epochsConfirmed epochs t) = Returned tt.
Proof.
  induction epochs as [| e rest IH]; intros t.
  - reflexivity.
  - rewrite epochsConfirmed_cons. cbn [statusOf fst]. apply IH.
Qed.

Lemma epochsConfirmed_app (es1 es2 : list Z) :
  forall t : tsm,
    stateOf (epochsConfirmed (es1 ++ es2) t) =
    stateOf (epochsConfirmed es2 (stateOf (epochsConfirmed es1 t))) /\
    traceOf (epochsConfirmed (es1 ++ es2) t) =
    traceOf (epochsConfirmed es1 t) ++
    traceOf (epochsConfirmed es2 (stateOf (epochsConfirmed es1 t))).
Proof.
  induction es1 as [| e rest IH]; intros t.
  - split; reflexivity.
  - cbn [app]. rewrite !epochsConfirmed_cons. cbn [stateOf traceOf fst snd].
    destruct (IH (stateOf (EpochConfirmed e t))) as [Hs Ht].
    split; [exact Hs |]. rewrite Ht, app_assoc. reflexivity.
Qed.

Lemma epochsConfirmed_threshold (epochs : list Z) :
  forall t : tsm,
    disableOldStorageEpoch (stateOf (epochsConfirmed epochs t)) =
    disableOldStorageEpoch t.
Proof.
  induction epochs as [| e rest IH]; intros t.
  - reflexivity.
  - rewrite epochsConfirmed_cons. cbn [stateOf fst snd].
    rewrite IH. apply EpochConfirmed_threshold.
Qed.

(** After a run of calls the flag is the comparison of the last one. *)
Lemma epochsConfirmed_flag (d : Z) (epochs : list Z) :
  forall (e : Z) (t : tsm),
    flagDisableOldStorage (stateOf (epochsConfirmed (e :: epochs) t)) =
    (last (e :: epochs) d >=? disableOldStorageEpoch t).
Proof.
  induction epochs as [| e' rest IH]; intros e t.
  - rewrite epochsConfirmed_cons. cbn [stateOf fst snd epochsConfirmed ret last].
    apply EpochConfirmed_flag.
  - rewrite epochsConfirmed_cons. cbn [stateOf fst snd].
    rewrite IH, EpochConfirmed_threshold. reflexivity.
Qed.

Lemma sorted_head_le_last (d : Z) (epochs : list Z) :
  forall e : Z, Sorted Z.le (e :: epochs) -> e <= last (e :: epochs) d.
Proof.
  induction epochs as [| e' rest IH]; intros e Hs.
  - cbn. lia.
  - change (last (e :: e' :: rest) d) with (last (e' :: rest) d).
    inversion Hs as [| ? ? Hrest Hhd]; subst.
    inversion Hhd; subst. specialize (IH e' Hrest). lia.
Qed.

(** C1, as the code has it.  Every call of [EpochConfirmed] sets the flag to
    the comparison of its epoch with the threshold; so over calls whose
    epochs never decrease, a flag that a call has set stays set after every
    later call. *)
Theorem flag_stays_set_while_epochs_do_not_decrease
    (epoch : Z) (later : list Z) (t : tsm)
    (Hsorted : Sorted Z.le (epoch :: later))
    (Hset : flagDisableOldStorage (stateOf (EpochConfirmed epoch t)) = true) :
  flagDisableOldStorage (stateOf (EpochConfirmed epoch t)) =
    (epoch >=? disableOldStorageEpoch t) /\
  statusOf (epochsConfirmed (epoch :: later) t) = Returned tt /\
  flagDisableOldStorage (stateOf (epochsConfirmed (epoch :: later) t)) = true.
Proof.
  split; [apply EpochConfirmed_flag |].
  split; [apply epochsConfirmed_status |].
  rewrite EpochConfirmed_flag in Hset. rewrite (epochsConfirmed_flag 0).
  apply (sorted_head_le_last 0) in Hsorted.
  apply Z.geb_le. apply Z.geb_le in Hset. lia.
Qed.

(** A run of calls that closes nothing: the old storage is closed already,
    or every epoch is below the threshold. *)
Lemma epochsConfirmed_quiet (epochs : list Z) :
  forall t : tsm,
    oldStorageClosed t = true \/
    Forall (fun e => e < disableOldStorageEpoch t) epochs ->
    oldStorageClosed (stateOf (epochsConfirmed epochs t)) = oldStorageClosed t /\
    db (stateOf (epochsConfirmed epochs t)) = db t /\
    snapshots (stateOf (epochsConfirmed epochs t)) = snapshots t /\
    forall l : layer, closeCount l (traceOf (epochsConfirmed epochs t)) = 0%nat.
Proof.
  induction epochs as [| e rest IH]; intros t Hq.
  - repeat split.
  - assert (Htrig : triggersMigration e t = false).
    { unfold triggersMigration. destruct Hq as [Hc | Hb].
      - rewrite Hc. apply andb_false_r.
      - inversion Hb; subst.
        assert (E : (e >=? disableOldStorageEpoch t) = false).
        { destruct (e >=? disableOldStorageEpoch t) eqn:G; [| reflexivity].
          apply Z.geb_le in G. lia. }
        rewrite E. reflexivity. }
    destruct (EpochConfirmed_run e t) as (_ & Hst & Htr).
    rewrite Htrig in Hst.
    rewrite epochsConfirmed_cons. cbn [stateOf traceOf fst snd].
    destruct (IH (stateOf (EpochConfirmed e t))) as (Ho & Hd & Hs & Hc).
    { rewrite Hst. cbn [oldStorageClosed disableOldStorageEpoch epochMarked
                         set_mainStorer set_flagDisableOldStorage].
      destruct Hq as [Hc | Hb]; [left; exact Hc | right].
      inversion Hb; subst. assumption. }
    split; [rewrite Ho, Hst; reflexivity |].
    split; [rewrite Hd, Hst; reflexivity |].
    split; [rewrite Hs, Hst; reflexivity |].
    intros l. rewrite closeCount_app, Hc, Htr, Htrig. reflexivity.
Qed.

(** C7.  From a manager whose old storage is not closed yet: the first
    [EpochConfirmed] whose epoch reaches the threshold sets the flag, calls
    [Close] once on the old db and once on every old snapshot generation, and
    sets [oldStorageClosed]; no [EpochConfirmed] after it, whatever its
    epoch, calls [Close] on any storer, and over the whole run each old
    storer was closed once. *)
Theorem old_storage_closed_at_most_once
    (before later : list Z) (epoch : Z) (t : tsm)
    (Hopen : oldStorageClosed t = false)
    (Hbefore : Forall (fun e => e < disableOldStorageEpoch t) before)
    (Hepoch : disableOldStorageEpoch t <= epoch) :
  statusOf (epochsConfirmed (before ++ [epoch]) t) = Returned tt /\
  flagDisableOldStorage (stateOf (epochsConfirmed (before ++ [epoch]) t)) = true /\
  oldStorageClosed (stateOf (epochsConfirmed (before ++ [epoch]) t)) = true /\
  db (stateOf (epochsConfirmed (before ++ [epoch]) t)) = closedStorer (db t) /\
  snapshots (stateOf (epochsConfirmed (before ++ [epoch]) t)) =
    map closedStorer (snapshots t) /\
  (forall l : layer,
      closeCount l (traceOf (epochsConfirmed (before ++ [epoch]) t)) =
      closesOnce (List.length (snapshots t)) l) /\
  statusOf (epochsConfirmed later (stateOf (epochsConfirmed (before ++ [epoch]) t)))
    = Returned tt /\
  (forall l : layer,
      closeCount l
        (traceOf (epochsConfirmed later
                    (stateOf (epochsConfirmed (before ++ [epoch]) t)))) = 0%nat) /\
  db (stateOf (epochsConfirmed (before ++ epoch :: later) t)) = closedStorer (db t) /\
  snapshots (stateOf (epochsConfirmed (before ++ epoch :: later) t)) =
    map closedStorer (snapshots t) /\
  oldStorageClosed (stateOf (epochsConfirmed (before ++ epoch :: later) t)) = true /\
  (forall l : layer,
      closeCount l (traceOf (epochsConfirmed (before ++ epoch :: later) t)) =
      closesOnce (List.length (snapshots t)) l).
Proof.
  destruct (epochsConfirmed_quiet t (or_intror Hbefore)) as (Ho & Hd & Hs & Hc).
  pose proof (epochsConfirmed_threshold before t) as Hthr.
  set (t0 := stateOf (epochsConfirmed before t)) in *.
  assert (Htrig : triggersMigration epoch t0 = true).
  { unfold triggersMigration. rewrite Ho, Hopen, Hthr.
    assert (E : (epoch >=? disableOldStorageEpoch t) = true) by (apply Z.geb_le; lia).
    rewrite E. reflexivity. }
  destruct (EpochConfirmed_run epoch t0) as (_ & Hst & Htr).
  rewrite Htrig in Hst.
  assert (Hfirst_state :
            stateOf (epochsConfirmed (before ++ [epoch]) t) =
            oldStorageClosedState (epochMarked epoch t0)).
  { rewrite (proj1 (epochsConfirmed_app before [epoch] t)).
    fold t0. rewrite epochsConfirmed_cons. cbn [stateOf fst snd epochsConfirmed ret].
    exact Hst. }
  assert (Hfirst_trace : forall l : layer,
            closeCount l (traceOf (epochsConfirmed (before ++ [epoch]) t)) =
            closesOnce (List.length (snapshots t)) l).
  { intros l. rewrite (proj2 (epochsConfirmed_app before [epoch] t)).
    fold t0. rewrite closeCount_app, Hc, epochsConfirmed_cons.
    cbn [traceOf snd epochsConfirmed ret]. rewrite app_nil_r, Htr, Htrig, Hs.
    reflexivity. }
  assert (Hflag : (epoch >=? disableOldStorageEpoch t0) = true).
  { rewrite Hthr. apply Z.geb_le. lia. }
  destruct (@epochsConfirmed_quiet later
              (stateOf (epochsConfirmed (before ++ [epoch]) t)))
    as (Ho' & Hd' & Hs' & Hc').
  { left. rewrite Hfirst_state. reflexivity. }
  assert (Hwhole : before ++ epoch :: later = (before ++ [epoch]) ++ later).
  { rewrite <- app_assoc. reflexivity. }
  split; [apply epochsConfirmed_status |].
  split; [rewrite Hfirst_state; cbn; exact Hflag |].
  split; [rewrite Hfirst_state; reflexivity |].
  split; [rewrite Hfirst_state; cbn; rewrite Hd; reflexivity |].
  split; [rewrite Hfirst_state; cbn; rewrite Hs; reflexivity |].
  split; [exact Hfirst_trace |].
  split; [apply epochsConfirmed_status |].
  split; [exact Hc' |].
  rewrite Hwhole.
  rewrite (proj1 (epochsConfirmed_app (before ++ [epoch]) later t)).
  rewrite (proj2 (epochsConfirmed_app (before ++ [epoch]) later t)).
  split; [rewrite Hd', Hfirst_state; cbn; rewrite Hd; reflexivity |].
  split; [rewrite Hs', Hfirst_state; cbn; rewrite Hs; reflexivity |].
  split; [rewrite Ho', Hfirst_state; reflexivity |].
  intros l. rewrite closeCount_app, Hc', Hfirst_trace. lia.
Qed.

End Migration.

(** ** The activity check of the snapshot worker *)

Section ActivityCheck.

Context {St STSM : Type}.
Context {stsmOps : SnapshotStorageManager STSM}.

Lemma isActiveDb_cases (stsm : STSM) (s : St) :
  isActiveDb stsm s =
  if bytesEqual (fst (stsmGet stsm (toBytes activeDBKey))) (toBytes activeDBVal)
  then (Returned true, s, [])
  else
    match snd (stsmGet stsm (toBytes activeDBKey)) with
    | None => (Panicked "invalid memory address or nil pointer dereference", s, [])
    | Some _ => (Returned false, s, [EvLog LvlDebug "snapshotTrieStorageManager get"])
    end.
Proof.
  unfold isActiveDb.
  destruct (bytesEqual _ _); [reflexivity |].
  destruct (snd (stsmGet stsm (toBytes activeDBKey))); reflexivity.
Qed.

End ActivityCheck.

(** C9.  [isActiveDb] panics exactly when the read of the activeDB key gives
    a value other than "yes" together with a nil error; so it returns for
    every snapshot storage manager whose read, when it does not give "yes",
    gives an error, and it returns true exactly on "yes".  A storer that
    holds another value under the key, and reads it without error, makes it
    panic. *)
Theorem isActiveDb_panics_on_nil_error :
  (forall (St STSM : Type) (stsmOps : SnapshotStorageManager STSM) (stsm : STSM) (s : St),
      (exists why, statusOf (isActiveDb stsm s) = Panicked why) <->
      (bytesEqual (fst (stsmGet stsm (toBytes activeDBKey))) (toBytes activeDBVal) = false /\
       snd (stsmGet stsm (toBytes activeDBKey)) = None)) /\
  (forall (St STSM : Type) (stsmOps : SnapshotStorageManager STSM) (stsm : STSM) (s : St),
      (bytesEqual (fst (stsmGet stsm (toBytes activeDBKey))) (toBytes activeDBVal) = false ->
       snd (stsmGet stsm (toBytes activeDBKey)) <> None) ->
      statusOf (isActiveDb stsm s) =
      Returned (bytesEqual (fst (stsmGet stsm (toBytes activeDBKey)))
                  (toBytes activeDBVal))) /\
  (exists stsm : memDB,
      stsmGet stsm (toBytes activeDBKey) = (toBytes "no", None) /\
      isActiveDb stsm tt =
      (Panicked "invalid memory address or nil pointer dereference", tt, [])).
Proof.
  split; [| split].
  - intros St STSM stsmOps stsm s. rewrite isActiveDb_cases.
    destruct (bytesEqual _ _).
    + split; [intros (why & E); discriminate E | intros [E _]; discriminate E].
    + destruct (snd (stsmGet stsm (toBytes activeDBKey))) as [e |].
      * split; [intros (why & E); discriminate E | intros [_ E]; discriminate E].
      * split; [intros _; split; reflexivity | intros _; eexists; reflexivity].
  - intros St STSM stsmOps stsm s Hpre. rewrite isActiveDb_cases.
    destruct (bytesEqual _ _); [reflexivity |].
    destruct (snd (stsmGet stsm (toBytes activeDBKey))) as [e |]; [reflexivity |].
    exfalso. apply Hpre; reflexivity.
  - exists (dbOf [(activeDBKey, "no")]). split; reflexivity.
Qed.

(** ** The panic on the way out of the snapshot worker *)

Section WorkerPanic.

Context {DB Holder STSM : Type}.
Context {storerOps : DBWriteCacher DB}.
Context {holderOps : CheckpointHashesHolder Holder}.
Context {stsmOps : SnapshotStorageManager STSM}.
Local Abbreviation tsm := (trieStorageManager DB Holder).

Variable snapshotNode : Type.
Variable newSnapshotNode : bytes -> M tsm (snapshotNode + error).
Variable newSnapshotTrieStorageManager : M tsm (STSM + error).
Variable commitSnapshot :
  snapshotNode -> STSM -> option leavesChanId -> statsId -> M tsm (option error).

Lemma finishOperation_run (e : snapshotsQueueEntry) (message : string) (t : tsm) :
  finishOperation e message t =
  (Returned tt,
   stateOf (ExitPruningBufferingMode t),
   traceOf (ExitPruningBufferingMode t) ++
   EvLog LvlTrace message :: finishEvents (leavesChan e) (stats e)).
Proof.
  unfold finishOperation.
  assert (E : ExitPruningBufferingMode t =
              (Returned tt, stateOf (ExitPruningBufferingMode t),
               traceOf (ExitPruningBufferingMode t))).
  { destruct (Z_lt_ge_dec (pruningBlockingOps t) 1) as [Hz | Hp].
    - rewrite (Exit_run_zero t Hz). reflexivity.
    - rewrite (Exit_run_pos t) by lia. reflexivity. }
  rewrite (bind_Returned _ E). unfold logMsg. msteps.
  rewrite finish_run. reflexivity.
Qed.

(** When the activity check panics, the worker has still finished the
    request and freed its slot, and the panic goes on to the caller. *)
Lemma takeSnapshot_panics_on_nil_error
    (e : snapshotsQueueEntry) (t t1 t2 : tsm) (tr1 tr2 : list event)
    (node : snapshotNode) (stsm : STSM) :
  newSnapshotNode (rootHash e) t = (Returned (inl node), t1, tr1) ->
  newSnapshotTrieStorageManager t1 = (Returned (inl stsm), t2, tr2) ->
  bytesEqual (fst (stsmGet stsm (toBytes activeDBKey))) (toBytes activeDBVal) = false ->
  snd (stsmGet stsm (toBytes activeDBKey)) = None ->
  takeSnapshot newSnapshotNode newSnapshotTrieStorageManager commitSnapshot e t =
  (Panicked "invalid memory address or nil pointer dereference",
   stateOf (ExitPruningBufferingMode t2),
   (EvLog LvlTrace "trie snapshot started" :: tr1 ++ tr2) ++
   (traceOf (ExitPruningBufferingMode t2) ++
    EvLog LvlTrace "trie snapshot finished" :: finishEvents (leavesChan e) (stats e)) ++
   [EvEndProcessing]).
Proof.
  intros Hnode Hstsm Hval Herr.
  assert (Hbody :
            (logMsg LvlTrace "trie snapshot started" ;;
             r <- newSnapshotNode (rootHash e) ;;
             match r with
             | inr _ => logMsg LvlError "takeSnapshot: trie storage manager: newSnapshotTrie"
             | inl newRoot =>
                 r <- newSnapshotTrieStorageManager ;;
                 match r with
                 | inr _ =>
                     logMsg LvlError
                       "takeSnapshot: trie storage manager: newSnapshotTrieStorageManager"
                 | inl stsm =>
                     active <- isActiveDb stsm ;;
                     if negb active then ret tt
                     else
                       err <- commitSnapshot newRoot stsm (leavesChan e) (stats e) ;;
                       match err with
                       | Some ErrContextClosing =>
                           logMsg LvlDebug
                             "context closing while in commitSnapshot operation"
                       | Some _ =>
                           logMsg LvlError "trie storage manager: takeSnapshot commit"
                       | None => ret tt
                       end
                 end
             end) t =
            (Panicked "invalid memory address or nil pointer dereference", t2,
             EvLog LvlTrace "trie snapshot started" :: tr1 ++ tr2)).
  { unfold logMsg. rewrite bind_emit.
    rewrite (bind_Returned _ Hnode). cbn [statusOf stateOf traceOf fst snd].
    rewrite (bind_Returned _ Hstsm). cbn [statusOf stateOf traceOf fst snd].
    assert (Hcheck : isActiveDb stsm t2 =
                     (Panicked "invalid memory address or nil pointer dereference",
                      t2, [])).
    { rewrite isActiveDb_cases, Hval, Herr. reflexivity. }
    rewrite (bind_Panicked _ Hcheck). cbn [statusOf stateOf traceOf fst snd].
    rewrite app_nil_r. reflexivity. }
  unfold takeSnapshot, defer. rewrite Hbody.
  assert (Hdeferred :
            (finishOperation e "trie snapshot finished" ;; emit EvEndProcessing) t2 =
            (Returned tt, stateOf (ExitPruningBufferingMode t2),
             (traceOf (ExitPruningBufferingMode t2) ++
              EvLog LvlTrace "trie snapshot finished" ::
              finishEvents (leavesChan e) (stats e)) ++ [EvEndProcessing])).
  { rewrite (bind_Returned _ (finishOperation_run e _ t2)). reflexivity. }
  rewrite Hdeferred. reflexivity.
Qed.

End WorkerPanic.

(** ** The properties on managers in memory *)

(** C4 on a manager as constructed: three Enters, then three Exits. *)
Lemma pruning_counter_never_negative_witness :
  validCounter freshManager /\
  statusOf (IsPruningBlocked
              (stateOf (pruningCallsRun (repeat CallEnter 3 ++ repeat CallExit 3)
                          freshManager)))
  = Returned false.
Proof.
  assert (Hv : validCounter freshManager).
  { unfold validCounter, uint32Mod. cbn [pruningBlockingOps freshManager newManager]. lia. }
  split; [exact Hv |].
  destruct (pruning_counter_never_negative Hv) as (_ & Hn & _).
  apply (Hn 3%nat). reflexivity.
Defined.

(** Scenario A of the specification. *)
Example three_enters_two_exits_block_pruning :
  statusOf (IsPruningBlocked
              (stateOf (pruningCallsRun
                          [CallEnter; CallEnter; CallEnter; CallExit; CallExit]
                          freshManager))) = Returned true /\
  statusOf (IsPruningBlocked
              (stateOf (pruningCallsRun
                          [CallEnter; CallEnter; CallEnter; CallExit; CallExit; CallExit]
                          freshManager))) = Returned false.
Proof. split; reflexivity. Qed.

(** The counter wraps as a uint32 does: from its largest value one Enter
    leaves pruning unblocked. *)
Example enter_wraps_at_uint32 :
  pruningBlockingOps
    (stateOf (EnterPruningBufferingMode
                (set_pruningBlockingOps (uint32Mod - 1) freshManager))) = 0.
Proof. reflexivity. Qed.

(** C3 and scenario B of the specification, on the manager [Close] leaves:
    a snapshot of a root that is not empty, with a leaves channel. *)
Lemma closed_manager_finishes_at_once_witness :
  closed (stateOf (Close freshManager)) = true /\
  TakeSnapshot emptyTrieHash32 CaseSend (toBytes "root") (Some 1%nat) 2%nat
    (stateOf (Close freshManager)) =
  (Returned tt, stateOf (Close freshManager),
   [EvCloseChan 1%nat; EvSnapshotFinished 2%nat]).
Proof.
  assert (Hc : closed (stateOf (Close freshManager)) = true) by reflexivity.
  split; [exact Hc |].
  exact (proj1 (closed_manager_finishes_at_once emptyTrieHash32 CaseSend
                  (toBytes "root") (Some 1%nat) 2%nat _ Hc)).
Defined.

(** On a manager that is open, a root hash that is not the one of the empty
    trie is put in the queue, with the pruning-block counter raised. *)
Example open_manager_enqueues :
  let r := TakeSnapshot emptyTrieHash32 CaseSend (toBytes "root") (Some 1%nat) 2%nat
             freshManager in
  statusOf r = Returned tt /\
  pruningBlockingOps (stateOf r) = 1 /\
  chanBuf (snapshotReq (stateOf r)) =
    [{| rootHash := toBytes "root"; leavesChan := Some 1%nat; stats := 2%nat |}] /\
  filter (fun e => negb (isLogEvent e)) (traceOf r) =
    [EvHolderRemoveCommitted (toBytes "root")].
Proof. repeat split. Qed.

(** C6 on a value that is not empty. *)
Lemma Put_then_Get_nonempty_witness :
  nonEmpty (toBytes "v") = true /\
  fst (dbGet (fst (dbPut (mainStorer freshManager) (toBytes "k") (toBytes "v")))
         (toBytes "k")) = toBytes "v" /\
  Get (toBytes "k") (stateOf (Put (toBytes "k") (toBytes "v") freshManager)) =
  (Returned (toBytes "v", None),
   stateOf (Put (toBytes "k") (toBytes "v") freshManager),
   [EvGet MainStorer (toBytes "k")]).
Proof.
  assert (Hval : nonEmpty (toBytes "v") = true) by reflexivity.
  assert (Hstored :
            fst (dbGet (fst (dbPut (mainStorer freshManager) (toBytes "k") (toBytes "v")))
                   (toBytes "k")) = toBytes "v") by reflexivity.
  split; [exact Hval |]. split; [exact Hstored |].
  destruct (Put_then_Get_nonempty (toBytes "k") freshManager Hval Hstored)
    as (_ & _ & _ & _ & _ & Hget).
  exact Hget.
Defined.

(** C6 as stated fails on the empty value: after [Put] of the empty value
    under a key, [Get] of the key answers with what the checkpoints storer
    holds under it, and with not-found when no layer holds anything. *)
Lemma Put_empty_value_then_Get_counterexample :
  (statusOf (Get (toBytes "k")
               (stateOf (Put (toBytes "k") []
                           (newManager emptyDB (dbOf [("k", "w")]) emptyDB [] 5))))
   = Returned (toBytes "w", None) /\
   statusOf (Get (toBytes "k")
               (stateOf (Put (toBytes "k") []
                           (newManager emptyDB (dbOf [("k", "w")]) emptyDB [] 5))))
   <> Returned ([], None)) /\
  statusOf (Get (toBytes "k") (stateOf (Put (toBytes "k") [] freshManager)))
  = Returned ([], Some ErrKeyNotFound).
Proof.
  split; [split |]; try reflexivity.
  intros E. discriminate E.
Qed.

(** C8 on a hash held by the main and by the checkpoints storer. *)
Lemma Remove_then_Get_witness :
  misses (toBytes "h")
    (MainStorer,
     fst (dbRemove
            (mainStorer (newManager (dbOf [("h", "m")]) (dbOf [("h", "c")]) emptyDB [] 5))
            (toBytes "h"))) /\
  exists v,
    nonEmpty v = true /\
    statusOf (Get (toBytes "h")
                (stateOf (Remove (toBytes "h")
                            (newManager (dbOf [("h", "m")]) (dbOf [("h", "c")])
                               emptyDB [] 5))))
    = Returned (v, None).
Proof.
  assert (Hgone : misses (toBytes "h")
            (MainStorer,
             fst (dbRemove
                    (mainStorer
                       (newManager (dbOf [("h", "m")]) (dbOf [("h", "c")]) emptyDB [] 5))
                    (toBytes "h")))) by reflexivity.
  split; [exact Hgone |].
  destruct (Remove_then_Get _ Hgone)
    as (_ & _ & _ & _ & _ & _ & _ & Hiff & _).
  apply Hiff. constructor. reflexivity.
Defined.

(** Scenario D of the specification. *)
Example Remove_then_Get_scenario :
  statusOf (Get (toBytes "h")
              (stateOf (Remove (toBytes "h")
                          (newManager (dbOf [("h", "m")]) (dbOf [("h", "c")])
                             emptyDB [] 5))))
  = Returned (toBytes "c", None) /\
  statusOf (Get (toBytes "h")
              (stateOf (Remove (toBytes "h")
                          (newManager (dbOf [("h", "m")]) emptyDB emptyDB [] 5))))
  = Returned ([], Some ErrKeyNotFound) /\
  checkpointHashesHolder
    (stateOf (Remove (toBytes "h")
                (set_checkpointHashesHolder
                   [(toBytes "root", [toBytes "h"; toBytes "g"])] freshManager)))
  = [(toBytes "root", [toBytes "g"])].
Proof. repeat split. Qed.

(** C1 as stated fails: the flag set by epoch 5 is unset by epoch 4. *)
Lemma flag_reverts_when_epoch_decreases :
  flagDisableOldStorage (stateOf (epochsConfirmed [5] legacyManager)) = true /\
  flagDisableOldStorage (stateOf (epochsConfirmed [5; 4] legacyManager)) = false.
Proof. split; reflexivity. Qed.

(** C1 on the epochs 5, 5, 7, 9 with threshold 5. *)
Lemma flag_stays_set_while_epochs_do_not_decrease_witness :
  Sorted Z.le [5; 5; 7; 9] /\
  flagDisableOldStorage (stateOf (EpochConfirmed 5 legacyManager)) = true /\
  flagDisableOldStorage (stateOf (epochsConfirmed [5; 5; 7; 9] legacyManager)) = true.
Proof.
  assert (Hsorted : Sorted Z.le [5; 5; 7; 9]) by (repeat constructor; lia).
  assert (Hset : flagDisableOldStorage (stateOf (EpochConfirmed 5 legacyManager)) = true)
    by reflexivity.
  split; [exact Hsorted |]. split; [exact Hset |].
  exact (proj2 (proj2 (flag_stays_set_while_epochs_do_not_decrease legacyManager Hsorted Hset))).
Defined.

(** C7 on the epochs 3, 4, then 5, then 6, 2, with threshold 5 and two old
    generations. *)
Lemma old_storage_closed_at_most_once_witness :
  oldStorageClosed legacyManager = false /\
  Forall (fun e => e < disableOldStorageEpoch legacyManager) [3; 4] /\
  disableOldStorageEpoch legacyManager <= 5 /\
  forall l : layer,
    closeCount l (traceOf (epochsConfirmed ([3; 4] ++ 5 :: [6; 2]) legacyManager)) =
    closesOnce (List.length (snapshots legacyManager)) l.
Proof.
  assert (Hopen : oldStorageClosed legacyManager = false) by reflexivity.
  assert (Hbefore : Forall (fun e => e < disableOldStorageEpoch legacyManager) [3; 4]).
  { repeat constructor. }
  assert (Hepoch : disableOldStorageEpoch legacyManager <= 5).
  { cbn. lia. }
  split; [exact Hopen |]. split; [exact Hbefore |]. split; [exact Hepoch |].
  destruct (old_storage_closed_at_most_once [6; 2] legacyManager Hopen Hbefore Hepoch)
    as (_ & _ & _ & _ & _ & _ & _ & _ & _ & _ & _ & Hcount).
  exact Hcount.
Defined.

(** Scenario C of the specification, on the storers themselves: each old
    storer has seen one [Close], also after a second confirmation with a
    higher epoch. *)
Example epoch_confirmed_twice_closes_once :
  map closeCalls (snapshots (stateOf (epochsConfirmed [5; 6] legacyManager))) = [1%nat; 1%nat] /\
  closeCalls (db (stateOf (epochsConfirmed [5; 6] legacyManager))) = 1%nat /\
  closeCalls (mainStorer (stateOf (epochsConfirmed [5; 6] legacyManager))) = 0%nat.
Proof. repeat split. Qed.

(** [Close] looks at the flag, not at [oldStorageClosed]: called after the
    flag was set and then unset by a lower epoch, it closes the old storers a
    second time. *)
Example Close_after_epoch_decrease_closes_again :
  closeCalls (db (stateOf (Close (stateOf (epochsConfirmed [5; 4] legacyManager)))))
  = 2%nat /\
  closeCalls (db (stateOf (Close (stateOf (epochsConfirmed [5; 6] legacyManager)))))
  = 1%nat.
Proof. split; reflexivity. Qed.

(** * Further properties of the manager *)

(** ** Requests past the guards *)

Section RequestsPastGuards.

Context {DB Holder : Type}.
Context {holderOps : CheckpointHashesHolder Holder}.
Variable EmptyTrieHash : bytes.
Local Abbreviation tsm := (trieStorageManager DB Holder).

(** The manager when a request has raised the counter and, for a snapshot,
    told the holder. *)
Lemma submitRequest_open (kind : requestKind) (pick : selectCase) (root : bytes)
    (ch : option leavesChanId) (st : statsId) (t : tsm) :
  closed t = false ->
  bytesEqual root EmptyTrieHash = false ->
  exists t1 : tsm,
    pruningBlockingOps t1 = (pruningBlockingOps t + 1) mod uint32Mod /\
    checkpointHashesHolder t1 = holderAfter kind root t /\
    snapshotReq t1 = snapshotReq t /\
    checkpointReq t1 = checkpointReq t /\
    closed t1 = false /\
    disableOldStorageEpoch t1 = disableOldStorageEpoch t /\
    oldStorageClosed t1 = oldStorageClosed t /\
    snapshots t1 = snapshots t /\
    submitRequest EmptyTrieHash kind pick root ch st t =
    match selectReady (queueOf kind t) (closerClosed t) pick with
    | Some CaseSend =>
        (Returned tt,
         match kind with
         | SnapshotRequest =>
             set_snapshotReq
               (chanSend (snapshotReq t)
                  {| rootHash := root; leavesChan := ch; stats := st |}) t1
         | CheckpointRequest =>
             set_checkpointReq
               (chanSend (checkpointReq t)
                  {| rootHash := root; leavesChan := ch; stats := st |}) t1
         end,
         EvLog LvlTrace "enter pruning buffering state" :: holderCalls kind root)
    | Some CaseClosing =>
        (Returned tt,
         stateOf (ExitPruningBufferingMode t1),
         (EvLog LvlTrace "enter pruning buffering state" :: holderCalls kind root) ++
         traceOf (ExitPruningBufferingMode t1) ++ finishEvents ch st)
    | None =>
        (Blocked, t1,
         EvLog LvlTrace "enter pruning buffering state" :: holderCalls kind root)
    end.
Proof.
  intros Hopen Hroot.
  destruct kind; cbn [submitRequest queueOf holderCalls holderAfter].
  - exists (set_checkpointHashesHolder
              (hhRemoveCommitted (checkpointHashesHolder t) root)
              (set_pruningBlockingOps ((pruningBlockingOps t + 1) mod uint32Mod) t)).
    repeat (split; [first [reflexivity | exact Hopen] |]).
    unfold TakeSnapshot, isClosed. msteps. rewrite Hopen, Hroot.
    rewrite (bind_Returned _ (Enter_run t)). cbn [statusOf stateOf traceOf fst snd].
    msteps. cbn [snapshotReq closerClosed set_pruningBlockingOps].
    destruct (selectReady (snapshotReq t) (closerClosed t) pick) as [[|] |].
    + reflexivity.
    + match goal with
      | |- context [ExitPruningBufferingMode ?x] =>
          assert (E : ExitPruningBufferingMode x =
                      (Returned tt, stateOf (ExitPruningBufferingMode x),
                       traceOf (ExitPruningBufferingMode x)))
      end.
      { match goal with
        | |- ExitPruningBufferingMode ?x = _ =>
            destruct (Z_lt_ge_dec (pruningBlockingOps x) 1) as [Hz | Hp];
            [rewrite (Exit_run_zero x Hz) | rewrite (Exit_run_pos x) by lia];
            reflexivity
        end. }
      rewrite (bind_Returned _ E). rewrite finish_run.
      cbn [statusOf stateOf traceOf fst snd app]. reflexivity.
    + reflexivity.
  - exists (set_pruningBlockingOps ((pruningBlockingOps t + 1) mod uint32Mod) t).
    repeat (split; [first [reflexivity | exact Hopen] |]).
    unfold SetCheckpoint, isClosed. msteps. rewrite Hopen, Hroot.
    rewrite (bind_Returned _ (Enter_run t)). cbn [statusOf stateOf traceOf fst snd].
    msteps. cbn [checkpointReq closerClosed set_pruningBlockingOps].
    destruct (selectReady (checkpointReq t) (closerClosed t) pick) as [[|] |].
    + reflexivity.
    + match goal with
      | |- context [ExitPruningBufferingMode ?x] =>
          assert (E : ExitPruningBufferingMode x =
                      (Returned tt, stateOf (ExitPruningBufferingMode x),
                       traceOf (ExitPruningBufferingMode x)))
      end.
      { match goal with
        | |- ExitPruningBufferingMode ?x = _ =>
            destruct (Z_lt_ge_dec (pruningBlockingOps x) 1) as [Hz | Hp];
            [rewrite (Exit_run_zero x Hz) | rewrite (Exit_run_pos x) by lia];
            reflexivity
        end. }
      rewrite (bind_Returned _ E). rewrite finish_run.
      cbn [statusOf stateOf traceOf fst snd app]. reflexivity.
    + reflexivity.
Qed.

Lemma holderCalls_notLog (kind : requestKind) (root : bytes) :
  filter notLog (holderCalls kind root) = holderCalls kind root.
Proof. destruct kind; reflexivity. Qed.

Lemma finishEvents_notLog (ch : option leavesChanId) (st : statsId) :
  filter notLog (finishEvents ch st) = finishEvents ch st.
Proof. destruct ch; reflexivity. Qed.

Lemma Exit_notLog (t : tsm) :
  filter notLog (traceOf (ExitPruningBufferingMode t)) = [].
Proof.
  destruct (Z_lt_ge_dec (pruningBlockingOps t) 1) as [Hz | Hp].
  - rewrite (Exit_run_zero t Hz). reflexivity.
  - rewrite (Exit_run_pos t) by lia. reflexivity.
Qed.


(** X2.  When the request is past the guards and the closer turns out
    closed, the [select] taking that case, the call gives back what it took:
    the counter is what it was before the call (it was below the largest
    uint32, so raising it did not wrap), no queue has changed, and the
    request is finished, its leaves channel closed and its statistics
    handler told.  A snapshot has by then dropped the pending entry of its
    root in the hashes holder all the same. *)
Theorem request_given_back_when_closing
    (kind : requestKind) (pick : selectCase) (root : bytes)
    (ch : option leavesChanId) (st : statsId) (t : tsm)
    (Hopen : closed t = false)
    (Hroot : bytesEqual root EmptyTrieHash = false)
    (Hsel : selectReady (queueOf kind t) (closerClosed t) pick = Some CaseClosing)
    (Hcounter : 0 <= pruningBlockingOps t < uint32Mod - 1) :
  statusOf (submitRequest EmptyTrieHash kind pick root ch st t) = Returned tt /\
  pruningBlockingOps (stateOf (submitRequest EmptyTrieHash kind pick root ch st t)) =
    pruningBlockingOps t /\
  snapshotReq (stateOf (submitRequest EmptyTrieHash kind pick root ch st t)) =
    snapshotReq t /\
  checkpointReq (stateOf (submitRequest EmptyTrieHash kind pick root ch st t)) =
    checkpointReq t /\
  checkpointHashesHolder (stateOf (submitRequest EmptyTrieHash kind pick root ch st t)) =
    holderAfter kind root t /\
  filter notLog (traceOf (submitRequest EmptyTrieHash kind pick root ch st t)) =
    holderCalls kind root ++ finishEvents ch st.
Proof.
  destruct (submitRequest_open kind pick root ch st t Hopen Hroot)
    as (t1 & Hc & Hh & Hs & Hk & _ & _ & _ & _ & E).
  rewrite Hsel in E. rewrite E. cbn [statusOf stateOf traceOf fst snd].
  assert (Hraised : pruningBlockingOps t1 = pruningBlockingOps t + 1).
  { rewrite Hc. apply Z.mod_small. lia. }
  assert (Hpos : 1 <= pruningBlockingOps t1) by lia.
  rewrite (Exit_run_pos t1 Hpos). cbn [stateOf traceOf fst snd].
  cbn [pruningBlockingOps snapshotReq checkpointReq checkpointHashesHolder
         set_pruningBlockingOps].
  split; [reflexivity |].
  split.
  { rewrite Hraised.
    replace (pruningBlockingOps t + 1 - 1) with (pruningBlockingOps t) by lia.
    apply Z.mod_small. lia. }
  split; [exact Hs |]. split; [exact Hk |]. split; [exact Hh |].
  cbn [app filter notLog isLogEvent negb].
  rewrite filter_app. cbn [filter notLog isLogEvent negb].
  rewrite holderCalls_notLog, finishEvents_notLog. reflexivity.
Qed.


End RequestsPastGuards.


(** X2 on a checkpoint, the closer closed while the manager still says it is
    open. *)
Lemma request_given_back_when_closing_witness :
  closed (set_closerClosed true freshManager) = false /\
  bytesEqual (toBytes "root") emptyTrieHash32 = false /\
  selectReady (queueOf CheckpointRequest (set_closerClosed true freshManager))
    (closerClosed (set_closerClosed true freshManager)) CaseClosing = Some CaseClosing /\
  0 <= pruningBlockingOps (set_closerClosed true freshManager) < uint32Mod - 1 /\
  pruningBlockingOps
    (stateOf (submitRequest emptyTrieHash32 CheckpointRequest CaseClosing
                (toBytes "root") (Some 1%nat) 2%nat
                (set_closerClosed true freshManager))) =
  pruningBlockingOps (set_closerClosed true freshManager).
Proof.
  assert (Hopen : closed (set_closerClosed true freshManager) = false) by reflexivity.
  assert (Hroot : bytesEqual (toBytes "root") emptyTrieHash32 = false) by reflexivity.
  assert (Hsel : selectReady
                   (queueOf CheckpointRequest (set_closerClosed true freshManager))
                   (closerClosed (set_closerClosed true freshManager)) CaseClosing
                 = Some CaseClosing) by reflexivity.
  assert (Hcounter :
            0 <= pruningBlockingOps (set_closerClosed true freshManager)
            < uint32Mod - 1).
  { unfold uint32Mod. cbn. lia. }
  repeat (split; [assumption |]).
  exact (proj1 (proj2 (request_given_back_when_closing emptyTrieHash32
                         CheckpointRequest CaseClosing (toBytes "root") (Some 1%nat)
                         2%nat _ Hopen Hroot Hsel Hcounter))).
Defined.


(** ** The way out of a worker *)


Section WorkerWayOut.

Context {DB Holder STSM : Type}.
Context {storerOps : DBWriteCacher DB}.
Context {holderOps : CheckpointHashesHolder Holder}.
Context {stsmOps : SnapshotStorageManager STSM}.
Local Abbreviation tsm := (trieStorageManager DB Holder).

Variable snapshotNode : Type.
Variable newSnapshotNode : bytes -> M tsm (snapshotNode + error).
Variable newSnapshotTrieStorageManager : M tsm (STSM + error).
Variable commitSnapshot :
  snapshotNode -> STSM -> option leavesChanId -> statsId -> M tsm (option error).
Variable commitCheckpoint :
  snapshotNode -> option leavesChanId -> statsId -> M tsm (option error).



End WorkerWayOut.

(** ** What [Close] comes back with *)

Section CloseAll.

Context {DB Holder : Type}.
Context {storerOps : DBWriteCacher DB}.
Local Abbreviation tsm := (trieStorageManager DB Holder).

Lemma lastCloseError_None (snaps : list DB) :
  forall err : option error,
    lastCloseError snaps err = None <->
    err = None /\ Forall (fun sdb => snd (dbClose sdb) = None) snaps.
Proof.
  induction snaps as [| sdb rest IH]; intros err; cbn [lastCloseError].
  - split; [intros E; split; [exact E | constructor] | intros [E _]; exact E].
  - rewrite IH. destruct (snd (dbClose sdb)) as [e |] eqn:Es.
    + split; [intros [E _]; discriminate E |].
      intros [_ Hall]. inversion Hall as [| ? ? Hhd _].
      rewrite Es in Hhd. discriminate Hhd.
    + split.
      * intros [E Hall]. split; [exact E | constructor; assumption].
      * intros [E Hall]. inversion Hall as [| ? ? _ Hrest].
        split; [exact E | exact Hrest].
Qed.

Lemma closeErrorOf_None (t : tsm) :
  closeErrorOf t = None <-> allClosesSucceed t.
Proof.
  unfold closeErrorOf, allClosesSucceed, laterError.
  destruct (snd (dbClose (checkpointsStorer t))) as [ec |].
  { split; [intros E; discriminate E | intros (_ & E & _); discriminate E]. }
  destruct (snd (dbClose (mainStorer t))) as [em |].
  { split; [intros E; discriminate E | intros (E & _); discriminate E]. }
  destruct (flagDisableOldStorage t).
  - split; [| reflexivity].
    intros _. split; [reflexivity |]. split; [reflexivity |].
    intros E. discriminate E.
  - rewrite lastCloseError_None. split.
    + intros H. split; [reflexivity |]. split; [reflexivity |]. intros _. exact H.
    + intros (_ & _ & H). apply H. reflexivity.
Qed.

Lemma Close_run (t : tsm) :
  statusOf (Close t) =
    Returned (match closeErrorOf t with
              | Some e => Some (ErrWrapped "trieStorageManager close failed" e)
              | None => None
              end) /\
  stateOf (Close t) =
    set_closerClosed true
      (set_checkpointsStorer (closedStorer (checkpointsStorer t))
         (set_mainStorer (closedStorer (mainStorer t))
            (if flagDisableOldStorage t
             then set_closed true (set_ctxDone true t)
             else oldStorageClosedState (set_closed true (set_ctxDone true t))))) /\
  forall l : layer, closeCount l (traceOf (Close t)) = closesOnClose t l.
Proof.
  unfold Close, flagIsSet, logMsg, closeErrorOf, closesOnClose, laterError. msteps.
  cbn [flagDisableOldStorage set_closed set_ctxDone].
  destruct (flagDisableOldStorage t) eqn:Hflag; cbn [negb].
  - msteps. cbn [mainStorer checkpointsStorer set_closed set_ctxDone set_mainStorer].
    destruct (snd (dbClose (mainStorer t))) as [e1 |]; msteps;
      cbn [mainStorer checkpointsStorer set_closed set_ctxDone set_mainStorer];
      destruct (snd (dbClose (checkpointsStorer t))) as [e2 |]; msteps;
      unfold ret; cbn [statusOf stateOf traceOf fst snd];
      (split; [reflexivity |]); (split; [reflexivity |]);
      intros l; destruct l; reflexivity.
  - rewrite (bind_Returned _ (closeOldTrieStorage_run _)).
    cbn [statusOf stateOf traceOf fst snd]. msteps.
    change (mainStorer (oldStorageClosedState (set_closed true (set_ctxDone true t))))
      with (mainStorer t).
    change (checkpointsStorer
              (oldStorageClosedState (set_closed true (set_ctxDone true t))))
      with (checkpointsStorer t).
    change (snapshots (set_closed true (set_ctxDone true t))) with (snapshots t).
    change (db (set_closed true (set_ctxDone true t))) with (db t).
    assert (Hold : forall (l : layer) (tr : list event),
               closeCount l
                 (closeOldTrieStorageTrace (set_closed true (set_ctxDone true t)) ++ tr) =
               (closesOnce (List.length (snapshots t)) l + closeCount l tr)%nat).
    { intros l tr. rewrite closeCount_app, closeCount_closeOldTrieStorageTrace.
      reflexivity. }
    destruct (snd (dbClose (mainStorer t))) as [e1 |]; msteps;
      destruct (snd (dbClose (checkpointsStorer t))) as [e2 |]; msteps;
      try match goal with
          | |- context [lastCloseError ?a ?b] => destruct (lastCloseError a b) as [e3 |]
          end;
      unfold ret; cbn [statusOf stateOf traceOf fst snd];
      (split; [reflexivity |]); (split; [reflexivity |]);
      intros l; rewrite closeCount_cons, Hold; destruct l; cbn; lia.
Qed.

(** X5.  [Close] calls [Close] on the main storer and on the checkpoints
    storer once each, and, unless the flag is set, once on the old db and on
    each old snapshot generation, whichever of these calls fail; it leaves
    the manager closed, its context cancelled and its closer closed.  It
    returns nil exactly when every one of these calls succeeded, and
    otherwise the error of the last call that failed, wrapped. *)
Theorem Close_closes_every_storer (t : tsm) :
  (forall l : layer, closeCount l (traceOf (Close t)) = closesOnClose t l) /\
  closed (stateOf (Close t)) = true /\
  ctxDone (stateOf (Close t)) = true /\
  closerClosed (stateOf (Close t)) = true /\
  mainStorer (stateOf (Close t)) = closedStorer (mainStorer t) /\
  checkpointsStorer (stateOf (Close t)) = closedStorer (checkpointsStorer t) /\
  statusOf (Close t) =
    Returned (match closeErrorOf t with
              | Some e => Some (ErrWrapped "trieStorageManager close failed" e)
              | None => None
              end) /\
  (statusOf (Close t) = Returned None <-> allClosesSucceed t).
Proof.
  destruct (Close_run t) as (Hst & Hs & Htr).
  split; [exact Htr |]. rewrite Hs, Hst.
  split; [destruct (flagDisableOldStorage t); reflexivity |].
  split; [destruct (flagDisableOldStorage t); reflexivity |].
  split; [reflexivity |].
  split; [reflexivity |].
  split; [reflexivity |].
  split; [reflexivity |].
  rewrite <- closeErrorOf_None.
  destruct (closeErrorOf t) as [e |]; split; intros E;
    try reflexivity; discriminate E.
Qed.

End CloseAll.

(** ** Reads after a confirmed epoch *)

Section ReadsAfterEpoch.

Context {DB Holder : Type}.
Context {storerOps : DBWriteCacher DB}.
Local Abbreviation tsm := (trieStorageManager DB Holder).

Lemma EpochConfirmed_keeps_storers (epoch : Z) (t : tsm) :
  mainStorer (stateOf (EpochConfirmed epoch t)) =
    fst (dbPut (mainStorer t) (toBytes activeDBKey) (toBytes activeDBVal)) /\
  checkpointsStorer (stateOf (EpochConfirmed epoch t)) = checkpointsStorer t.
Proof.
  rewrite EpochConfirmed_state.
  destruct (triggersMigration epoch t); split; reflexivity.
Qed.

(** X6.  Once [EpochConfirmed] has been called with an epoch at or above the
    threshold, [Get] reads the main storer and, on a miss, the checkpoints
    storer, and no other storer: a key that neither of the two holds is not
    found, whatever the old db and the old snapshot generations hold. *)
Theorem Get_after_migration_reads_no_old_layer (epoch : Z) (key : bytes) (t : tsm)
    (Hepoch : disableOldStorageEpoch t <= epoch) :
  (traceOf (Get key (stateOf (EpochConfirmed epoch t))) = [EvGet MainStorer key] \/
   traceOf (Get key (stateOf (EpochConfirmed epoch t))) =
     [EvGet MainStorer key; EvGet CheckpointsStorer key]) /\
  (misses key (MainStorer, mainStorer (stateOf (EpochConfirmed epoch t))) ->
   misses key (CheckpointsStorer, checkpointsStorer t) ->
   statusOf (Get key (stateOf (EpochConfirmed epoch t))) =
   Returned ([], Some ErrKeyNotFound)).
Proof.
  assert (Hflag : flagDisableOldStorage (stateOf (EpochConfirmed epoch t)) = true).
  { rewrite EpochConfirmed_flag. apply Z.geb_le. lia. }
  destruct (EpochConfirmed_keeps_storers epoch t) as [_ Hchk].
  rewrite Get_firstHit. unfold activeLayers, fallbackLayers.
  rewrite Hflag, Hchk. cbn [firstHit statusOf traceOf fst snd].
  unfold misses.
  destruct (nonEmpty (layerValue key (MainStorer, _))) eqn:Hm.
  - split; [left; reflexivity | intros E; discriminate E].
  - destruct (nonEmpty (layerValue key (CheckpointsStorer, _))) eqn:Hc.
    + split; [right; reflexivity | intros _ E; discriminate E].
    + split; [right; reflexivity | reflexivity].
Qed.

(** X7.  Every [EpochConfirmed], whatever its epoch, writes the marker of
    the active db to the main storer: with a main storer that holds what was
    put, the next [Get] of the key "activeDB" returns "yes", read from the
    main storer alone. *)
Theorem EpochConfirmed_marks_active_db (epoch : Z) (t : tsm)
    (Hstored :
       fst (dbGet (fst (dbPut (mainStorer t) (toBytes activeDBKey) (toBytes activeDBVal)))
              (toBytes activeDBKey)) = toBytes activeDBVal) :
  (exists rest : list event,
      traceOf (EpochConfirmed epoch t) =
      EvLog LvlDebug "old trie storage" ::
      EvPut MainStorer (toBytes activeDBKey) (toBytes activeDBVal) :: rest) /\
  Get (toBytes activeDBKey) (stateOf (EpochConfirmed epoch t)) =
  (Returned (toBytes activeDBVal, None), stateOf (EpochConfirmed epoch t),
   [EvGet MainStorer (toBytes activeDBKey)]).
Proof.
  split.
  - unfold EpochConfirmed, flagToggle, flagIsSet, mainStorerPut, logMsg. msteps.
    eexists. reflexivity.
  - destruct (EpochConfirmed_keeps_storers epoch t) as [Hmain _].
    rewrite Get_firstHit. unfold activeLayers. cbn [firstHit].
    unfold layerValue, consulted. cbn [fst snd].
    rewrite Hmain, Hstored. reflexivity.
Qed.

End ReadsAfterEpoch.

(** ** The queues emptied at the end *)

Section CleanupChans.

Context {DB Holder : Type}.
Local Abbreviation tsm := (trieStorageManager DB Holder).

(** What finishing a request shows, logs apart. *)
Local Abbreviation finishOf :=
  (fun e : snapshotsQueueEntry => finishEvents (leavesChan e) (stats e)).

Lemma Exit_state (t : tsm) :
  validCounter t ->
  validCounter (stateOf (ExitPruningBufferingMode t)) /\
  pruningBlockingOps (stateOf (ExitPruningBufferingMode t)) =
    Z.max 0 (pruningBlockingOps t - 1) /\
  snapshotReq (stateOf (ExitPruningBufferingMode t)) = snapshotReq t /\
  checkpointReq (stateOf (ExitPruningBufferingMode t)) = checkpointReq t.
Proof.
  intros Hv. unfold validCounter in *.
  destruct (Z_lt_ge_dec (pruningBlockingOps t) 1) as [Hz | Hp].
  - rewrite (Exit_run_zero t Hz). cbn [stateOf fst snd]. repeat split; lia.
  - rewrite (Exit_run_pos t) by lia.
    cbn [stateOf fst snd pruningBlockingOps set_pruningBlockingOps
           snapshotReq checkpointReq].
    rewrite Z.mod_small by lia. repeat split; lia.
Qed.

Lemma finishOperation_notLog (e : snapshotsQueueEntry) (message : string) (t : tsm) :
  filter notLog (traceOf (finishOperation e message t)) = finishOf e.
Proof.
  rewrite finishOperation_run. cbn [traceOf snd].
  rewrite filter_app, Exit_notLog. cbn [app filter notLog isLogEvent negb].
  apply finishEvents_notLog.
Qed.

(** One turn of the loop that takes [e] out of a queue, the manager being
    [t'] once [e] is out. *)
Lemma cleanup_turn (e : snapshotsQueueEntry) (message : string)
    (k : M tsm unit) (t' : tsm) :
  validCounter t' ->
  (finishOperation e message ;; k) t' =
  (statusOf (k (stateOf (ExitPruningBufferingMode t'))),
   stateOf (k (stateOf (ExitPruningBufferingMode t'))),
   traceOf (finishOperation e message t') ++
   traceOf (k (stateOf (ExitPruningBufferingMode t')))).
Proof.
  intros _. rewrite (bind_Returned _ (finishOperation_run e message t')).
  rewrite finishOperation_run. reflexivity.
Qed.

Lemma cleanupLoop_run (fuel : nat) :
  forall (picks : list recvCase) (t : tsm),
    validCounter t ->
    (List.length (chanBuf (snapshotReq t)) +
     List.length (chanBuf (checkpointReq t)) < fuel)%nat ->
    statusOf (cleanupLoop fuel picks t) = Returned tt /\
    chanBuf (snapshotReq (stateOf (cleanupLoop fuel picks t))) = [] /\
    chanBuf (checkpointReq (stateOf (cleanupLoop fuel picks t))) = [] /\
    Permutation (filter notLog (traceOf (cleanupLoop fuel picks t)))
      (flat_map finishOf (chanBuf (snapshotReq t) ++ chanBuf (checkpointReq t))) /\
    pruningBlockingOps (stateOf (cleanupLoop fuel picks t)) =
      Z.max 0 (pruningBlockingOps t -
               Z.of_nat (List.length (chanBuf (snapshotReq t)) +
                         List.length (chanBuf (checkpointReq t)))).
Proof.
  induction fuel as [| fuel IH]; intros picks t Hv Hfuel; [lia |].
  assert (HfromS : forall (e : snapshotsQueueEntry) (restS : list snapshotsQueueEntry),
             chanBuf (snapshotReq t) = e :: restS ->
             let t' := set_snapshotReq
                         {| chanBuf := restS; chanCap := chanCap (snapshotReq t) |} t in
             let r := (finishOperation e "trie snapshot finished on cleanup" ;;
                       cleanupLoop fuel (tl picks)) t' in
             statusOf r = Returned tt /\
             chanBuf (snapshotReq (stateOf r)) = [] /\
             chanBuf (checkpointReq (stateOf r)) = [] /\
             Permutation (filter notLog (traceOf r))
               (flat_map finishOf (chanBuf (snapshotReq t) ++ chanBuf (checkpointReq t))) /\
             pruningBlockingOps (stateOf r) =
               Z.max 0 (pruningBlockingOps t -
                        Z.of_nat (List.length (chanBuf (snapshotReq t)) +
                                  List.length (chanBuf (checkpointReq t))))).
  { intros e restS Hs t' r. subst r.
    assert (Hv' : validCounter t') by exact Hv.
    rewrite (cleanup_turn e _ _ Hv'). cbn [statusOf stateOf traceOf fst snd].
    destruct (Exit_state Hv') as (Hv1 & Hc1 & Hs1 & Hk1).
    destruct (IH (tl picks) (stateOf (ExitPruningBufferingMode t')) Hv1)
      as (Hst & Hqs & Hqc & Hperm & Hcount).
    { rewrite Hs1, Hk1. subst t'. cbn [snapshotReq checkpointReq set_snapshotReq chanBuf].
      rewrite Hs in Hfuel. cbn [List.length] in Hfuel. lia. }
    split; [exact Hst |]. split; [exact Hqs |]. split; [exact Hqc |].
    rewrite Hs1, Hk1 in Hperm, Hcount. rewrite Hc1 in Hcount.
    subst t'. cbn [snapshotReq checkpointReq set_snapshotReq chanBuf
                     pruningBlockingOps] in Hperm, Hcount.
    split.
    - rewrite filter_app, finishOperation_notLog, Hs.
      cbn [app flat_map]. apply Permutation_app_head. exact Hperm.
    - rewrite Hcount, Hs. cbn [List.length].
      unfold validCounter in Hv. lia. }
  assert (HfromC : forall (e : snapshotsQueueEntry) (restC : list snapshotsQueueEntry),
             chanBuf (checkpointReq t) = e :: restC ->
             let t' := set_checkpointReq
                         {| chanBuf := restC; chanCap := chanCap (checkpointReq t) |} t in
             let r := (finishOperation e "trie checkpoint finished on cleanup" ;;
                       cleanupLoop fuel (tl picks)) t' in
             statusOf r = Returned tt /\
             chanBuf (snapshotReq (stateOf r)) = [] /\
             chanBuf (checkpointReq (stateOf r)) = [] /\
             Permutation (filter notLog (traceOf r))
               (flat_map finishOf (chanBuf (snapshotReq t) ++ chanBuf (checkpointReq t))) /\
             pruningBlockingOps (stateOf r) =
               Z.max 0 (pruningBlockingOps t -
                        Z.of_nat (List.length (chanBuf (snapshotReq t)) +
                                  List.length (chanBuf (checkpointReq t))))).
  { intros e restC Hc t' r. subst r.
    assert (Hv' : validCounter t') by exact Hv.
    rewrite (cleanup_turn e _ _ Hv'). cbn [statusOf stateOf traceOf fst snd].
    destruct (Exit_state Hv') as (Hv1 & Hc1 & Hs1 & Hk1).
    destruct (IH (tl picks) (stateOf (ExitPruningBufferingMode t')) Hv1)
      as (Hst & Hqs & Hqc & Hperm & Hcount).
    { rewrite Hs1, Hk1. subst t'. cbn [snapshotReq checkpointReq set_checkpointReq chanBuf].
      rewrite Hc in Hfuel. cbn [List.length] in Hfuel. lia. }
    split; [exact Hst |]. split; [exact Hqs |]. split; [exact Hqc |].
    rewrite Hs1, Hk1 in Hperm, Hcount. rewrite Hc1 in Hcount.
    subst t'. cbn [snapshotReq checkpointReq set_checkpointReq chanBuf
                     pruningBlockingOps] in Hperm, Hcount.
    split.
    - rewrite filter_app, finishOperation_notLog, Hc.
      rewrite flat_map_app in *. cbn [flat_map].
      rewrite Permutation_app_swap_app.
      apply Permutation_app_head. exact Hperm.
    - rewrite Hcount, Hc. cbn [List.length].
      unfold validCounter in Hv. lia. }
  cbn [cleanupLoop]. rewrite bind_getState. unfold chanRecv.
  destruct (chanBuf (snapshotReq t)) as [| eS restS] eqn:Hs;
    destruct (chanBuf (checkpointReq t)) as [| eC restC] eqn:Hc.
  - cbn. repeat split; try assumption; try constructor.
    unfold validCounter in Hv. lia.
  - rewrite bind_modify. exact (HfromC eC restC eq_refl).
  - rewrite bind_modify. exact (HfromS eS restS eq_refl).
  - destruct (hd RecvSnapshotReq picks); rewrite bind_modify.
    + exact (HfromS eS restS eq_refl).
    + exact (HfromC eC restC eq_refl).
Qed.

(** X8.  Once the closer is closed, [cleanupChans] returns with both queues
    empty, whichever queue each turn of its loop takes from: every request
    that was queued has been finished once (its leaves channel closed if
    there is one, its statistics handler told), nothing else was called
    apart from the logger, and the counter has gone down by one for each
    request, stopping at zero. *)
Theorem cleanupChans_finishes_every_request (picks : list recvCase) (t : tsm)
    (Hclosing : closerClosed t = true)
    (Hvalid : validCounter t) :
  statusOf (cleanupChans picks t) = Returned tt /\
  chanBuf (snapshotReq (stateOf (cleanupChans picks t))) = [] /\
  chanBuf (checkpointReq (stateOf (cleanupChans picks t))) = [] /\
  Permutation (filter notLog (traceOf (cleanupChans picks t)))
    (flat_map (fun e => finishEvents (leavesChan e) (stats e))
       (chanBuf (snapshotReq t) ++ chanBuf (checkpointReq t))) /\
  pruningBlockingOps (stateOf (cleanupChans picks t)) =
    Z.max 0 (pruningBlockingOps t -
             Z.of_nat (List.length (chanBuf (snapshotReq t)) +
                       List.length (chanBuf (checkpointReq t)))).
Proof.
  unfold cleanupChans. rewrite bind_getState, Hclosing.
  apply cleanupLoop_run; [exact Hvalid | lia].
Qed.

End CleanupChans.

(** ** Maps read in order *)

Lemma insertSorted_perm (x : Z) (l : list Z) : Permutation (x :: l) (insertSorted x l).
Proof.
  induction l as [| y rest IH]; cbn [insertSorted].
  - apply Permutation_refl.
  - destruct (x <=? y).
    + apply Permutation_refl.
    + apply perm_trans with (y :: x :: rest); [apply perm_swap |].
      apply perm_skip. exact IH.
Qed.

Lemma sortInts_perm (l : list Z) : Permutation l (sortInts l).
Proof.
  induction l as [| x rest IH]; cbn [sortInts].
  - apply Permutation_refl.
  - apply perm_trans with (x :: sortInts rest);
      [apply perm_skip; exact IH | apply insertSorted_perm].
Qed.

Lemma insertSorted_sorted (x : Z) (l : list Z) :
  StronglySorted Z.le l -> StronglySorted Z.le (insertSorted x l).
Proof.
  induction 1 as [| y rest Hrest IH Hall]; cbn [insertSorted].
  - repeat constructor.
  - destruct (Z.leb_spec x y) as [Hxy | Hyx].
    + constructor; [constructor; assumption |].
      constructor; [exact Hxy |].
      rewrite Forall_forall in *. intros z Hz. specialize (Hall z Hz). lia.
    + constructor; [exact IH |].
      rewrite Forall_forall in *. intros z Hz.
      apply (Permutation_in z (Permutation_sym (insertSorted_perm x rest))) in Hz.
      destruct Hz as [E | Hz]; [subst; lia | exact (Hall z Hz)].
Qed.

Lemma sortInts_sorted (l : list Z) : StronglySorted Z.le (sortInts l).
Proof.
  induction l as [| x rest IH]; cbn [sortInts].
  - constructor.
  - apply insertSorted_sorted, IH.
Qed.

(** Two sorted lists with the same elements are the same list. *)
Lemma sorted_perm_unique (l1 : list Z) :
  forall l2 : list Z,
    StronglySorted Z.le l1 -> StronglySorted Z.le l2 -> Permutation l1 l2 -> l1 = l2.
Proof.
  induction l1 as [| x rest IH]; intros l2 H1 H2 Hp.
  - apply Permutation_nil in Hp. subst. reflexivity.
  - destruct l2 as [| y rest2].
    + apply Permutation_sym, Permutation_nil in Hp. discriminate Hp.
    + inversion H1 as [| ? ? Hs1 Ha1]; subst.
      inversion H2 as [| ? ? Hs2 Ha2]; subst.
      assert (Hxy : x = y).
      { assert (Hx : In x (y :: rest2))
          by (apply (Permutation_in x Hp); left; reflexivity).
        assert (Hy : In y (x :: rest))
          by (apply (Permutation_in y (Permutation_sym Hp)); left; reflexivity).
        rewrite Forall_forall in Ha1, Ha2.
        destruct Hx as [E | Hx]; [symmetry; exact E |].
        destruct Hy as [E | Hy]; [exact E |].
        specialize (Ha1 y Hy). specialize (Ha2 x Hx). lia. }
      subst y. f_equal. apply IH; try assumption.
      apply Permutation_cons_inv with x. exact Hp.
Qed.

Lemma sortInts_order_free (l1 l2 : list Z) :
  Permutation l1 l2 -> sortInts l1 = sortInts l2.
Proof.
  intros Hp. apply sorted_perm_unique; try apply sortInts_sorted.
  apply perm_trans with l1; [apply Permutation_sym, sortInts_perm |].
  apply perm_trans with l2; [exact Hp | apply sortInts_perm].
Qed.

Section OrderedSnapshots.

Context {V : Type}.

Lemma mapLookup_not_in (key : Z) (m : goMap V) :
  ~ In key (map fst m) -> mapLookup key m = None.
Proof.
  induction m as [| [k v] rest IH]; intros Hn; cbn [mapLookup].
  - reflexivity.
  - destruct (Z.eqb_spec k key) as [E | _].
    + exfalso. apply Hn. left. exact E.
    + apply IH. intros Hin. apply Hn. right. exact Hin.
Qed.

Lemma mapLookup_in (m : goMap V) :
  NoDup (map fst m) ->
  forall (key : Z) (v : V), In (key, v) m -> mapLookup key m = Some v.
Proof.
  induction m as [| [k v'] rest IH]; intros Hnd key v Hin; [contradiction |].
  cbn [map fst] in Hnd. inversion Hnd as [| ? ? Hnotin Hrest]; subst.
  cbn [mapLookup]. destruct Hin as [E | Hin].
  - inversion E; subst. rewrite Z.eqb_refl. reflexivity.
  - destruct (Z.eqb_spec k key) as [E | _].
    + exfalso. apply Hnotin. subst k.
      change key with (fst (key, v)). apply in_map. exact Hin.
    + apply IH; assumption.
Qed.

(** What a key is bound to does not depend on the order of the pairs. *)
Lemma mapLookup_order_free (key : Z) (m1 m2 : goMap V) :
  Permutation m1 m2 -> NoDup (map fst m1) -> mapLookup key m1 = mapLookup key m2.
Proof.
  induction 1 as [| [k v] m1 m2 Hp IH | [k1 v1] [k2 v2] m | m1 m2 m3 Hp1 IH1 Hp2 IH2];
    intros Hnd.
  - reflexivity.
  - cbn [mapLookup]. cbn [map fst] in Hnd. inversion Hnd; subst.
    rewrite IH by assumption. reflexivity.
  - cbn [mapLookup]. cbn [map fst] in Hnd.
    inversion Hnd as [| ? ? Hnotin _]; subst.
    destruct (Z.eqb_spec k1 key) as [E1 | _], (Z.eqb_spec k2 key) as [E2 | _];
      try reflexivity.
    exfalso. apply Hnotin. left. congruence.
  - rewrite IH1 by assumption. apply IH2.
    apply (Permutation_NoDup (Permutation_map fst Hp1)). exact Hnd.
Qed.

Lemma insertByKey_perm (p : Z * V) (l : list (Z * V)) :
  Permutation (p :: l) (insertByKey p l).
Proof.
  induction l as [| q rest IH]; cbn [insertByKey].
  - apply Permutation_refl.
  - destruct (fst p <=? fst q).
    + apply Permutation_refl.
    + apply perm_trans with (q :: p :: rest); [apply perm_swap |].
      apply perm_skip. exact IH.
Qed.

Lemma sortByKey_perm (l : list (Z * V)) : Permutation l (sortByKey l).
Proof.
  induction l as [| p rest IH]; cbn [sortByKey].
  - apply Permutation_refl.
  - apply perm_trans with (p :: sortByKey rest);
      [apply perm_skip; exact IH | apply insertByKey_perm].
Qed.

Lemma insertByKey_sorted (p : Z * V) (l : list (Z * V)) :
  StronglySorted keyLe l -> StronglySorted keyLe (insertByKey p l).
Proof.
  unfold keyLe.
  induction 1 as [| q rest Hrest IH Hall]; cbn [insertByKey].
  - repeat constructor.
  - destruct (Z.leb_spec (fst p) (fst q)) as [Hpq | Hqp].
    + constructor; [constructor; assumption |].
      constructor; [exact Hpq |].
      rewrite Forall_forall in *. intros z Hz. specialize (Hall z Hz). lia.
    + constructor; [exact IH |].
      rewrite Forall_forall in *. intros z Hz.
      apply (Permutation_in z (Permutation_sym (insertByKey_perm p rest))) in Hz.
      destruct Hz as [E | Hz]; [subst; lia | exact (Hall z Hz)].
Qed.

Lemma sortByKey_sorted (l : list (Z * V)) : StronglySorted keyLe (sortByKey l).
Proof.
  induction l as [| p rest IH]; cbn [sortByKey].
  - constructor.
  - apply insertByKey_sorted, IH.
Qed.

Lemma keys_sorted (l : list (Z * V)) :
  StronglySorted keyLe l -> StronglySorted Z.le (map fst l).
Proof.
  induction 1 as [| q rest Hrest IH Hall]; cbn [map].
  - constructor.
  - constructor; [exact IH |]. rewrite Forall_forall in *.
    intros z Hz. apply in_map_iff in Hz. destruct Hz as (r & E & Hr).
    subst z. exact (Hall r Hr).
Qed.

Lemma own_keys_lookup (m : goMap V) (l : list (Z * V)) :
  (forall p, In p l -> mapLookup (fst p) m = Some (snd p)) ->
  flat_map
    (fun key => match mapLookup key m with
                | Some sdb => [sdb]
                | None => []
                end) (map fst l) = map snd l.
Proof.
  induction l as [| p rest IH]; intros Hl; cbn [map flat_map].
  - reflexivity.
  - rewrite (Hl p (or_introl eq_refl)). cbn [app]. f_equal.
    apply IH. intros q Hq. apply Hl. right. exact Hq.
Qed.

Lemma getOrderedSnapshots_order_free (m1 m2 : goMap V) :
  NoDup (map fst m1) -> Permutation m1 m2 ->
  getOrderedSnapshots m1 = getOrderedSnapshots m2.
Proof.
  intros Hnd Hp. unfold getOrderedSnapshots.
  rewrite (sortInts_order_free (Permutation_map fst Hp)).
  apply flat_map_ext. intros key.
  rewrite (mapLookup_order_free key Hp Hnd). reflexivity.
Qed.

(** X9.  For a map whose keys are all different, [getOrderedSnapshots]
    gives the values by ascending key, one for every pair of the map, and
    gives the same list in whatever order the map is ranged over. *)
Theorem getOrderedSnapshots_ascending (snapshotsMap : goMap V)
    (Hkeys : NoDup (map fst snapshotsMap)) :
  Permutation snapshotsMap (sortByKey snapshotsMap) /\
  StronglySorted keyLe (sortByKey snapshotsMap) /\
  getOrderedSnapshots snapshotsMap = map snd (sortByKey snapshotsMap) /\
  List.length (getOrderedSnapshots snapshotsMap) = List.length snapshotsMap /\
  forall otherOrder : goMap V,
    Permutation snapshotsMap otherOrder ->
    getOrderedSnapshots otherOrder = getOrderedSnapshots snapshotsMap.
Proof.
  assert (Hperm := sortByKey_perm snapshotsMap).
  assert (Hsorted := sortByKey_sorted snapshotsMap).
  assert (Hnd : NoDup (map fst (sortByKey snapshotsMap))).
  { apply (Permutation_NoDup (Permutation_map fst Hperm)). exact Hkeys. }
  assert (Hresult : getOrderedSnapshots snapshotsMap = map snd (sortByKey snapshotsMap)).
  { rewrite (getOrderedSnapshots_order_free Hkeys Hperm).
    unfold getOrderedSnapshots.
    assert (Hk : sortInts (map fst (sortByKey snapshotsMap)) =
                 map fst (sortByKey snapshotsMap)).
    { apply sorted_perm_unique;
        [apply sortInts_sorted | apply keys_sorted, Hsorted |
         apply Permutation_sym, sortInts_perm]. }
    rewrite Hk. apply own_keys_lookup.
    intros [k v] Hin. apply mapLookup_in; assumption. }
  split; [exact Hperm |]. split; [exact Hsorted |]. split; [exact Hresult |].
  split.
  - rewrite Hresult, length_map. symmetry. apply Permutation_length, Hperm.
  - intros otherOrder Hp. symmetry.
    apply getOrderedSnapshots_order_free; assumption.
Qed.

End OrderedSnapshots.

(** ** The snapshots found on disk *)

Section MapInsert.

Context {V : Type}.

Lemma mapInsert_keys (key : Z) (v : V) (m : goMap V) :
  forall k : Z, In k (map fst (mapInsert key v m)) <-> k = key \/ In k (map fst m).
Proof.
  induction m as [| [k' v'] rest IH]; intros k; cbn [mapInsert map fst In].
  - split; [intros [E | []]; left; symmetry; exact E | intros [E | []]; left; symmetry; exact E].
  - destruct (Z.eqb_spec k' key) as [E | Hne]; cbn [map fst In].
    + subst k'. split.
      * intros [E | Hin]; [left; symmetry; exact E | right; right; exact Hin].
      * intros [E | [E | Hin]];
          [left; symmetry; exact E | left; exact E | right; exact Hin].
    + rewrite IH. split.
      * intros [E | [E | Hin]];
          [right; left; exact E | left; exact E | right; right; exact Hin].
      * intros [E | [E | Hin]];
          [right; left; exact E | left; exact E | right; right; exact Hin].
Qed.

Lemma mapInsert_NoDup (key : Z) (v : V) (m : goMap V) :
  NoDup (map fst m) -> NoDup (map fst (mapInsert key v m)).
Proof.
  induction m as [| [k' v'] rest IH]; intros Hnd; cbn [mapInsert map fst].
  - constructor; [intros [] | constructor].
  - cbn [map fst] in Hnd. inversion Hnd as [| ? ? Hnotin Hrest]; subst.
    destruct (Z.eqb_spec k' key) as [E | Hne]; cbn [map fst].
    + subst k'. constructor; assumption.
    + constructor; [| apply IH; exact Hrest].
      rewrite mapInsert_keys. intros [E | Hin]; [apply Hne; exact E | exact (Hnotin Hin)].
Qed.

Lemma mapInsert_not_empty (key : Z) (v : V) (m : goMap V) :
  Nat.eqb (List.length (mapInsert key v m)) 0 = false.
Proof.
  destruct m as [| [k' v'] rest]; cbn [mapInsert]; [reflexivity |].
  destruct (k' =? key); reflexivity.
Qed.

End MapInsert.

Section RestoredSnapshots.

Context {DB St : Type}.
Variable Atoi : string -> Z + error.
Variable NewDB : DBConfig -> string -> DB + error.








End RestoredSnapshots.

(** ** What every call from outside keeps *)

Section FacadeInvariant.

Context {DB Holder : Type}.
Context {storerOps : DBWriteCacher DB}.
Context {holderOps : CheckpointHashesHolder Holder}.
Variable EmptyTrieHash : bytes.
Local Abbreviation tsm := (trieStorageManager DB Holder).










End FacadeInvariant.

(** ** The dispatcher giving up on a request *)

Section GivingUp.

Context {DB Holder T : Type}.
Context {throttlerOps : Throttler T}.
Local Abbreviation tsm := (trieStorageManager DB Holder).

(** X13.  When the throttler has no capacity and the context is done,
    [checkGoRoutinesThrottler] returns [ErrTimeIsOut] only after it has
    finished the request it was given: the leaves channel closed if there is
    one, the statistics handler told, and the counter down by one, stopping
    at zero; the queues are as they were. *)
Theorem dispatcher_finishes_the_request_it_gives_up
    (goRoutinesThrottler : T) (e : snapshotsQueueEntry) (t : tsm)
    (Hbusy : CanProcess goRoutinesThrottler = false)
    (Hdone : ctxDone t = true)
    (Hvalid : validCounter t) :
  statusOf (checkGoRoutinesThrottler goRoutinesThrottler e t) =
    Returned (Some ErrTimeIsOut) /\
  filter notLog (traceOf (checkGoRoutinesThrottler goRoutinesThrottler e t)) =
    finishEvents (leavesChan e) (stats e) /\
  pruningBlockingOps (stateOf (checkGoRoutinesThrottler goRoutinesThrottler e t)) =
    Z.max 0 (pruningBlockingOps t - 1) /\
  snapshotReq (stateOf (checkGoRoutinesThrottler goRoutinesThrottler e t)) =
    snapshotReq t /\
  checkpointReq (stateOf (checkGoRoutinesThrottler goRoutinesThrottler e t)) =
    checkpointReq t.
Proof.
  unfold checkGoRoutinesThrottler. rewrite Hbusy, bind_getState, Hdone.
  rewrite (bind_Returned _ (finishOperation_run e _ t)).
  cbn [ret statusOf stateOf traceOf fst snd].
  destruct (Exit_state Hvalid) as (_ & Hc & Hs & Hk).
  split; [reflexivity |]. split; [| split; [exact Hc | split; [exact Hs | exact Hk]]].
  rewrite app_nil_r, filter_app, Exit_notLog.
  cbn [app filter notLog isLogEvent negb]. apply finishEvents_notLog.
Qed.

End GivingUp.

Section Construction.

Context {Storer Holder T Notifier Msh Hsh : Type}.
Context {storerOps : DBWriteCacher Storer}.
Local Abbreviation tsm := (trieStorageManager Storer Holder).

Variable ErrNilDatabase ErrNilStorer ErrNilMarshalizer ErrNilHasher : error.
Variable ErrNilCheckpointHashesHolder ErrNilEpochNotifier : error.
Variable NewNumGoRoutinesThrottler : Z -> T + error.
Variable RegisterNotifyHandler : Notifier -> M tsm unit.
Variable Atoi : string -> Z + error.
Variable NewDB : DBConfig -> string -> Storer + error.

Local Abbreviation construct :=
  (NewTrieStorageManager ErrNilDatabase ErrNilStorer ErrNilMarshalizer ErrNilHasher
     ErrNilCheckpointHashesHolder ErrNilEpochNotifier NewNumGoRoutinesThrottler
     RegisterNotifyHandler Atoi NewDB).

(** The scan of the snapshots returns, leaves the state it runs in alone and
    calls nothing but the log. *)
Lemma restoreSnapshots_quiet (cfg : DBConfig) (files : list dirEntry) :
  forall (snapshotsMap : goMap Storer) (snapshotId : Z) (s : tsm),
  exists r tr,
    restoreSnapshots Atoi NewDB cfg files snapshotsMap snapshotId s =
      (Returned r, s, tr) /\
    filter notLog tr = [].
Proof.
  induction files as [| f rest IH]; intros m id s.
  - eexists _, []. split; reflexivity.
  - cbn [restoreSnapshots]. destruct (IsDir f); cbn [negb]; [| apply IH].
    destruct (Atoi (Name f)) as [n | err];
      [| eexists _, []; split; reflexivity].
    destruct (NewDB cfg (Name f)) as [sdb | err];
      [| eexists _, []; split; reflexivity].
    destruct (IH (mapInsert n sdb m) (if n >? id then n else id) s)
      as (r & tr & E & Hq).
    unfold logMsg. rewrite bind_emit, E. cbn [statusOf stateOf traceOf fst snd].
    eexists _, _. split; [reflexivity |]. exact Hq.
Qed.

Lemma getSnapshotsAndSnapshotId_quiet (fs : fsView) (cfg : DBConfig) (s : tsm) :
  exists r tr,
    getSnapshotsAndSnapshotId Atoi NewDB fs cfg s = (Returned r, s, tr) /\
    filter notLog tr = [].
Proof.
  unfold getSnapshotsAndSnapshotId. destruct (pathExists fs); cbn [negb].
  - destruct (readDir fs) as [files | err].
    + apply restoreSnapshots_quiet.
    + unfold logMsg. rewrite bind_emit. eexists _, _. split; reflexivity.
  - eexists _, []. split; reflexivity.
Qed.

(** X14.  With any of its seven collaborators nil, [NewTrieStorageManager]
    returns one of the errors of the nil checks and has called nothing: the
    handler is not registered, no storer is closed, no directory is read. *)
Theorem NewTrieStorageManager_refuses_missing_collaborator
    (args : Args.t Storer Holder Notifier Msh Hsh) (fs : fsView)
    (Hmissing : allPresent args = false) :
  exists err : error,
    construct args fs = (Returned (inr err), []) /\
    In err [ErrNilDatabase;
            ErrWrapped "for main storer" ErrNilStorer;
            ErrWrapped "for checkpoints storer" ErrNilStorer;
            ErrNilMarshalizer; ErrNilHasher;
            ErrNilCheckpointHashesHolder; ErrNilEpochNotifier].
Proof.
  unfold NewTrieStorageManager, allPresent in *.
  destruct (Args.DB args);
    [| eexists; split; [reflexivity | cbn; tauto]].
  destruct (Args.MainStorer args);
    [| eexists; split; [reflexivity | cbn; tauto]].
  destruct (Args.CheckpointsStorer args);
    [| eexists; split; [reflexivity | cbn; tauto]].
  destruct (Args.Marshalizer args);
    [| eexists; split; [reflexivity | cbn; tauto]].
  destruct (Args.Hasher args);
    [| eexists; split; [reflexivity | cbn; tauto]].
  destruct (Args.CheckpointHashesHolder args);
    [| eexists; split; [reflexivity | cbn; tauto]].
  destruct (Args.EpochNotifier args);
    [| eexists; split; [reflexivity | cbn; tauto]].
  discriminate Hmissing.
Qed.

(** X15.  With every collaborator there, a throttler that could be made and
    a registration that returns with the flag of the old storage unset,
    [NewTrieStorageManager] succeeds whatever the scan of the snapshot
    directories gives, an error included: the manager it returns is the one
    the registration left, with the storers and the id of the scan, and the
    constructor itself has called nothing but the log beyond what the
    registration called. *)
Theorem NewTrieStorageManager_survives_failed_scan
    (args : Args.t Storer Holder Notifier Msh Hsh) (fs : fsView)
    (oldDb main checkpoints : Storer) (holder : Holder) (notifier : Notifier)
    (goRoutinesThrottler : T) (t1 : tsm) (registered : list event)
    (Hpresent : allPresent args = true)
    (Hdb : Args.DB args = Some oldDb)
    (Hmain : Args.MainStorer args = Some main)
    (Hcheckpoints : Args.CheckpointsStorer args = Some checkpoints)
    (Hholder : Args.CheckpointHashesHolder args = Some holder)
    (Hnotifier : Args.EpochNotifier args = Some notifier)
    (Hthrottler :
       NewNumGoRoutinesThrottler
         (int32Wrap (SnapshotsGoroutineNum (Args.GeneralConfig args))) =
       inl goRoutinesThrottler)
    (Hregistered :
       RegisterNotifyHandler notifier
         (initialManager args oldDb main checkpoints holder) =
       (Returned tt, t1, registered))
    (Hunset : flagDisableOldStorage t1 = false) :
  exists (restored : list Storer) (id : Z) (err : option error) (tr : list event),
    statusOf (getSnapshotsAndSnapshotId Atoi NewDB fs (Args.SnapshotDbConfig args) t1) =
      Returned (restored, id, err) /\
    construct args fs =
      (Returned (inl {| manager := set_snapshotId id (set_snapshots restored t1);
                        dispatcherThrottler := goRoutinesThrottler |}), tr) /\
    filter notLog tr = filter notLog registered.
Proof.
  destruct (getSnapshotsAndSnapshotId_quiet fs (Args.SnapshotDbConfig args) t1)
    as ([[restored id] err] & scanned & Escan & Hquiet).
  exists restored, id, err.
  unfold NewTrieStorageManager, allPresent in *.
  rewrite Hdb, Hmain, Hcheckpoints, Hholder, Hnotifier in *.
  destruct (Args.Marshalizer args); [| discriminate Hpresent].
  destruct (Args.Hasher args); [| discriminate Hpresent].
  rewrite Hthrottler. unfold registerAndRestore, logMsg, flagIsSet.
  rewrite bind_emit, (bind_Returned _ Hregistered).
  msteps. rewrite Hunset.
  rewrite (bind_Returned _ Escan). cbn [statusOf stateOf traceOf fst snd].
  rewrite Escan. cbn [statusOf fst].
  destruct err as [e |]; msteps; unfold ret; cbn [fst snd];
    eexists; (split; [reflexivity |]); (split; [reflexivity |]);
    cbn [filter notLog isLogEvent negb];
    rewrite !filter_app, Hquiet; cbn [filter notLog isLogEvent negb app];
    rewrite ?app_nil_r; reflexivity.
Qed.

(** X16.  When the notifier confirms, at the registration, an epoch at or
    past the threshold, [NewTrieStorageManager] closes the old db a second
    time: [EpochConfirmed] has closed it, and the constructor, finding the
    flag set, closes it again.  If that second [Close] gives an error the
    constructor fails with it; else the manager comes back with its old
    storage marked closed and no snapshot restored. *)
Theorem NewTrieStorageManager_closes_old_db_again
    (args : Args.t Storer Holder Notifier Msh Hsh) (fs : fsView)
    (oldDb main checkpoints : Storer) (holder : Holder) (notifier : Notifier)
    (goRoutinesThrottler : T) (epoch : Z)
    (Hpresent : allPresent args = true)
    (Hdb : Args.DB args = Some oldDb)
    (Hmain : Args.MainStorer args = Some main)
    (Hcheckpoints : Args.CheckpointsStorer args = Some checkpoints)
    (Hholder : Args.CheckpointHashesHolder args = Some holder)
    (Hnotifier : Args.EpochNotifier args = Some notifier)
    (Hthrottler :
       NewNumGoRoutinesThrottler
         (int32Wrap (SnapshotsGoroutineNum (Args.GeneralConfig args))) =
       inl goRoutinesThrottler)
    (Hconfirms : RegisterNotifyHandler notifier = EpochConfirmed epoch)
    (Hpast : Args.DisableOldTrieStorageEpoch args <= epoch) :
  closeCount OldDb (snd (construct args fs)) = 2%nat /\
  match snd (dbClose (closedStorer oldDb)) with
  | Some err => fst (construct args fs) = Returned (inr err)
  | None =>
      exists m : tsm,
        fst (construct args fs) =
          Returned (inl {| manager := m;
                           dispatcherThrottler := goRoutinesThrottler |}) /\
        db m = closedStorer (closedStorer oldDb) /\
        oldStorageClosed m = true /\
        snapshots m = []
  end.
Proof.
  set (t0 := initialManager args oldDb main checkpoints holder).
  assert (Htrig : triggersMigration epoch t0 = true).
  { unfold triggersMigration, t0, initialManager.
    cbn [disableOldStorageEpoch oldStorageClosed negb].
    rewrite andb_true_r. apply Z.geb_le. exact Hpast. }
  destruct (EpochConfirmed_run epoch t0) as (Hst & Hstate & Hcount).
  rewrite Htrig in Hstate, Hcount.
  assert (Erun : EpochConfirmed epoch t0 =
                 (Returned tt, oldStorageClosedState (epochMarked epoch t0),
                  traceOf (EpochConfirmed epoch t0))).
  { rewrite (run_eta (EpochConfirmed epoch t0)) at 1. rewrite Hst, Hstate.
    reflexivity. }
  specialize (Hcount OldDb). cbn [closesOnce] in Hcount.
  unfold NewTrieStorageManager, allPresent in *.
  rewrite Hdb, Hmain, Hcheckpoints, Hholder, Hnotifier in *.
  destruct (Args.Marshalizer args); [| discriminate Hpresent].
  destruct (Args.Hasher args); [| discriminate Hpresent].
  rewrite Hthrottler. unfold registerAndRestore, logMsg, flagIsSet.
  rewrite Hconfirms. fold t0.
  rewrite bind_emit, (bind_Returned _ Erun).
  msteps.
  change (flagDisableOldStorage (oldStorageClosedState (epochMarked epoch t0)))
    with (epoch >=? Args.DisableOldTrieStorageEpoch args).
  replace (epoch >=? Args.DisableOldTrieStorageEpoch args) with true
    by (symmetry; apply Z.geb_le; exact Hpast).
  msteps.
  change (db (oldStorageClosedState (epochMarked epoch t0)))
    with (closedStorer oldDb).
  destruct (snd (dbClose (closedStorer oldDb))) as [err |];
    msteps; unfold ret; cbn [statusOf stateOf traceOf fst snd].
  - split; [| reflexivity].
    rewrite closeCount_cons, closeCount_app, Hcount. reflexivity.
  - split.
    + rewrite closeCount_cons, closeCount_app, Hcount. reflexivity.
    + eexists. split; [reflexivity |]. repeat split.
Qed.

End Construction.

Section GenesisBlocks.

Context {HeaderHandler C Tracker : Type}.
Context {coordinatorOps : Coordinator C}.
Variable headerOf : Header -> HeaderHandler.
Variable MetachainShardId : Z.
Variable NewBlockTrackerMock : C -> goMap HeaderHandler -> Tracker.

Lemma mapLookup_mapInsert (key k : Z) (v : HeaderHandler) (m : goMap HeaderHandler) :
  mapLookup k (mapInsert key v m) = if key =? k then Some v else mapLookup k m.
Proof.
  induction m as [| [k' v'] rest IH]; cbn [mapInsert mapLookup].
  - reflexivity.
  - destruct (Z.eqb_spec k' key) as [E | Hne]; cbn [mapLookup].
    + subst k'. destruct (key =? k); reflexivity.
    + rewrite IH. destruct (Z.eqb_spec k' k) as [E | Hne'].
      * subst k'. destruct (Z.eqb_spec key k) as [E | _]; [| reflexivity].
        exfalso. apply Hne. symmetry. exact E.
      * reflexivity.
Qed.

(** The loop from [i] on, with fuel for the shards left and one more test:
    it ends, having put the genesis header of every shard from [i] up, and
    kept the rest. *)
Lemma genesisBlocksLoop_run (c : C) (fuel : nat) :
  forall (i : Z) (m : goMap HeaderHandler),
    0 <= i <= NumberOfShards c ->
    NumberOfShards c < uint32Mod ->
    (Z.to_nat (NumberOfShards c - i) < fuel)%nat ->
    NoDup (map fst m) ->
    exists m',
      genesisBlocksLoop headerOf fuel c i m = Some m' /\
      NoDup (map fst m') /\
      (forall k, In k (map fst m') <->
                 In k (map fst m) \/ i <= k < NumberOfShards c) /\
      (forall k, mapLookup k m' =
                 if (i <=? k) && (k <? NumberOfShards c)
                 then Some (headerOf (createGenesisBlock k))
                 else mapLookup k m).
Proof.
  induction fuel as [| fuel IH]; intros i m Hi Hn Hfuel Hnd; [lia |].
  cbn [genesisBlocksLoop].
  destruct (Z.ltb_spec i (NumberOfShards c)) as [Hlt | Hge].
  - rewrite Z.mod_small by lia.
    destruct (IH (i + 1)
                 (mapInsert i (headerOf (createGenesisBlock i)) m))
      as (m' & E & Hnd' & Hkeys & Hlook);
      [lia | exact Hn | lia | apply mapInsert_NoDup; exact Hnd |].
    exists m'. split; [exact E |]. split; [exact Hnd' |]. split.
    + intros k. rewrite Hkeys, mapInsert_keys. split.
      * intros [[E' | Hin] | Hr]; [right; lia | left; exact Hin | right; lia].
      * intros [Hin | Hr]; [left; right; exact Hin |].
        destruct (Z.eq_dec k i) as [E' | Hne]; [left; left; exact E' | right; lia].
    + intros k. rewrite Hlook, mapLookup_mapInsert.
      destruct (Z.leb_spec (i + 1) k), (Z.leb_spec i k), (Z.ltb_spec k (NumberOfShards c)),
        (Z.eqb_spec i k); cbn [andb]; try reflexivity; try (exfalso; lia).
      subst k. reflexivity.
  - exists m. split; [reflexivity |]. split; [exact Hnd |]. split.
    + intros k. split; [intros H; left; exact H | intros [H | H]; [exact H | lia]].
    + intros k.
      destruct (Z.leb_spec i k), (Z.ltb_spec k (NumberOfShards c));
        cbn [andb]; try reflexivity; exfalso; lia.
Qed.

(** X17.  For a coordinator whose number of shards is a uint32 not above
    the id of the metachain, [createBlockTracker] hands the mock a map with
    one entry for each shard, the header [createGenesisBlock] makes for
    that shard and which carries its id, and one entry for the metachain,
    the meta header it was given; there is no other entry. *)
Theorem createBlockTracker_one_genesis_per_shard
    (genesisMetaHeader : HeaderHandler) (shardCoordinator : C)
    (Hshards : 0 <= NumberOfShards shardCoordinator <= MetachainShardId)
    (Hmeta : MetachainShardId < uint32Mod) :
  exists genesisBlocks : goMap HeaderHandler,
    createBlockTracker headerOf MetachainShardId NewBlockTrackerMock
      genesisMetaHeader shardCoordinator =
      Some (NewBlockTrackerMock shardCoordinator genesisBlocks) /\
    NoDup (map fst genesisBlocks) /\
    (forall k, In k (map fst genesisBlocks) <->
               0 <= k < NumberOfShards shardCoordinator \/ k = MetachainShardId) /\
    mapLookup MetachainShardId genesisBlocks = Some genesisMetaHeader /\
    (forall k, 0 <= k < NumberOfShards shardCoordinator ->
               mapLookup k genesisBlocks = Some (headerOf (createGenesisBlock k)) /\
               ShardID (createGenesisBlock k) = k).
Proof.
  destruct (@genesisBlocksLoop_run shardCoordinator
              (S (Z.to_nat (NumberOfShards shardCoordinator))) 0 [])
    as (m & E & Hnd & Hkeys & Hlook);
    [lia | lia | rewrite Z.sub_0_r; lia | constructor |].
  unfold createBlockTracker. rewrite E.
  eexists. split; [reflexivity |].
  split; [apply mapInsert_NoDup; exact Hnd |]. split; [| split].
  - intros k. rewrite mapInsert_keys, Hkeys. cbn [map In]. split.
    + intros [E' | [[] | Hr]]; [right; exact E' | left; exact Hr].
    + intros [Hr | E']; [right; right; exact Hr | left; exact E'].
  - rewrite mapLookup_mapInsert, Z.eqb_refl. reflexivity.
  - intros k Hk. split; [| reflexivity].
    rewrite mapLookup_mapInsert, Hlook.
    destruct (Z.eqb_spec MetachainShardId k) as [E' | _]; [exfalso; lia |].
    destruct (Z.leb_spec 0 k), (Z.ltb_spec k (NumberOfShards shardCoordinator));
      cbn [andb]; try reflexivity; exfalso; lia.
Qed.

End GenesisBlocks.

(** ** The further properties on managers in memory *)


(** X6 on the manager with two old generations, for a key the old db
    holds. *)
Lemma Get_after_migration_reads_no_old_layer_witness :
  disableOldStorageEpoch legacyManager <= 5 /\
  (traceOf (Get (toBytes "a") (stateOf (EpochConfirmed 5 legacyManager))) =
     [EvGet MainStorer (toBytes "a")] \/
   traceOf (Get (toBytes "a") (stateOf (EpochConfirmed 5 legacyManager))) =
     [EvGet MainStorer (toBytes "a"); EvGet CheckpointsStorer (toBytes "a")]).
Proof.
  assert (Hepoch : disableOldStorageEpoch legacyManager <= 5) by (cbn; lia).
  split; [exact Hepoch |].
  exact (proj1 (Get_after_migration_reads_no_old_layer (toBytes "a") legacyManager
                  Hepoch)).
Defined.

(** The same key before and after the migration. *)
Example old_layer_read_until_migration :
  statusOf (Get (toBytes "a") legacyManager) = Returned (toBytes "1", None) /\
  statusOf (Get (toBytes "a") (stateOf (EpochConfirmed 4 legacyManager))) =
    Returned (toBytes "1", None) /\
  statusOf (Get (toBytes "a") (stateOf (EpochConfirmed 5 legacyManager))) =
    Returned ([], Some ErrKeyNotFound).
Proof. repeat split. Qed.

(** X7 on a manager as constructed, for an epoch below the threshold. *)
Lemma EpochConfirmed_marks_active_db_witness :
  fst (dbGet (fst (dbPut (mainStorer freshManager)
                     (toBytes activeDBKey) (toBytes activeDBVal)))
         (toBytes activeDBKey)) = toBytes activeDBVal /\
  Get (toBytes activeDBKey) (stateOf (EpochConfirmed 1 freshManager)) =
  (Returned (toBytes activeDBVal, None), stateOf (EpochConfirmed 1 freshManager),
   [EvGet MainStorer (toBytes activeDBKey)]).
Proof.
  assert (Hstored :
            fst (dbGet (fst (dbPut (mainStorer freshManager)
                               (toBytes activeDBKey) (toBytes activeDBVal)))
                   (toBytes activeDBKey)) = toBytes activeDBVal) by reflexivity.
  split; [exact Hstored |].
  exact (proj2 (EpochConfirmed_marks_active_db 1 freshManager Hstored)).
Defined.

(** X8 on three queued requests, the checkpoint taken first. *)
Lemma cleanupChans_finishes_every_request_witness :
  closerClosed drainingManager = true /\
  validCounter drainingManager /\
  statusOf (cleanupChans [RecvCheckpointReq] drainingManager) = Returned tt /\
  chanBuf (snapshotReq (stateOf (cleanupChans [RecvCheckpointReq] drainingManager))) = [].
Proof.
  assert (Hclosing : closerClosed drainingManager = true) by reflexivity.
  assert (Hvalid : validCounter drainingManager).
  { unfold validCounter, uint32Mod. cbn. lia. }
  split; [exact Hclosing |]. split; [exact Hvalid |].
  destruct (cleanupChans_finishes_every_request [RecvCheckpointReq]
              Hclosing Hvalid) as (Hst & Hq & _).
  split; [exact Hst | exact Hq].
Defined.

(** The three requests of [drainingManager], in the order this run finishes
    them. *)
Example cleanupChans_run :
  filter notLog (traceOf (cleanupChans [RecvCheckpointReq] drainingManager)) =
  [EvCloseChan 3%nat; EvSnapshotFinished 3%nat;
   EvCloseChan 1%nat; EvSnapshotFinished 1%nat;
   EvSnapshotFinished 2%nat] /\
  pruningBlockingOps (stateOf (cleanupChans [RecvCheckpointReq] drainingManager)) = 0.
Proof. split; reflexivity. Qed.

(** X9 on three snapshots. *)
Lemma getOrderedSnapshots_ascending_witness :
  NoDup (map fst threeSnapshots) /\
  getOrderedSnapshots threeSnapshots = map snd (sortByKey threeSnapshots).
Proof.
  assert (Hkeys : NoDup (map fst threeSnapshots)).
  { repeat (constructor;
            [cbn; intros H;
             repeat (destruct H as [H | H]; [discriminate H |]); exact H |]).
    constructor. }
  split; [exact Hkeys |].
  exact (proj1 (proj2 (proj2 (getOrderedSnapshots_ascending threeSnapshots Hkeys)))).
Defined.

Example getOrderedSnapshots_run :
  getOrderedSnapshots threeSnapshots = ["a"; "b"; "c"]%string.
Proof. reflexivity. Qed.




Example getSnapshotsAndSnapshotId_run :
  statusOf (getSnapshotsAndSnapshotId decimalAtoi openInMemory
              {| pathExists := true; readDir := inl goodListing |} snapshotsDir tt) =
  Returned ([emptyDB; emptyDB], 11, None) /\
  statusOf (getSnapshotsAndSnapshotId decimalAtoi openInMemory
              {| pathExists := false; readDir := inl goodListing |} snapshotsDir tt) =
  Returned ([], 0, None).
Proof. split; reflexivity. Qed.


(** After a scan that failed, the id returned is the one of a snapshot
    already there. *)
Example failed_scan_returns_used_id :
  statusOf (getSnapshotsAndSnapshotId decimalAtoi openInMemory
              {| pathExists := true;
                 readDir := inl [{| Name := "4"; IsDir := true |};
                                 {| Name := "9"; IsDir := true |};
                                 {| Name := "12"; IsDir := true |}] |}
              snapshotsDir tt) =
  Returned ([emptyDB], 4, Some (ErrStorage 3)).
Proof. reflexivity. Qed.


(** X13 on a throttler at its bound and the manager whose context is
    done. *)
Lemma dispatcher_finishes_the_request_it_gives_up_witness :
  CanProcess {| maxConcurrent := 2; current := 2 |} = false /\
  ctxDone drainingManager = true /\
  validCounter drainingManager /\
  statusOf (checkGoRoutinesThrottler {| maxConcurrent := 2; current := 2 |}
              (requestOf "root" (Some 1%nat) 2%nat) drainingManager) =
    Returned (Some ErrTimeIsOut).
Proof.
  assert (Hbusy : CanProcess {| maxConcurrent := 2; current := 2 |} = false)
    by reflexivity.
  assert (Hdone : ctxDone drainingManager = true) by reflexivity.
  assert (Hvalid : validCounter drainingManager).
  { unfold validCounter, uint32Mod. cbn. lia. }
  split; [exact Hbusy |]. split; [exact Hdone |]. split; [exact Hvalid |].
  exact (proj1 (dispatcher_finishes_the_request_it_gives_up
                  {| maxConcurrent := 2; current := 2 |}
                  (requestOf "root" (Some 1%nat) 2%nat)
                  Hbusy Hdone Hvalid)).
Defined.

(** X14 on arguments without the old db. *)
Lemma NewTrieStorageManager_refuses_missing_collaborator_witness :
  allPresent (memArgs None (Some {| currentEpoch := 7 |})) = false /\
  exists err : error,
    newMemManager (memArgs None (Some {| currentEpoch := 7 |})) brokenListing =
      (Returned (inr err), []).
Proof.
  split; [reflexivity |].
  destruct (NewTrieStorageManager_refuses_missing_collaborator
              (ErrStorage 11) (ErrStorage 12) (ErrStorage 13)
              (ErrStorage 14) (ErrStorage 15) (ErrStorage 16)
              newCountingThrottler registerAtCurrentEpoch decimalAtoi openInMemory
              (memArgs None (Some {| currentEpoch := 7 |})) brokenListing
              eq_refl) as (err & E & _).
  exists err. exact E.
Defined.

(** X15 at an epoch below the threshold, on a path whose scan fails. *)
Lemma NewTrieStorageManager_survives_failed_scan_witness :
  allPresent (memArgs (Some emptyDB) (Some {| currentEpoch := 3 |})) = true /\
  flagDisableOldStorage
    (stateOf (registerAtCurrentEpoch {| currentEpoch := 3 |}
                (initialManager (memArgs (Some emptyDB) (Some {| currentEpoch := 3 |}))
                   emptyDB emptyDB emptyDB []))) = false /\
  exists (m : trieStorageManager memDB memHolder) (tr : list event),
    newMemManager (memArgs (Some emptyDB) (Some {| currentEpoch := 3 |}))
      brokenListing =
      (Returned (inl {| manager := m;
                        dispatcherThrottler :=
                          {| maxConcurrent := 1; current := 0 |} |}), tr) /\
    snapshots m = [emptyDB] /\ snapshotId m = 4.
Proof.
  split; [reflexivity |]. split; [reflexivity |].
  destruct (NewTrieStorageManager_survives_failed_scan
              (ErrStorage 11) (ErrStorage 12) (ErrStorage 13)
              (ErrStorage 14) (ErrStorage 15) (ErrStorage 16)
              newCountingThrottler registerAtCurrentEpoch decimalAtoi openInMemory
              (memArgs (Some emptyDB) (Some {| currentEpoch := 3 |})) brokenListing
              (t1 := stateOf (registerAtCurrentEpoch {| currentEpoch := 3 |}
                     (initialManager
                        (memArgs (Some emptyDB) (Some {| currentEpoch := 3 |}))
                        emptyDB emptyDB emptyDB [])))
              eq_refl eq_refl eq_refl eq_refl eq_refl eq_refl eq_refl eq_refl eq_refl)
    as (restored & id & err & tr & Hscan & Hbuilt & _).
  injection Hscan as Hrestored Hid _.
  eexists _, tr. split; [exact Hbuilt |].
  split; [symmetry; exact Hrestored | symmetry; exact Hid].
Defined.

(** X16 at an epoch past the threshold. *)
Lemma NewTrieStorageManager_closes_old_db_again_witness :
  Args.DisableOldTrieStorageEpoch
    (memArgs (Some emptyDB) (Some {| currentEpoch := 7 |})) <= 7 /\
  closeCount OldDb
    (snd (newMemManager (memArgs (Some emptyDB) (Some {| currentEpoch := 7 |}))
            brokenListing)) = 2%nat.
Proof.
  split; [cbn; lia |].
  apply (NewTrieStorageManager_closes_old_db_again
           (ErrStorage 11) (ErrStorage 12) (ErrStorage 13)
           (ErrStorage 14) (ErrStorage 15) (ErrStorage 16)
           newCountingThrottler registerAtCurrentEpoch decimalAtoi openInMemory
           (memArgs (Some emptyDB) (Some {| currentEpoch := 7 |})) brokenListing
           (goRoutinesThrottler := {| maxConcurrent := 1; current := 0 |})
           (epoch := 7)
           eq_refl eq_refl eq_refl eq_refl eq_refl eq_refl eq_refl eq_refl).
  cbn. lia.
Defined.

(** The manager built at an epoch past the threshold has had its old db
    closed twice and has opened no directory. *)
Example NewTrieStorageManager_run_past_threshold :
  exists (m : trieStorageManager memDB memHolder) (tr : list event),
    newMemManager (memArgs (Some emptyDB) (Some {| currentEpoch := 7 |}))
      brokenListing =
      (Returned (inl {| manager := m;
                        dispatcherThrottler :=
                          {| maxConcurrent := 1; current := 0 |} |}), tr) /\
    closeCalls (db m) = 2%nat /\ snapshots m = [] /\ snapshotId m = 0.
Proof. eexists _, _. split; [reflexivity |]. repeat split. Qed.

(** X17 on three shards, the metachain at the largest uint32. *)
Lemma createBlockTracker_one_genesis_per_shard_witness :
  0 <= NumberOfShards {| shards := 3 |} <= 4294967295 /\
  4294967295 < uint32Mod /\
  exists genesisBlocks : goMap testHeader,
    createBlockTracker ShardHeader 4294967295 (fun _ m => m)
      (MetaHeader "genesis") {| shards := 3 |} = Some genesisBlocks /\
    mapLookup 4294967295 genesisBlocks = Some (MetaHeader "genesis") /\
    mapLookup 2 genesisBlocks = Some (ShardHeader (createGenesisBlock 2)).
Proof.
  assert (Hshards : 0 <= NumberOfShards {| shards := 3 |} <= 4294967295)
    by (cbn; lia).
  assert (Hmeta : 4294967295 < uint32Mod) by (unfold uint32Mod; lia).
  split; [exact Hshards |]. split; [exact Hmeta |].
  destruct (createBlockTracker_one_genesis_per_shard
              ShardHeader (fun (_ : fixedCoordinator) (m : goMap testHeader) => m)
              (MetaHeader "genesis") {| shards := 3 |} Hshards Hmeta)
    as (m & E & _ & _ & Hm & Hk).
  exists m. split; [exact E |]. split; [exact Hm |].
  apply Hk. cbn. lia.
Defined.

(** Were the shards to reach the id of the metachain, the meta header would
    take the place of a shard's. *)
Example createBlockTracker_meta_overrides_shard :
  createBlockTracker ShardHeader 1 (fun (_ : fixedCoordinator) m => m)
    (MetaHeader "genesis") {| shards := 2 |} =
  Some [(0, ShardHeader (createGenesisBlock 0)); (1, MetaHeader "genesis")].
Proof. reflexivity. Qed.
